(** * Twilio translation backend: a shallow embedding of the audio pipeline

    The development models the per-leg audio pipeline of the translation
    backend: the mu-law decoder, the voice analyzer with its profile cache,
    the room registry shared by the two legs of a call, the buffering and
    single-flight flush of [AdvancedVoiceProcessor], the outbound chunked
    sender, and the WebSocket close handler of the server.

    JavaScript numbers that carry measurements are binary64 values
    ([PrimFloat]); 32-bit bitwise operators are written on [Z] with their
    wrap-around; buffers are lists of bytes; [Map] objects are [gmap]s;
    object references (a processor stored in a session slot) are indices
    into a store of processors.  External services are oracles whose calls
    either return or throw. *)

From Stdlib Require Import ZArith List String Ascii Bool Lia.
From Stdlib Require Import Init.Byte.
From Stdlib Require Import Uint63 Floats.PrimFloat Floats.FloatAxioms.
From stdpp Require Import base option list gmap strings pretty.

Set Warnings "-inexact-float".

Local Open Scope string_scope.
Local Open Scope list_scope.
Local Open Scope Z_scope.

(* ===================================================================== *)
(** * Part I: definitions                                                 *)
(* ===================================================================== *)

(** ** JavaScript values and exceptions *)

(** A field that holds [undefined], [null] or a string. *)
Inductive JsVal : Type :=
| JUndefined
| JNull
| JStr (s : string).

(** Truthiness as tested by [!x] and [if (x)]: the empty string is falsy. *)
Definition truthy (v : JsVal) : bool :=
  match v with
  | JStr s => negb (String.eqb s "")
  | _ => false
  end.

(** What a template literal prints for the value. *)
Definition template (v : JsVal) : string :=
  match v with
  | JUndefined => "undefined"
  | JNull => "null"
  | JStr s => s
  end.

(** [v === "lit"]. *)
Definition strict_eq_str (v : JsVal) (lit : string) : bool :=
  match v with
  | JStr s => String.eqb s lit
  | _ => false
  end.

Definition JsVal_enc (v : JsVal) : option (option string) :=
  match v with
  | JUndefined => None
  | JNull => Some None
  | JStr s => Some (Some s)
  end.

Definition JsVal_dec (o : option (option string)) : JsVal :=
  match o with
  | None => JUndefined
  | Some None => JNull
  | Some (Some s) => JStr s
  end.

#[global] Instance JsVal_eq_dec : EqDecision JsVal.
Proof. solve_decision. Defined.

#[global] Instance JsVal_countable : Countable JsVal.
Proof.
  refine (inj_countable' JsVal_enc JsVal_dec _).
  intros []; reflexivity.
Defined.

(** The outcome of a call that may throw. *)
Inductive Exn (A : Type) : Type :=
| Ok (a : A)
| Throw (msg : string).
Arguments Ok {A} a.
Arguments Throw {A} msg.

Definition bindE {A B} (m : Exn A) (k : A -> Exn B) : Exn B :=
  match m with
  | Ok a => k a
  | Throw e => Throw e
  end.

(** [try { body } catch (error) { handler }]. *)
Definition try_catch {A} (body : Exn A) (handler : string -> Exn A) : Exn A :=
  match body with
  | Ok a => Ok a
  | Throw e => handler e
  end.

Notation "x <-! m ;; k" := (bindE m (fun x => k))
  (at level 100, m at next level, right associativity).

(** ** 32-bit integer operators *)

Module Int32.

Definition wrap (z : Z) : Z := (z + 2147483648) mod 4294967296 - 2147483648.

(** [~x] *)
Definition not (x : Z) : Z := wrap (Z.lnot (wrap x)).
(** [x & y] *)
Definition and (x y : Z) : Z := wrap (Z.land (wrap x) (wrap y)).
(** [x >> n] (sign-propagating) *)
Definition sar (x n : Z) : Z := wrap (Z.shiftr (wrap x) (Z.land n 31)).
(** [x << n] *)
Definition shl (x n : Z) : Z := wrap (Z.shiftl (wrap x) (Z.land n 31)).

End Int32.

(** ** Buffers *)

Definition byte_val (b : byte) : Z := Z.of_N (Byte.to_N b).

Definition byte_of_Z (z : Z) : byte :=
  match Byte.of_N (Z.to_N (z mod 256)) with
  | Some b => b
  | None => x00
  end.

(** [buf.writeInt16LE(value, _)]: the two bytes written, low byte first;
    a value outside the 16-bit signed range is a RangeError. *)
Definition writeInt16LE (value : Z) : Exn (list byte) :=
  if (value <? -32768) || (32767 <? value)
  then Throw "ERR_OUT_OF_RANGE"
  else Ok [byte_of_Z value; byte_of_Z (Z.shiftr value 8)].

(** The value [buf.readInt16LE(i)] reads from the bytes at [i] and [i+1]. *)
Definition int16_of_bytes (lo hi : byte) : Z :=
  let u := byte_val lo + 256 * byte_val hi in
  if 32768 <=? u then u - 65536 else u.

(** ** AudioCodec: [decodeMulaw] *)

Module Codec.

Definition MULAW_BIAS : Z := 0x84.

(** The arrow function [mulawToLinear] inside [decodeMulaw]. *)
Definition mulawToLinear (mulaw : Z) : Z :=
  let mulaw := Int32.not mulaw in
  let sign := Int32.and mulaw 0x80 in
  let exponent := Int32.and (Int32.sar mulaw 4) 7 in
  let mantissa := Int32.and mulaw 0x0F in
  let sample := Int32.shl mantissa (exponent + 3) + Int32.shl MULAW_BIAS exponent in
  let sample := if exponent =? 0 then sample + MULAW_BIAS else sample in
  let sample := if negb (sign =? 0) then - sample else sample in
  sample.

(** The loop of [decodeMulaw]: every input byte becomes two output bytes. *)
Fixpoint decodeLoop (mulawBuffer : list byte) : Exn (list byte) :=
  match mulawBuffer with
  | [] => Ok []
  | b :: rest =>
      pcm <-! writeInt16LE (mulawToLinear (byte_val b)) ;;
      tail <-! decodeLoop rest ;;
      Ok (pcm ++ tail)
  end.

Definition decodeMulaw (mulawBuffer : list byte) : Exn (list byte) :=
  decodeLoop mulawBuffer.

(** The standard G.711 mu-law expansion (the reference [ulaw2linear]):
    the table the specification compares the decoder with.  It is the
    reference side of the comparison and is not part of the repository. *)
Definition ulaw2linear (u_val : Z) : Z :=
  let u := Z.land (Z.lnot u_val) 0xFF in
  let t := Z.shiftl (Z.land u 0x0F) 3 + 0x84 in
  let t := Z.shiftl t (Z.shiftr (Z.land u 0x70) 4) in
  if negb (Z.land u 0x80 =? 0) then 0x84 - t else t - 0x84.

(** Reference decoding of a whole buffer, as 16-bit samples. *)
Definition referenceSamples (mulawBuffer : list byte) : list Z :=
  List.map (fun b => ulaw2linear (byte_val b)) mulawBuffer.

(** The samples held by a PCM buffer (pairs of bytes, little endian). *)
Fixpoint samplesOf (pcm : list byte) : list Z :=
  match pcm with
  | lo :: hi :: rest => int16_of_bytes lo hi :: samplesOf rest
  | _ => []
  end.

End Codec.

(** ** JavaScript numbers *)

Module JsNum.

Local Open Scope float_scope.

(** An integer of the 16-bit range (and small loop counters) as a number. *)
Definition of_Z (z : Z) : float :=
  if (z <? 0)%Z then - of_uint63 (Uint63.of_Z (- z)) else of_uint63 (Uint63.of_Z z).

Definition two52 : float := 4503599627370496.

(** [Math.floor].  Below 2^52 in magnitude, adding and removing 2^52 rounds
    to an integer next to [x]; one is taken off when that went up. *)
Definition floor (x : float) : float :=
  if is_nan x || is_zero x then x
  else if two52 <=? abs x then x
  else
    let r := if 0 <=? x then (x + two52) - two52 else (x - two52) + two52 in
    if x <? r then r - 1 else r.

(** [Math.round]: the nearest integer, a tie going up; NaN, the infinities
    and the integers are returned as they are. *)
Definition round (x : float) : float :=
  if is_nan x then x
  else if two52 <=? abs x then x
  else
    let f := floor x in
    let r := if 0.5 <=? x - f then f + 1 else f in
    if is_zero r && (x <? 0) then -0 else r.

(** [Math.min] and [Math.max]: NaN when an argument is NaN; -0 below +0. *)
Definition min (a b : float) : float :=
  if is_nan a || is_nan b then nan
  else if a <? b then a
  else if b <? a then b
  else if get_sign a then a else b.

Definition max (a b : float) : float :=
  if is_nan a || is_nan b then nan
  else if a <? b then b
  else if b <? a then a
  else if get_sign a then b else a.

End JsNum.

(** ** VoiceAnalyzer *)

Module VoiceAnalyzer.

Local Open Scope float_scope.

Inductive Gender : Type := male | female | neutral.

(** A voice profile object.  [samples] is absent ([None]) on the profile
    [analyzeVoice] returns and present on the objects kept in the cache. *)
Record Profile : Type := {
  pitch : float;
  speed : float;
  energy : float;
  gender : Gender;
  timestamp : Z;
  samples : option Z
}.

(** The samples of a PCM buffer, read by [readInt16LE(i)] for
    [i = 0, 2, 4, ...] while [i < length]: on a buffer of odd length the
    last read needs a byte past the end and throws. *)
Fixpoint readSamples (pcmBuffer : list byte) : Exn (list float) :=
  match pcmBuffer with
  | [] => Ok []
  | [_] => Throw "ERR_OUT_OF_RANGE"
  | lo :: hi :: rest =>
      tail <-! readSamples rest ;;
      Ok (JsNum.of_Z (int16_of_bytes lo hi) :: tail)
  end.

Definition sampleRate : float := 8000.
(** [Math.floor(sampleRate / 500)] and [Math.floor(sampleRate / 50)]. *)
Definition minPeriod : nat := 16.
Definition maxPeriod : nat := 160.

(** [for (i = 0; i < samples.length - period; i++)
       correlation += samples[i] * samples[i + period]]:
    [shifted] is [samples] from index [period] on. *)
Fixpoint correlate (samples shifted : list float) (correlation : float) : float :=
  match samples, shifted with
  | x :: xs, y :: ys => correlate xs ys (correlation + x * y)
  | _, _ => correlation
  end.

(** The loop over [period], [count] periods from [period] on, carrying
    [(maxCorrelation, bestPeriod)]. *)
Fixpoint searchPeriod (samples : list float) (period count : nat)
    (best : float * nat) : float * nat :=
  match count with
  | O => best
  | S count' =>
      let correlation := correlate samples (drop period samples) 0 in
      let best' := if fst best <? correlation then (correlation, period) else best in
      searchPeriod samples (S period) count' best'
  end.

Definition pitchOfFrequency (frequency : float) : float :=
  let pitchAdjustment :=
    if frequency <? 120 then -10 + ((frequency - 85) / 35) * 10
    else if frequency <? 165 then -5 + ((frequency - 120) / 45) * 5
    else if frequency <? 210 then 0 + ((frequency - 165) / 45) * 10
    else 10 + ((frequency - 210) / 45) * 10 in
  JsNum.max (-20) (JsNum.min 20 (JsNum.round pitchAdjustment)).

Definition detectPitch (pcmBuffer : list byte) : Exn float :=
  samples <-! readSamples pcmBuffer ;;
  let '(_, bestPeriod) :=
    searchPeriod samples minPeriod (S maxPeriod - minPeriod) (0, minPeriod) in
  let frequency := sampleRate / JsNum.of_Z (Z.of_nat bestPeriod) in
  Ok (pitchOfFrequency frequency).

(** The zero-crossing loop of [detectSpeed], carrying
    [(zeroCrossings, prevSample)]. *)
Fixpoint countCrossings (pcmBuffer : list byte) (zeroCrossings : float)
    (prevSample : float) : Exn float :=
  match pcmBuffer with
  | [] => Ok zeroCrossings
  | [_] => Throw "ERR_OUT_OF_RANGE"
  | lo :: hi :: rest =>
      let sample := JsNum.of_Z (int16_of_bytes lo hi) in
      let crossed := ((0 <=? prevSample) && (sample <? 0))
                     || ((prevSample <? 0) && (0 <=? sample)) in
      countCrossings rest (if crossed then zeroCrossings + 1 else zeroCrossings) sample
  end.

Definition speedOfRate (crossingRate : float) : float :=
  let speedMultiplier :=
    if crossingRate <? 150 then 0.8 + (crossingRate / 150) * 0.2
    else if crossingRate <? 250 then 1.0
    else 1.0 + ((crossingRate - 250) / 250) * 0.3 in
  JsNum.max 0.75 (JsNum.min 1.5 speedMultiplier).

Definition detectSpeed (pcmBuffer : list byte) : Exn float :=
  zeroCrossings <-! countCrossings pcmBuffer 0 0 ;;
  let durationSeconds := JsNum.of_Z (Z.of_nat (length pcmBuffer)) / 2 / 8000 in
  let crossingRate := zeroCrossings / durationSeconds in
  Ok (speedOfRate crossingRate).

(** The loop of [detectEnergy], carrying [(sumSquares, sampleCount)]. *)
Fixpoint sumSquaresLoop (pcmBuffer : list byte) (sumSquares sampleCount : float)
    : Exn (float * float) :=
  match pcmBuffer with
  | [] => Ok (sumSquares, sampleCount)
  | [_] => Throw "ERR_OUT_OF_RANGE"
  | lo :: hi :: rest =>
      let sample := JsNum.of_Z (int16_of_bytes lo hi) in
      sumSquaresLoop rest (sumSquares + sample * sample) (sampleCount + 1)
  end.

Definition energyOfRms (rms : float) : float :=
  let volumeAdjustment :=
    if rms <? 1000 then 5 + (rms / 1000) * 5
    else if rms <? 3000 then 0
    else -5 - ((rms - 3000) / 3000) * 5 in
  JsNum.max (-10) (JsNum.min 10 (JsNum.round volumeAdjustment)).

Definition detectEnergy (pcmBuffer : list byte) : Exn float :=
  sums <-! sumSquaresLoop pcmBuffer 0 0 ;;
  let '(sumSquares, sampleCount) := sums in
  let rms := sqrt (sumSquares / sampleCount) in
  Ok (energyOfRms rms).

Definition detectGender (pitch : float) : Gender :=
  if pitch <? 0 then male else female.

Definition getDefaultProfile (now : Z) : Profile :=
  {| pitch := 0; speed := 1.0; energy := 0; gender := neutral;
     timestamp := now; samples := None |}.

(** [existing.samples || 1]. *)
Definition samplesOrOne (s : option Z) : Z :=
  match s with
  | Some n => if (n =? 0)%Z then 1%Z else n
  | None => 1%Z
  end.

(** [updateProfile(userId, newProfile)] on the cache [voiceProfiles]. *)
Definition updateProfile (now : Z) (userId : JsVal) (newProfile : Profile)
    (voiceProfiles : gmap JsVal Profile) : gmap JsVal Profile :=
  match voiceProfiles !! userId with
  | Some existing =>
      let updated :=
        {| pitch := JsNum.round (pitch existing * 0.7 + pitch newProfile * 0.3);
           speed := speed existing * 0.7 + speed newProfile * 0.3;
           energy := JsNum.round (energy existing * 0.7 + energy newProfile * 0.3);
           gender := gender newProfile;
           timestamp := now;
           samples := Some (samplesOrOne (samples existing) + 1)%Z |} in
      <[userId := updated]> voiceProfiles
  | None =>
      <[userId := {| pitch := pitch newProfile; speed := speed newProfile;
                     energy := energy newProfile; gender := gender newProfile;
                     timestamp := timestamp newProfile;
                     samples := Some 1%Z |}]> voiceProfiles
  end.

(** The body of the [try] block of [analyzeVoice]: the measured profile
    and the cache after [updateProfile]. *)
Definition analyzeBody (now : Z) (pcmBuffer : list byte) (userId : JsVal)
    (voiceProfiles : gmap JsVal Profile) : Exn (Profile * gmap JsVal Profile) :=
  pitch <-! detectPitch pcmBuffer ;;
  speed <-! detectSpeed pcmBuffer ;;
  energy <-! detectEnergy pcmBuffer ;;
  let gender := detectGender pitch in
  let profile :=
    {| pitch := pitch; speed := speed; energy := energy; gender := gender;
       timestamp := now; samples := None |} in
  Ok (profile, updateProfile now userId profile voiceProfiles).

(** [analyzeVoice(pcmBuffer, userId)]: the returned profile and the cache
    afterwards. *)
Definition analyzeVoice (now : Z) (pcmBuffer : list byte) (userId : JsVal)
    (voiceProfiles : gmap JsVal Profile) : Profile * gmap JsVal Profile :=
  match analyzeBody now pcmBuffer userId voiceProfiles with
  | Ok r => r
  | Throw _ => (getDefaultProfile now, voiceProfiles)
  end.

Definition getProfile (now : Z) (userId : JsVal)
    (voiceProfiles : gmap JsVal Profile) : Profile :=
  match voiceProfiles !! userId with
  | Some p => p
  | None => getDefaultProfile now
  end.

(** [cleanup(userId)]: [voiceProfiles.delete(userId)]. *)
Definition cleanup (userId : JsVal) (voiceProfiles : gmap JsVal Profile)
    : gmap JsVal Profile :=
  delete userId voiceProfiles.

(** Caches a [VoiceAnalyzer] can hold: it starts empty and is written by
    [updateProfile] and [cleanup] only. *)
Inductive reachable : gmap JsVal Profile -> Prop :=
| reach_new : reachable ∅
| reach_update now userId newProfile vp :
    reachable vp -> reachable (updateProfile now userId newProfile vp)
| reach_cleanup userId vp :
    reachable vp -> reachable (cleanup userId vp).

End VoiceAnalyzer.
(** ** [Buffer.prototype.toString("base64")] *)

Module Base64.

Definition alphabet : string :=
  "ABCDEFGHIJKLMNOPQRSTUVWXYZabcdefghijklmnopqrstuvwxyz0123456789+/".

Definition digit (n : Z) : ascii :=
  match String.get (Z.to_nat (n mod 64)) alphabet with
  | Some c => c
  | None => "="%char
  end.

(** Three bytes give four digits; a tail of one or two bytes is padded. *)
Fixpoint encode (buf : list byte) : string :=
  match buf with
  | [] => ""
  | [a] =>
      let n := byte_val a * 65536 in
      String (digit (n / 262144)) (String (digit (n / 4096)) "==")
  | [a; b] =>
      let n := byte_val a * 65536 + byte_val b * 256 in
      String (digit (n / 262144)) (String (digit (n / 4096))
        (String (digit (n / 64)) "="))
  | a :: b :: c :: rest =>
      let n := byte_val a * 65536 + byte_val b * 256 + byte_val c in
      String (digit (n / 262144)) (String (digit (n / 4096))
        (String (digit (n / 64)) (String (digit n) (encode rest))))
  end.

End Base64.
(** ** Transports, sessions and processors *)

(** A message handed to [ws.send] (the object given to [JSON.stringify]). *)
Inductive Message : Type :=
| MediaMsg (streamSid : JsVal) (payload : string)
| MarkMsg (streamSid : JsVal) (name : string)
| ForceDisconnect (reason : string).

(** A WebSocket: its [readyState] (1 is OPEN), the messages [send] has
    accepted, oldest first, and how many more sends the transport accepts
    before [send] throws ([None]: it never throws). *)
Record WebSocket : Type := {
  readyState : Z;
  sent : list Message;
  sendBudget : option nat
}.

(** [ws.send(message)]: the socket afterwards and whether the call threw. *)
Definition ws_send (m : Message) (sock : WebSocket) : WebSocket * Exn unit :=
  match sendBudget sock with
  | Some O => (sock, Throw "send failed")
  | Some (S n) =>
      ({| readyState := readyState sock; sent := sent sock ++ [m];
          sendBudget := Some n |}, Ok tt)
  | None =>
      ({| readyState := readyState sock; sent := sent sock ++ [m];
          sendBudget := None |}, Ok tt)
  end.

Definition isMedia (m : Message) : bool :=
  match m with MediaMsg _ _ => true | _ => false end.
Definition isMark (m : Message) : bool :=
  match m with MarkMsg _ _ => true | _ => false end.
Definition isForceDisconnect (m : Message) : bool :=
  match m with ForceDisconnect _ => true | _ => false end.

Record Stats : Type := {
  packetsReceived : Z;
  transcriptions : Z;
  translations : Z;
  audiosSent : Z;
  errors : Z
}.

(** A field of a session that refers to a processor object. *)
Inductive Slot : Type :=
| SlotUndefined
| SlotNull
| SlotRef (p : nat).

(** A session object of [activeSessions].  The room routes create the
    first five fields; [registerConnection] adds [callerConnection] and
    [receiverConnection], which are [undefined] until then. *)
Record Session : Type := {
  creatorLanguage : JsVal;
  participantLanguage : JsVal;
  creatorConnection : Slot;
  participantConnection : Slot;
  createdAt : Z;
  callerConnection : Slot;
  receiverConnection : Slot
}.

Definition set_creatorConnection (v : Slot) (s : Session) : Session :=
  let 'Build_Session a b _ d e f g := s in Build_Session a b v d e f g.
Definition set_participantConnection (v : Slot) (s : Session) : Session :=
  let 'Build_Session a b c _ e f g := s in Build_Session a b c v e f g.
Definition set_participantLanguage (v : JsVal) (s : Session) : Session :=
  let 'Build_Session a _ c d e f g := s in Build_Session a v c d e f g.
Definition set_callerConnection (v : Slot) (s : Session) : Session :=
  let 'Build_Session a b c d e _ g := s in Build_Session a b c d e v g.
Definition set_receiverConnection (v : Slot) (s : Session) : Session :=
  let 'Build_Session a b c d e f _ := s in Build_Session a b c d e f v.

(** The state of one [AdvancedVoiceProcessor].  [maxBufferDuration] and
    [minBufferDuration] are set by the constructor and never reassigned;
    [voiceProfiles] is the cache of the processor's own [VoiceAnalyzer].
    [silenceTimeout] holds a timer handle; [pendingTimers] and [nextTimer]
    are the timers of the event loop that belong to this processor. *)
Record Processor : Type := {
  ws : option WebSocket;
  roomId : JsVal;
  userType : JsVal;
  myLanguage : JsVal;
  streamSid : JsVal;
  callSid : JsVal;
  userId : JsVal;
  audioBuffer : list (list byte);
  bufferDuration : Z;
  maxBufferDuration : Z;
  minBufferDuration : Z;
  isProcessing : bool;
  silenceTimeout : option nat;
  stats : Stats;
  voiceProfiles : gmap JsVal VoiceAnalyzer.Profile;
  pendingTimers : list nat;
  nextTimer : nat
}.

Definition set_ws v (p : Processor) : Processor :=
  let 'Build_Processor _ b c d e f g h i j k l m n o q r := p in
  Build_Processor v b c d e f g h i j k l m n o q r.
Definition set_roomId v (p : Processor) : Processor :=
  let 'Build_Processor a _ c d e f g h i j k l m n o q r := p in
  Build_Processor a v c d e f g h i j k l m n o q r.
Definition set_userType v (p : Processor) : Processor :=
  let 'Build_Processor a b _ d e f g h i j k l m n o q r := p in
  Build_Processor a b v d e f g h i j k l m n o q r.
Definition set_myLanguage v (p : Processor) : Processor :=
  let 'Build_Processor a b c _ e f g h i j k l m n o q r := p in
  Build_Processor a b c v e f g h i j k l m n o q r.
Definition set_streamSid v (p : Processor) : Processor :=
  let 'Build_Processor a b c d _ f g h i j k l m n o q r := p in
  Build_Processor a b c d v f g h i j k l m n o q r.
Definition set_callSid v (p : Processor) : Processor :=
  let 'Build_Processor a b c d e _ g h i j k l m n o q r := p in
  Build_Processor a b c d e v g h i j k l m n o q r.
Definition set_userId v (p : Processor) : Processor :=
  let 'Build_Processor a b c d e f _ h i j k l m n o q r := p in
  Build_Processor a b c d e f v h i j k l m n o q r.
Definition set_audioBuffer v (p : Processor) : Processor :=
  let 'Build_Processor a b c d e f g _ i j k l m n o q r := p in
  Build_Processor a b c d e f g v i j k l m n o q r.
Definition set_bufferDuration v (p : Processor) : Processor :=
  let 'Build_Processor a b c d e f g h _ j k l m n o q r := p in
  Build_Processor a b c d e f g h v j k l m n o q r.
Definition set_isProcessing v (p : Processor) : Processor :=
  let 'Build_Processor a b c d e f g h i j k _ m n o q r := p in
  Build_Processor a b c d e f g h i j k v m n o q r.
Definition set_silenceTimeout v (p : Processor) : Processor :=
  let 'Build_Processor a b c d e f g h i j k l _ n o q r := p in
  Build_Processor a b c d e f g h i j k l v n o q r.
Definition set_stats v (p : Processor) : Processor :=
  let 'Build_Processor a b c d e f g h i j k l m _ o q r := p in
  Build_Processor a b c d e f g h i j k l m v o q r.
Definition set_voiceProfiles v (p : Processor) : Processor :=
  let 'Build_Processor a b c d e f g h i j k l m n _ q r := p in
  Build_Processor a b c d e f g h i j k l m n v q r.
Definition set_pendingTimers v (p : Processor) : Processor :=
  let 'Build_Processor a b c d e f g h i j k l m n o _ r := p in
  Build_Processor a b c d e f g h i j k l m n o v r.
Definition set_nextTimer v (p : Processor) : Processor :=
  let 'Build_Processor a b c d e f g h i j k l m n o q _ := p in
  Build_Processor a b c d e f g h i j k l m n o q v.

Definition inc_packetsReceived (s : Stats) : Stats :=
  let 'Build_Stats a b c d e := s in Build_Stats (a + 1) b c d e.
Definition inc_transcriptions (s : Stats) : Stats :=
  let 'Build_Stats a b c d e := s in Build_Stats a (b + 1) c d e.
Definition inc_translations (s : Stats) : Stats :=
  let 'Build_Stats a b c d e := s in Build_Stats a b (c + 1) d e.
Definition inc_audiosSent (s : Stats) : Stats :=
  let 'Build_Stats a b c d e := s in Build_Stats a b c (d + 1) e.
Definition inc_errors (s : Stats) : Stats :=
  let 'Build_Stats a b c d e := s in Build_Stats a b c d (e + 1).

(** [clearTimeout(handle)] and [setTimeout(callback, _)] on the timers of
    a processor. *)
Definition clearTimeout (handle : nat) (p : Processor) : Processor :=
  set_pendingTimers (List.filter (fun t => negb (Nat.eqb t handle)) (pendingTimers p)) p.

Definition setTimeout (p : Processor) : Processor * nat :=
  let handle := nextTimer p in
  (set_nextTimer (S handle) (set_pendingTimers (pendingTimers p ++ [handle]) p), handle).

(** [new AdvancedVoiceProcessor(websocket, activeSessions)]. *)
Definition newProcessor (websocket : WebSocket) : Processor :=
  {| ws := Some websocket;
     roomId := JNull; userType := JNull; myLanguage := JNull;
     streamSid := JNull; callSid := JNull; userId := JNull;
     audioBuffer := []; bufferDuration := 0;
     maxBufferDuration := 2000; minBufferDuration := 500;
     isProcessing := false; silenceTimeout := None;
     stats := {| packetsReceived := 0; transcriptions := 0; translations := 0;
                 audiosSent := 0; errors := 0 |};
     voiceProfiles := ∅;
     pendingTimers := []; nextTimer := O |}.

(** A record pushed by [addTranslation] for the polling UI. *)
Record TranslationData : Type := {
  originalText : string;
  translatedText : string;
  fromLanguage : JsVal;
  toLanguage : JsVal;
  isIncoming : bool;
  translationTimestamp : Z
}.

(** A call made to an external service. *)
Inductive ExtCall : Type :=
| CallRecognize (pcm : list byte) (languageCode : string)
| CallTranslate (text from to : string)
| CallSynthesize (premium : bool) (text language : string)
    (voiceProfile : VoiceAnalyzer.Profile).

(** The process: the shared [activeSessions] map, the processor objects
    (indexed by reference), the translations kept for the UI, and the log
    of external calls made so far. *)
Record World : Type := {
  activeSessions : gmap string Session;
  processors : gmap nat Processor;
  recentTranslations : gmap string (list TranslationData);
  extCalls : list ExtCall
}.

Definition set_activeSessions v (w : World) : World :=
  let 'Build_World _ b c d := w in Build_World v b c d.
Definition set_processors v (w : World) : World :=
  let 'Build_World a _ c d := w in Build_World a v c d.
Definition set_recentTranslations v (w : World) : World :=
  let 'Build_World a b _ d := w in Build_World a b v d.
Definition set_extCalls v (w : World) : World :=
  let 'Build_World a b c _ := w in Build_World a b c v.

(** Update of the processor object behind a reference. *)
Definition upd_proc (ref : nat) (f : Processor -> Processor) (w : World) : World :=
  set_processors (alter f ref (processors w)) w.

(** [activeSessions.get(roomId)]: only string keys are ever stored. *)
Definition sessions_get (roomId : JsVal) (m : gmap string Session) : option Session :=
  match roomId with
  | JStr s => m !! s
  | _ => None
  end.

(** Writing back the fields of the session object stored under [roomId]. *)
Definition sessions_update (roomId : JsVal) (f : Session -> Session)
    (m : gmap string Session) : gmap string Session :=
  match roomId with
  | JStr s => alter f s m
  | _ => m
  end.

Definition emptyWorld : World :=
  {| activeSessions := ∅; processors := ∅; recentTranslations := ∅; extCalls := [] |}.
(** ** Incoming stream events *)

Record CustomParameters : Type := {
  param_roomId : JsVal;
  param_userType : JsVal;
  param_myLanguage : JsVal
}.

(** The [start] member of a start event. *)
Record StartInfo : Type := {
  start_callSid : JsVal;
  customParameters : option CustomParameters
}.

(** A parsed message of the media stream; a media event carries the bytes
    [Buffer.from(data.media.payload, "base64")] yields. *)
Inductive StreamEvent : Type :=
| StartEvent (streamSid : JsVal) (start : option StartInfo)
| MediaEvent (payload : list byte)
| StopEvent
| MarkEvent
| OtherEvent (event : string).

(** ** External services *)

(** The services a processor calls.  Each call returns or throws.
    [recognize] gives [response.results] as the first-alternative
    transcripts of the results ([None] where a result has none);
    [synthesizeSpeech] gives [response.audioContent].  The request objects
    the processor builds are functions of the arguments listed here. *)
Record Ext : Type := {
  now : Z;
  recognize : list byte -> JsVal -> Exn (option (list (option string)));
  translate : string -> string -> string -> Exn string;
  synthesizeSpeech :
    bool -> string -> string -> VoiceAnalyzer.Profile -> Exn (option (list byte))
}.

(** ** String helpers *)

(** A text is kept as the bytes of its UTF-8 encoding.  [trim] and
    [length] of JavaScript work on code points and UTF-16 code units; the
    helpers below read them off the bytes. *)

Definition isSpace (c : ascii) : bool :=
  let n := nat_of_ascii c in
  ((9 <=? n) && (n <=? 13))%nat || (n =? 32)%nat.

(** The white space beyond ASCII that [trim] strips, as UTF-8: U+00A0 in
    two bytes; U+1680, U+2000 to U+200A, U+2028, U+2029, U+202F, U+205F,
    U+3000 and U+FEFF in three. *)
Definition wideSpace2 (a b : ascii) : bool :=
  ((nat_of_ascii a =? 194) && (nat_of_ascii b =? 160))%nat.

Definition wideSpace3 (a b c : ascii) : bool :=
  let a := nat_of_ascii a in
  let b := nat_of_ascii b in
  let c := nat_of_ascii c in
  ((a =? 225) && (b =? 154) && (c =? 128)
   || (a =? 226) && (b =? 128)
      && ((128 <=? c) && (c <=? 138) || (c =? 168) || (c =? 169) || (c =? 175))
   || (a =? 226) && (b =? 129) && (c =? 159)
   || (a =? 227) && (b =? 128) && (c =? 128)
   || (a =? 239) && (b =? 187) && (c =? 191))%nat.

Fixpoint trimStartChars (l : list ascii) : list ascii :=
  match l with
  | a :: r =>
      if isSpace a then trimStartChars r
      else
        match r with
        | b :: r2 =>
            if wideSpace2 a b then trimStartChars r2
            else
              match r2 with
              | c :: r3 => if wideSpace3 a b c then trimStartChars r3 else l
              | [] => l
              end
        | [] => l
        end
  | [] => []
  end.

(** The same from the end, on the reversed bytes. *)
Fixpoint trimEndChars (l : list ascii) : list ascii :=
  match l with
  | c :: r =>
      if isSpace c then trimEndChars r
      else
        match r with
        | b :: r2 =>
            if wideSpace2 b c then trimEndChars r2
            else
              match r2 with
              | a :: r3 => if wideSpace3 a b c then trimEndChars r3 else l
              | [] => l
              end
        | [] => l
        end
  | [] => []
  end.

(** [s.trim()] *)
Definition trim (s : string) : string :=
  string_of_list_ascii
    (rev (trimEndChars (rev (trimStartChars (list_ascii_of_string s))))).

(** The UTF-16 code units a byte of UTF-8 text stands for: none for a
    continuation byte, two for the first byte of a code point beyond
    U+FFFF, one otherwise. *)
Definition utf16Units (c : ascii) : nat :=
  let n := nat_of_ascii c in
  if ((128 <=? n) && (n <? 192))%nat then 0%nat
  else if (240 <=? n)%nat then 2%nat
  else 1%nat.

(** [s.length] *)
Fixpoint jsLength (s : string) : nat :=
  match s with
  | EmptyString => 0%nat
  | String c r => (utf16Units c + jsLength r)%nat
  end.

(** [s.split("-")[0]]: the text before the first dash. *)
Fixpoint beforeDash (s : string) : string :=
  match s with
  | EmptyString => EmptyString
  | String c r => if Ascii.eqb c "-" then EmptyString else String c (beforeDash r)
  end.

(** [v.split("-")[0]] on a field: a TypeError unless [v] is a string. *)
Definition splitDash0 (v : JsVal) : Exn string :=
  match v with
  | JStr s => Ok (beforeDash s)
  | _ => Throw "split is not a function"
  end.

(** [parts.join(" ")] *)
Fixpoint joinSpace (parts : list string) : string :=
  match parts with
  | [] => ""
  | [s] => s
  | s :: rest => s +:+ " " +:+ joinSpace rest
  end.

(** ** [AdvancedVoiceProcessor] (src/bidirectional-processor.js) *)

(** [registerConnection()] *)
Definition registerConnection (this : nat) (w : World) : World :=
  match processors w !! this with
  | None => w
  | Some p =>
      if negb (truthy (roomId p)) then w
      else
        match sessions_get (roomId p) (activeSessions w) with
        | None => w
        | Some _ =>
            let assign :=
              if strict_eq_str (userType p) "caller"
              then set_callerConnection (SlotRef this)
              else set_receiverConnection (SlotRef this) in
            set_activeSessions
              (sessions_update (roomId p) assign (activeSessions w)) w
        end
  end.

(** The assignments of [handleStart(data)], in the order of the source. *)
Definition handleStartFields (streamSid : JsVal) (start : option StartInfo)
    (p : Processor) : Processor :=
  let p := set_streamSid streamSid p in
  let p := set_callSid
             (match start with Some s => start_callSid s | None => JUndefined end) p in
  let p := set_userId (JStr (template (roomId p) +:+ "_" +:+ template (userType p))) p in
  let params :=
    match start with
    | Some {| customParameters := Some c |} => c
    | _ => {| param_roomId := JUndefined; param_userType := JUndefined;
              param_myLanguage := JUndefined |}
    end in
  let p := set_roomId (param_roomId params) p in
  let p := set_userType (param_userType params) p in
  let p := set_myLanguage (param_myLanguage params) p in
  p.

(** [handleStart(data)] *)
Definition handleStart (this : nat) (streamSid : JsVal) (start : option StartInfo)
    (w : World) : World :=
  let w := upd_proc this (handleStartFields streamSid start) w in
  match processors w !! this with
  | None => w
  | Some p =>
      if negb (truthy (myLanguage p)) then w else registerConnection this w
  end.

(** The part of [cleanup()] that resets the processor's own fields. *)
Definition cleanupFields (p : Processor) : Processor :=
  let p := set_audioBuffer [] p in
  let p := set_bufferDuration 0 p in
  let p := set_isProcessing false p in
  let p :=
    match silenceTimeout p with
    | Some handle => set_silenceTimeout None (clearTimeout handle p)
    | None => p
    end in
  if truthy (userId p)
  then set_voiceProfiles (VoiceAnalyzer.cleanup (userId p) (voiceProfiles p)) p
  else p.

(** [cleanup()] of src/bidirectional-processor.js. *)
Definition cleanup (this : nat) (w : World) : World :=
  let w := upd_proc this cleanupFields w in
  match processors w !! this with
  | None => w
  | Some p =>
      if truthy (roomId p) then
        match sessions_get (roomId p) (activeSessions w) with
        | Some _ =>
            let clear :=
              if strict_eq_str (userType p) "creator"
              then set_creatorConnection SlotNull
              else set_participantConnection SlotNull in
            set_activeSessions
              (sessions_update (roomId p) clear (activeSessions w)) w
        | None => w
        end
      else w
  end.

(** [cleanup()] of the sibling processor in src/unnamed/part_000 (its
    extra flag [isCurrentlyProcessing] is not part of this model). *)
Definition cleanup_part000 (this : nat) (w : World) : World :=
  let w := upd_proc this cleanupFields w in
  match processors w !! this with
  | None => w
  | Some p =>
      if truthy (roomId p) then
        match sessions_get (roomId p) (activeSessions w) with
        | Some _ =>
            let clear :=
              if strict_eq_str (userType p) "caller"
              then set_callerConnection SlotNull
              else set_receiverConnection SlotNull in
            set_activeSessions
              (sessions_update (roomId p) clear (activeSessions w)) w
        | None => w
        end
      else w
  end.

(** [handleStop(data)] *)
Definition handleStop (this : nat) (w : World) : World :=
  let w := upd_proc this (fun p =>
             match silenceTimeout p with
             | Some handle => clearTimeout handle p
             | None => p
             end) w in
  cleanup this w.

(** [handleMedia(data)] up to its [await]: the processor afterwards and
    whether [processBuffer()] is called now (otherwise the silence timer
    has been armed). *)
Definition handleMediaSync (payload : list byte) (p : Processor) : Processor * bool :=
  if negb (truthy (myLanguage p)) then (p, false)
  else
    let p := set_stats (inc_packetsReceived (stats p)) p in
    let p := set_audioBuffer (audioBuffer p ++ [payload]) p in
    let p := set_bufferDuration (bufferDuration p + 20) p in
    let p :=
      match silenceTimeout p with
      | Some handle => clearTimeout handle p
      | None => p
      end in
    if (maxBufferDuration p <=? bufferDuration p) && negb (isProcessing p)
    then (p, true)
    else
      let '(p, handle) := setTimeout p in
      (set_silenceTimeout (Some handle) p, false).

(** The test made by the silence-timer callback before it calls
    [processBuffer()]. *)
Definition silenceGuard (p : Processor) : bool :=
  (0 <? length (audioBuffer p))%nat
  && negb (isProcessing p)
  && (minBufferDuration p <=? bufferDuration p).

(** How a call of [processBuffer()] leaves its synchronous prefix. *)
Inductive Entry : Type :=
| NoOp
| Abandoned
| Run (mulawAudio : list byte) (bufferLengthMs : Z).

(** [processBuffer()] up to the [try] block. *)
Definition processBufferEnter (p : Processor) : Processor * Entry :=
  if (length (audioBuffer p) =? 0)%nat || negb (truthy (myLanguage p)) || isProcessing p
  then (p, NoOp)
  else
    let p := set_isProcessing true p in
    let p :=
      match silenceTimeout p with
      | Some handle => set_silenceTimeout None (clearTimeout handle p)
      | None => p
      end in
    let mulawAudio := concat (audioBuffer p) in
    let bufferLengthMs := bufferDuration p in
    let p := set_audioBuffer [] p in
    let p := set_bufferDuration 0 p in
    if bufferLengthMs <? minBufferDuration p
    then (set_isProcessing false p, Abandoned)
    else (p, Run mulawAudio bufferLengthMs).

(** [languageMap[language] || language] for the six tags of the map and
    for every tag that is no property of the map object.  (For a tag that
    names a property the object inherits, such as [constructor], the source
    hands that property on; such tags are passed through here.) *)
Definition languageCodeOf (language : JsVal) : JsVal :=
  match language with
  | JStr s =>
      if String.eqb s "en" then JStr "en-US"
      else if String.eqb s "te" then JStr "te-IN"
      else if String.eqb s "hi" then JStr "hi-IN"
      else if String.eqb s "es" then JStr "es-ES"
      else if String.eqb s "fr" then JStr "fr-FR"
      else if String.eqb s "de" then JStr "de-DE"
      else language
  | _ => language
  end.

Definition nonEmpty (o : option string) : option string :=
  match o with
  | Some s => if String.eqb s "" then None else Some s
  | None => None
  end.

(** [transcribeAudioEnhanced(audioBuffer, language)]: the transcript
    ([None] is [null]) and the external calls made.  The whole body is
    inside [try]; the handler returns [null]. *)
Definition transcribeAudioEnhanced (ext : Ext) (audioBuffer : list byte)
    (language : JsVal) : option string * list ExtCall :=
  let languageCode := languageCodeOf language in
  let result :=
    try_catch
      (response <-! recognize ext audioBuffer languageCode ;;
       match response with
       | None => Ok None
       | Some [] => Ok None
       | Some results => Ok (Some (joinSpace (omap nonEmpty results)))
       end)
      (fun _ => Ok None) in
  (match result with Ok t => t | Throw _ => None end,
   [CallRecognize audioBuffer (template languageCode)]).

(** [translateText(text, fromLanguage, toLanguage)]: the text returned and
    the external calls made.  The whole body is inside [try]; the handler
    returns [text]. *)
Definition translateText (ext : Ext) (text : string) (fromLanguage toLanguage : JsVal)
    : string * list ExtCall :=
  match splitDash0 fromLanguage, splitDash0 toLanguage with
  | Ok from, Ok to =>
      if String.eqb from to then (text, [])
      else
        (match translate ext text from to with
         | Ok translation => translation
         | Throw _ => text
         end, [CallTranslate text from to])
  | _, _ => (text, [])
  end.

(** [generateSimpleSpeech(text, language, voiceProfile)] *)
Definition generateSimpleSpeech (ext : Ext) (text : string) (language : JsVal)
    (voiceProfile : VoiceAnalyzer.Profile) : option (list byte) * list ExtCall :=
  match language with
  | JStr lang =>
      (match synthesizeSpeech ext false text lang voiceProfile with
       | Ok audioContent => audioContent
       | Throw _ => None
       end, [CallSynthesize false text lang voiceProfile])
  | _ => (None, [])
  end.

(** [generateHumanLikeSpeech(text, language, voiceProfile, originalText)]:
    any failure of the premium request falls back to the simple one. *)
Definition generateHumanLikeSpeech (ext : Ext) (text : string) (language : JsVal)
    (voiceProfile : VoiceAnalyzer.Profile) : option (list byte) * list ExtCall :=
  match language with
  | JStr lang =>
      match synthesizeSpeech ext true text lang voiceProfile with
      | Ok (Some audioContent) =>
          (Some audioContent, [CallSynthesize true text lang voiceProfile])
      | _ =>
          let '(audio, calls) := generateSimpleSpeech ext text language voiceProfile in
          (audio, CallSynthesize true text lang voiceProfile :: calls)
      end
  | _ => generateSimpleSpeech ext text language voiceProfile
  end.

(** The chunk loop of [sendToOtherUser]: [for (i; i < base64Audio.length;
    i += chunkSize)].  [fuel] bounds the number of iterations. *)
Fixpoint sendChunks (fuel chunkSize : nat) (base64Audio : string) (i : nat)
    (sid : JsVal) (sock : WebSocket) (chunkCount : nat)
    : WebSocket * Exn nat :=
  match fuel with
  | O => (sock, Ok chunkCount)
  | S fuel' =>
      if (i <? String.length base64Audio)%nat then
        let chunk := substring i chunkSize base64Audio in
        match ws_send (MediaMsg sid chunk) sock with
        | (sock', Ok _) =>
            sendChunks fuel' chunkSize base64Audio (i + chunkSize) sid sock'
                       (S chunkCount)
        | (sock', Throw e) => (sock', Throw e)
        end
      else (sock, Ok chunkCount)
  end.

(** What [sendToOtherUser] does to the peer's socket inside its [try]:
    the socket afterwards and whether the mark went out. *)
Definition sendAll (chunkSize : nat) (timeNow : Z) (audio : list byte)
    (sid : JsVal) (sock : WebSocket) : WebSocket * bool :=
  let base64Audio := Base64.encode audio in
  match sendChunks (S (String.length base64Audio)) chunkSize base64Audio 0 sid sock 0 with
  | (sock', Ok _) =>
      match ws_send (MarkMsg sid ("audio_complete_" +:+ pretty timeNow)) sock' with
      | (sock'', Ok _) => (sock'', true)
      | (sock'', Throw _) => (sock'', false)
      end
  | (sock', Throw _) => (sock', false)
  end.

(** [sendToOtherUser(audioBuffer, otherConnection)] with the chunk size of
    the source as a parameter. *)
Definition sendToOtherUserWith (chunkSize : nat) (timeNow : Z) (this : nat)
    (audioBuffer : option (list byte)) (otherConnection : Slot) (w : World) : World :=
  match audioBuffer, otherConnection with
  | Some audio, SlotRef other =>
      match processors w !! other with
      | Some oc =>
          match ws oc with
          | Some sock =>
              if negb (readyState sock =? 1) then w
              else
                let '(sock', done) := sendAll chunkSize timeNow audio (streamSid oc) sock in
                let w := upd_proc other (set_ws (Some sock')) w in
                if done
                then upd_proc this (fun p => set_stats (inc_audiosSent (stats p)) p) w
                else w
          | None => w
          end
      | None => w
      end
  | _, _ => w
  end.

(** [chunkSize = 160] in src/bidirectional-processor.js. *)
Definition sendToOtherUser := sendToOtherUserWith 160.

(** [addTranslation(roomId, userType, translationData)] of server.js,
    reached through [global.addTranslation]. *)
Definition addTranslation (room user : JsVal) (data : TranslationData) (w : World) : World :=
  let roomKey := template room +:+ ":" +:+ template user in
  let translations :=
    match recentTranslations w !! roomKey with
    | Some l => l
    | None => []
    end ++ [data] in
  let translations :=
    if (50 <? length translations)%nat then tail translations else translations in
  set_recentTranslations (<[roomKey := translations]> (recentTranslations w)) w.

Definition logCalls (calls : list ExtCall) (w : World) : World :=
  set_extCalls (extCalls w ++ calls) w.

(** The slot [processBuffer] reads for the other user. *)
Definition otherSlot (user : JsVal) (session : Session) : Slot :=
  if strict_eq_str user "caller"
  then receiverConnection session
  else callerConnection session.

(** The [try] block of [processBuffer()]: the world when the block is
    left, and whether it was left by an exception.  Every early [return]
    first clears [isProcessing]. *)
Definition pipelineBody (ext : Ext) (this : nat) (mulawAudio : list byte) (w : World)
    : World * Exn unit :=
  match processors w !! this with
  | None => (w, Ok tt)
  | Some p =>
      match Codec.decodeMulaw mulawAudio with
      | Throw e => (w, Throw e)
      | Ok pcmAudio =>
          let '(voiceProfile, cache) :=
            VoiceAnalyzer.analyzeVoice (now ext) pcmAudio (userId p) (voiceProfiles p) in
          let w := upd_proc this (set_voiceProfiles cache) w in
          let '(transcript, calls) := transcribeAudioEnhanced ext pcmAudio (myLanguage p) in
          let w := logCalls calls w in
          let abandon := upd_proc this (set_isProcessing false) in
          match nonEmpty transcript with
          | None => (abandon w, Ok tt)
          | Some transcript =>
              if (jsLength (trim transcript) <? 2)%nat then (abandon w, Ok tt)
              else
                let w := upd_proc this (fun q => set_stats (inc_transcriptions (stats q)) q) w in
                let w := addTranslation (roomId p) (userType p)
                           {| originalText := transcript; translatedText := transcript;
                              fromLanguage := myLanguage p; toLanguage := myLanguage p;
                              isIncoming := false; translationTimestamp := now ext |} w in
                match sessions_get (roomId p) (activeSessions w) with
                | None => (abandon w, Ok tt)
                | Some session =>
                    let otherConnection := otherSlot (userType p) session in
                    match otherConnection with
                    | SlotRef other =>
                        match processors w !! other with
                        | Some oc =>
                            if negb (truthy (myLanguage oc)) then (abandon w, Ok tt)
                            else
                              let otherUserLanguage := myLanguage oc in
                              let '(translatedText, calls) :=
                                translateText ext transcript (myLanguage p) otherUserLanguage in
                              let w := logCalls calls w in
                              let w := upd_proc this
                                         (fun q => set_stats (inc_translations (stats q)) q) w in
                              let w := addTranslation (roomId p) (userType oc)
                                         {| originalText := transcript;
                                            translatedText := translatedText;
                                            fromLanguage := myLanguage p;
                                            toLanguage := otherUserLanguage;
                                            isIncoming := true;
                                            translationTimestamp := now ext |} w in
                              let '(translatedAudio, calls) :=
                                generateHumanLikeSpeech ext translatedText otherUserLanguage
                                                        voiceProfile in
                              let w := logCalls calls w in
                              match translatedAudio with
                              | None => (abandon w, Ok tt)
                              | Some _ =>
                                  (sendToOtherUser (now ext) this translatedAudio
                                                   otherConnection w, Ok tt)
                              end
                        | None => (abandon w, Ok tt)
                        end
                    | _ => (abandon w, Ok tt)
                    end
                end
          end
      end
  end.

(** [processBuffer()]: the prefix, then [try { ... } catch { errors++ }
    finally { isProcessing = false }]. *)
Definition processBuffer (ext : Ext) (this : nat) (w : World) : World :=
  match processors w !! this with
  | None => w
  | Some p =>
      let '(p', entry) := processBufferEnter p in
      let w := upd_proc this (fun _ => p') w in
      match entry with
      | NoOp => w
      | Abandoned => w
      | Run mulawAudio _ =>
          let '(w, outcome) := pipelineBody ext this mulawAudio w in
          let w :=
            match outcome with
            | Ok _ => w
            | Throw _ => upd_proc this (fun q => set_stats (inc_errors (stats q)) q) w
            end in
          upd_proc this (set_isProcessing false) w
      end
  end.

(** [handleMedia(data)], run to completion. *)
Definition handleMedia (ext : Ext) (this : nat) (payload : list byte) (w : World) : World :=
  match processors w !! this with
  | None => w
  | Some p =>
      let '(p', flush) := handleMediaSync payload p in
      let w := upd_proc this (fun _ => p') w in
      if flush then processBuffer ext this w else w
  end.

(** The silence-timer callback armed by [handleMedia]. *)
Definition silenceCallback (ext : Ext) (this : nat) (w : World) : World :=
  match processors w !! this with
  | None => w
  | Some p => if silenceGuard p then processBuffer ext this w else w
  end.

(** [handleMessage(data)] *)
Definition handleMessage (ext : Ext) (this : nat) (data : StreamEvent) (w : World) : World :=
  match data with
  | StartEvent streamSid start => handleStart this streamSid start w
  | MediaEvent payload => handleMedia ext this payload w
  | StopEvent => handleStop this w
  | MarkEvent => w
  | OtherEvent _ => w
  end.
(** ** server.js: rooms and the WebSocket handlers *)

Module Server.

(** [POST /create-room] with the generated [roomId]. *)
Definition createRoom (room : string) (language : JsVal) (timeNow : Z) (w : World) : World :=
  set_activeSessions
    (<[room := {| creatorLanguage := language;
                  participantLanguage := JNull;
                  creatorConnection := SlotNull;
                  participantConnection := SlotNull;
                  createdAt := timeNow;
                  callerConnection := SlotUndefined;
                  receiverConnection := SlotUndefined |}]> (activeSessions w)) w.

(** [POST /join-room] (the HTTP response is not modelled). *)
Definition joinRoom (room language : JsVal) (w : World) : World :=
  match sessions_get room (activeSessions w) with
  | None => w
  | Some session =>
      if truthy (participantLanguage session) then w
      else set_activeSessions
             (sessions_update room (set_participantLanguage language) (activeSessions w)) w
  end.

(** The guarded [otherSide.ws.send(force-disconnect)] of the close and
    leave handlers; a throwing [send] is caught and logged. *)
Definition notifyOtherSide (reason : string) (otherSide : Slot) (w : World) : World :=
  match otherSide with
  | SlotRef other =>
      match processors w !! other with
      | Some oc =>
          match ws oc with
          | Some sock =>
              if readyState sock =? 1
              then upd_proc other
                     (set_ws (Some (fst (ws_send (ForceDisconnect reason) sock)))) w
              else w
          | None => w
          end
      | None => w
      end
  | _ => w
  end.

Definition sessions_delete (room : JsVal) (m : gmap string Session) : gmap string Session :=
  match room with
  | JStr s => delete s m
  | _ => m
  end.

(** [POST /leave-room] *)
Definition leaveRoom (room user : JsVal) (w : World) : World :=
  match sessions_get room (activeSessions w) with
  | None => w
  | Some session =>
      let otherSide :=
        if strict_eq_str user "caller"
        then participantConnection session
        else creatorConnection session in
      let w := notifyOtherSide "Other participant left the room" otherSide w in
      set_activeSessions (sessions_delete room (activeSessions w)) w
  end.

(** [wss.on("connection")]: a processor object is created for the socket. *)
Definition onConnection (sock : WebSocket) (w : World) : World * nat :=
  let ref := fresh (dom (processors w)) in
  (set_processors (<[ref := newProcessor sock]> (processors w)) w, ref).

(** The socket of a processor is CLOSED (3) when its close handler runs. *)
Definition markClosed (p : Processor) : Processor :=
  match ws p with
  | Some sock =>
      set_ws (Some {| readyState := 3; sent := sent sock;
                      sendBudget := sendBudget sock |}) p
  | None => p
  end.

(** [ws.on("close")] for the processor [this]. *)
Definition onClose (this : nat) (w : World) : World :=
  let w := upd_proc this markClosed w in
  match processors w !! this with
  | None => w
  | Some processor =>
      let room := roomId processor in
      let user := userType processor in
      if negb (truthy room) || negb (truthy user) then cleanup this w
      else
        match sessions_get room (activeSessions w) with
        | None => cleanup this w
        | Some session =>
            let otherSide :=
              if strict_eq_str user "caller"
              then participantConnection session
              else creatorConnection session in
            let w := notifyOtherSide "Other participant disconnected (ws close)"
                       otherSide w in
            let w := set_activeSessions (sessions_delete room (activeSessions w)) w in
            cleanup this w
        end
  end.

(** [ws.on("error")] *)
Definition onError (this : nat) (w : World) : World := cleanup this w.

(** What the process can be asked to do. *)
Inductive Request : Type :=
| CreateRoom (room : string) (language : JsVal) (timeNow : Z)
| JoinRoom (room language : JsVal)
| LeaveRoom (room user : JsVal)
| Connection (sock : WebSocket)
| SocketMessage (ref : nat) (ext : Ext) (data : StreamEvent)
| SilenceTimer (ref : nat) (ext : Ext)
| SocketClose (ref : nat)
| SocketError (ref : nat).

Definition handle (r : Request) (w : World) : World :=
  match r with
  | CreateRoom room language timeNow => createRoom room language timeNow w
  | JoinRoom room language => joinRoom room language w
  | LeaveRoom room user => leaveRoom room user w
  | Connection sock => fst (onConnection sock w)
  | SocketMessage ref ext data => handleMessage ext ref data w
  | SilenceTimer ref ext => silenceCallback ext ref w
  | SocketClose ref => onClose ref w
  | SocketError ref => onError ref w
  end.

Definition run (rs : list Request) (w : World) : World :=
  fold_left (fun w r => handle r w) rs w.

End Server.

(** ** One leg under interleaving *)

(** While the pipeline of a flush is suspended at an external call, the
    events of the same leg keep being handled.  A leg is its processor
    together with the segments whose pipeline is suspended ([inFlight]) and
    every segment ever handed to a pipeline ([launched]). *)
Record Leg : Type := {
  proc : Processor;
  inFlight : list (list byte);
  launched : list (list byte)
}.

(** The three ways a leg is torn down; each of them runs [cleanup()]. *)
Inductive Ending : Type :=
| ByStop      (* a stop event: [handleStop] *)
| ByClose     (* [ws.on("close")] *)
| ByError.    (* [ws.on("error")] *)

Inductive LegEvent : Type :=
| Frame (payload : list byte)   (* a media event *)
| TimerFires                    (* the silence-timer callback runs *)
| FlushTrigger                  (* [processBuffer()] is called *)
| PipelineDone (i : nat)        (* the suspended pipeline number [i] reaches its end *)
| Started (streamSid : JsVal) (start : option StartInfo)   (* a start event *)
| Ended (how : Ending).         (* a stop, close or error event *)

(** A call of [processBuffer()]: its prefix runs at once; a pipeline that
    starts stays in flight. *)
Definition flush (l : Leg) : Leg :=
  let '(p, entry) := processBufferEnter (proc l) in
  match entry with
  | Run mulawAudio _ =>
      {| proc := p; inFlight := inFlight l ++ [mulawAudio];
         launched := launched l ++ [mulawAudio] |}
  | _ => {| proc := p; inFlight := inFlight l; launched := launched l |}
  end.

(** What [cleanup()] does to the processor's own fields on each of the
    three paths; a pipeline that is suspended is not told. *)
Definition endLeg (how : Ending) (p : Processor) : Processor :=
  match how with
  | ByStop =>
      cleanupFields (match silenceTimeout p with
                     | Some handle => clearTimeout handle p
                     | None => p
                     end)
  | ByClose => cleanupFields (Server.markClosed p)
  | ByError => cleanupFields p
  end.

Definition legStep (e : LegEvent) (l : Leg) : Leg :=
  match e with
  | Frame payload =>
      let '(p, flushNow) := handleMediaSync payload (proc l) in
      let l' := {| proc := p; inFlight := inFlight l; launched := launched l |} in
      if flushNow then flush l' else l'
  | TimerFires => if silenceGuard (proc l) then flush l else l
  | FlushTrigger => flush l
  | PipelineDone i =>
      match inFlight l !! i with
      | None => l
      | Some _ =>
          {| proc := set_isProcessing false (proc l); inFlight := delete i (inFlight l);
             launched := launched l |}
      end
  | Started streamSid start =>
      {| proc := handleStartFields streamSid start (proc l); inFlight := inFlight l;
         launched := launched l |}
  | Ended how =>
      {| proc := endLeg how (proc l); inFlight := inFlight l; launched := launched l |}
  end.

Definition legRun (es : list LegEvent) (l : Leg) : Leg :=
  fold_left (fun l e => legStep e l) es l.

(** The payloads of the media events of a trace, in order. *)
Definition framesOf (es : list LegEvent) : list (list byte) :=
  omap (fun e => match e with Frame payload => Some payload | _ => None end) es.

Definition isDone (e : LegEvent) : bool :=
  match e with PipelineDone _ => true | _ => false end.

(** The events that tear the leg down. *)
Definition endsLeg (e : LegEvent) : bool :=
  match e with Ended _ => true | _ => false end.

(** Whether every teardown of the trace finds the leg with no pipeline in
    flight. *)
Fixpoint endsOnlyIdle (es : list LegEvent) (l : Leg) : bool :=
  match es with
  | [] => true
  | e :: rest =>
      (negb (endsLeg e) || (length (inFlight l) =? 0)%nat)
      && endsOnlyIdle rest (legStep e l)
  end.

(** The events that feed or trigger a flush. *)
Definition isTrigger (e : LegEvent) : bool :=
  match e with Frame _ | TimerFires | FlushTrigger => true | _ => false end.

(** The events of a leg that streams: media, timer callbacks and pipeline
    completions. *)
Definition isStreaming (e : LegEvent) : bool :=
  match e with Frame _ | TimerFires | PipelineDone _ => true | _ => false end.
(** ** server.js: the translation store read by the polling UI *)

(** [GET /get-translations] once the query string is parsed: [sinceTime]
    is [parseInt(since) || 0]; [None] is the 400 answer for a missing
    roomId. *)
Definition getTranslations (room user : JsVal) (sinceTime : Z) (w : World)
    : option (list TranslationData) :=
  if negb (truthy room) then None
  else
    let roomKey := template room +:+ ":" +:+ template user in
    let translations :=
      match recentTranslations w !! roomKey with
      | Some l => l
      | None => []
      end in
    Some (List.filter (fun t => sinceTime <? translationTimestamp t) translations).

(** The body of the one-minute [setInterval] that drops records older than
    ten minutes. *)
Definition sweepTranslations (timeNow : Z) (w : World) : World :=
  let maxAge := 600000 in
  set_recentTranslations
    (omap (fun translations =>
             let filtered :=
               List.filter (fun t => timeNow - translationTimestamp t <? maxAge)
                           translations in
             if (length filtered =? 0)%nat then None else Some filtered)
          (recentTranslations w))
    w.

(** The body of the five-minute [setInterval] that deletes rooms created
    more than an hour ago. *)
Definition sweepSessions (timeNow : Z) (w : World) : World :=
  let oneHour := 3600000 in
  set_activeSessions
    (omap (fun session =>
             if oneHour <? timeNow - createdAt session then None else Some session)
          (activeSessions w))
    w.

(** ** The process with its pipelines suspended at their awaits *)

(** [processBuffer] is an [async] function: it runs up to the first
    service call, is suspended there, and goes on when the service settles.
    Meanwhile the process handles other events.  The handlers above run a
    pipeline in one piece; here it is cut at the calls of the three
    services, which are the awaits that wait for I/O.  An [await] on the
    result of an [async] method that returned without waiting (the early
    [return text] of [translateText], [sendToOtherUser]) resumes before any
    other event is handled and is not a cut. *)
Module Async.

(** The local variables a pipeline keeps while it waits. *)
Inductive Stage : Type :=
| AwaitRecognize (voiceProfile : VoiceAnalyzer.Profile) (pcmAudio : list byte)
    (languageCode : JsVal)
| AwaitTranslate (voiceProfile : VoiceAnalyzer.Profile) (transcript from to : string)
    (otherConnection : nat) (otherUserLanguage : JsVal)
| AwaitPremium (voiceProfile : VoiceAnalyzer.Profile) (translatedText language : string)
    (otherConnection : nat)
| AwaitSimple (voiceProfile : VoiceAnalyzer.Profile) (text language : string)
    (otherConnection : nat).

(** How a service settles: it returns or throws. *)
Inductive Answer : Type :=
| Recognized (response : Exn (option (list (option string))))
| Translated (response : Exn string)
| Synthesized (response : Exn (option (list byte))).

(** The process and its suspended pipelines, each with the processor that
    runs it. *)
Record System : Type := {
  world : World;
  suspended : list (nat * Stage)
}.

(** The [finally] block of [processBuffer]. *)
Definition finally (this : nat) (w : World) : World :=
  upd_proc this (set_isProcessing false) w.

(** An early [this.isProcessing = false; return;], then [finally]. *)
Definition abandon (this : nat) (w : World) : World :=
  finally this (upd_proc this (set_isProcessing false) w).

(** [generateSimpleSpeech] up to its service call. *)
Definition callSimple (this : nat) (voiceProfile : VoiceAnalyzer.Profile) (text : string)
    (language : JsVal) (other : nat) (w : World) : World * option Stage :=
  match language with
  | JStr lang =>
      (logCalls [CallSynthesize false text lang voiceProfile] w,
       Some (AwaitSimple voiceProfile text lang other))
  | _ => (abandon this w, None)
  end.

(** [generateHumanLikeSpeech] up to its service call. *)
Definition callPremium (this : nat) (voiceProfile : VoiceAnalyzer.Profile) (text : string)
    (language : JsVal) (other : nat) (w : World) : World * option Stage :=
  match language with
  | JStr lang =>
      (logCalls [CallSynthesize true text lang voiceProfile] w,
       Some (AwaitPremium voiceProfile text lang other))
  | _ => callSimple this voiceProfile text language other w
  end.

(** From [if (!translatedAudio)] to the end of [processBuffer]. *)
Definition deliver (timeNow : Z) (this : nat) (translatedAudio : option (list byte))
    (other : nat) (w : World) : World * option Stage :=
  match translatedAudio with
  | None => (abandon this w, None)
  | Some _ =>
      (finally this (sendToOtherUser timeNow this translatedAudio (SlotRef other) w), None)
  end.

(** From the return of [translateText] to the speech request. *)
Definition continueTranslated (timeNow : Z) (this : nat)
    (voiceProfile : VoiceAnalyzer.Profile) (transcript : string) (other : nat)
    (otherUserLanguage : JsVal) (translatedText : string) (w : World)
    : World * option Stage :=
  match processors w !! this, processors w !! other with
  | Some p, Some oc =>
      let w := upd_proc this (fun q => set_stats (inc_translations (stats q)) q) w in
      let w := addTranslation (roomId p) (userType oc)
                 {| originalText := transcript; translatedText := translatedText;
                    fromLanguage := myLanguage p; toLanguage := otherUserLanguage;
                    isIncoming := true; translationTimestamp := timeNow |} w in
      callPremium this voiceProfile translatedText otherUserLanguage other w
  | _, _ => (finally this w, None)
  end.

(** From the return of [recognize] to the translation request. *)
Definition continueRecognized (timeNow : Z) (this : nat)
    (voiceProfile : VoiceAnalyzer.Profile)
    (response : Exn (option (list (option string)))) (w : World)
    : World * option Stage :=
  let transcript :=
    match response with
    | Ok (Some (r :: results)) => Some (joinSpace (omap nonEmpty (r :: results)))
    | _ => None
    end in
  match processors w !! this with
  | None => (finally this w, None)
  | Some p =>
      match nonEmpty transcript with
      | None => (abandon this w, None)
      | Some transcript =>
          if (jsLength (trim transcript) <? 2)%nat then (abandon this w, None)
          else
            let w := upd_proc this (fun q => set_stats (inc_transcriptions (stats q)) q) w in
            let w := addTranslation (roomId p) (userType p)
                       {| originalText := transcript; translatedText := transcript;
                          fromLanguage := myLanguage p; toLanguage := myLanguage p;
                          isIncoming := false; translationTimestamp := timeNow |} w in
            match sessions_get (roomId p) (activeSessions w) with
            | None => (abandon this w, None)
            | Some session =>
                match otherSlot (userType p) session with
                | SlotRef other =>
                    match processors w !! other with
                    | Some oc =>
                        if negb (truthy (myLanguage oc)) then (abandon this w, None)
                        else
                          let otherUserLanguage := myLanguage oc in
                          match splitDash0 (myLanguage p), splitDash0 otherUserLanguage with
                          | Ok from, Ok to =>
                              if String.eqb from to
                              then continueTranslated timeNow this voiceProfile transcript
                                     other otherUserLanguage transcript w
                              else (logCalls [CallTranslate transcript from to] w,
                                    Some (AwaitTranslate voiceProfile transcript from to
                                            other otherUserLanguage))
                          | _, _ =>
                              continueTranslated timeNow this voiceProfile transcript
                                other otherUserLanguage transcript w
                          end
                    | None => (abandon this w, None)
                    end
                | _ => (abandon this w, None)
                end
            end
      end
  end.

(** The [try] block of [processBuffer] up to the recognition request. *)
Definition begin (timeNow : Z) (this : nat) (mulawAudio : list byte) (w : World)
    : World * option Stage :=
  match processors w !! this with
  | None => (finally this w, None)
  | Some p =>
      match Codec.decodeMulaw mulawAudio with
      | Throw _ =>
          (finally this (upd_proc this (fun q => set_stats (inc_errors (stats q)) q) w),
           None)
      | Ok pcmAudio =>
          let '(voiceProfile, cache) :=
            VoiceAnalyzer.analyzeVoice timeNow pcmAudio (userId p) (voiceProfiles p) in
          let w := upd_proc this (set_voiceProfiles cache) w in
          let languageCode := languageCodeOf (myLanguage p) in
          (logCalls [CallRecognize pcmAudio (template languageCode)] w,
           Some (AwaitRecognize voiceProfile pcmAudio languageCode))
      end
  end.

(** A suspended pipeline goes on with the answer of the service it waits
    for, up to its next service call or its end. *)
Definition resume (timeNow : Z) (this : nat) (stage : Stage) (answer : Answer)
    (w : World) : option (World * option Stage) :=
  match stage, answer with
  | AwaitRecognize voiceProfile _ _, Recognized response =>
      Some (continueRecognized timeNow this voiceProfile response w)
  | AwaitTranslate voiceProfile transcript _ _ other otherUserLanguage,
    Translated response =>
      Some (continueTranslated timeNow this voiceProfile transcript other
              otherUserLanguage
              (match response with Ok translation => translation | Throw _ => transcript end)
              w)
  | AwaitPremium voiceProfile text lang other, Synthesized response =>
      Some (match response with
            | Ok (Some audioContent) => deliver timeNow this (Some audioContent) other w
            | _ => callSimple this voiceProfile text (JStr lang) other w
            end)
  | AwaitSimple _ _ _ other, Synthesized response =>
      Some (deliver timeNow this
              (match response with Ok audioContent => audioContent | Throw _ => None end)
              other w)
  | _, _ => None
  end.

(** [processBuffer()] up to its first service call. *)
Definition processBuffer (timeNow : Z) (this : nat) (s : System) : System :=
  match processors (world s) !! this with
  | None => s
  | Some p =>
      let '(p', entry) := processBufferEnter p in
      let w := upd_proc this (fun _ => p') (world s) in
      match entry with
      | Run mulawAudio _ =>
          let '(w, stage) := begin timeNow this mulawAudio w in
          {| world := w;
             suspended := suspended s ++ match stage with
                                         | Some st => [(this, st)]
                                         | None => []
                                         end |}
      | _ => {| world := w; suspended := suspended s |}
      end
  end.

(** What happens to the process.  Of the [Ext] of a media message or a
    timer callback only the clock is read: the services answer later, by
    [Settles]. *)
Inductive Event : Type :=
| Handled (r : Server.Request)
| MalformedMedia (ref : nat)     (* a media event without a payload *)
| Settles (i : nat) (timeNow : Z) (answer : Answer)
                                 (* the service awaited by pipeline [i] settles *)
| TranslationSweep (timeNow : Z)
| SessionSweep (timeNow : Z).

Definition onWorld (f : World -> World) (s : System) : System :=
  {| world := f (world s); suspended := suspended s |}.

Definition step (e : Event) (s : System) : System :=
  match e with
  | Handled (Server.SocketMessage ref ext (MediaEvent payload)) =>
      match processors (world s) !! ref with
      | None => s
      | Some p =>
          let '(p', flushNow) := handleMediaSync payload p in
          let s' := onWorld (upd_proc ref (fun _ => p')) s in
          if flushNow then processBuffer (now ext) ref s' else s'
      end
  | Handled (Server.SilenceTimer ref ext) =>
      match processors (world s) !! ref with
      | None => s
      | Some p => if silenceGuard p then processBuffer (now ext) ref s else s
      end
  | Handled r => onWorld (Server.handle r) s
  | MalformedMedia ref =>
      (* [packetsReceived++], then [data.media.payload] throws; the message
         handler of the server catches it *)
      onWorld (upd_proc ref (fun p =>
                 if negb (truthy (myLanguage p)) then p
                 else set_stats (inc_packetsReceived (stats p)) p)) s
  | Settles i timeNow answer =>
      match suspended s !! i with
      | None => s
      | Some (this, stage) =>
          match resume timeNow this stage answer (world s) with
          | None => s
          | Some (w, Some next) =>
              {| world := w; suspended := <[i := (this, next)]> (suspended s) |}
          | Some (w, None) =>
              {| world := w; suspended := delete i (suspended s) |}
          end
      end
  | TranslationSweep timeNow => onWorld (sweepTranslations timeNow) s
  | SessionSweep timeNow => onWorld (sweepSessions timeNow) s
  end.

Definition run (es : list Event) (s : System) : System :=
  fold_left (fun s e => step e s) es s.

Definition start : System := {| world := emptyWorld; suspended := [] |}.

(** The states the process reaches from its start. *)
Definition reachable (s : System) : Prop := exists es, s = run es start.

(** The answer a service described by [ext] gives to a suspended
    pipeline. *)
Definition answerOf (ext : Ext) (stage : Stage) : Answer :=
  match stage with
  | AwaitRecognize _ pcmAudio languageCode =>
      Recognized (recognize ext pcmAudio languageCode)
  | AwaitTranslate _ text from to _ _ => Translated (translate ext text from to)
  | AwaitPremium voiceProfile text lang _ =>
      Synthesized (synthesizeSpeech ext true text lang voiceProfile)
  | AwaitSimple voiceProfile text lang _ =>
      Synthesized (synthesizeSpeech ext false text lang voiceProfile)
  end.

(** A pipeline answered by [ext] at once at each of its calls, with nothing
    else handled in between. *)
Fixpoint drain (fuel : nat) (ext : Ext) (this : nat) (r : World * option Stage) : World :=
  match r with
  | (w, None) => w
  | (w, Some stage) =>
      match fuel with
      | O => w
      | S fuel' =>
          match resume (now ext) this stage (answerOf ext stage) w with
          | Some r' => drain fuel' ext this r'
          | None => w
          end
      end
  end.

End Async.

(** *** Pipelines per processor *)

(** Whether processor [ref] is busy, if it exists. *)
Definition busy (w : World) (ref : nat) : option bool :=
  isProcessing <$> processors w !! ref.

(** What a piece of the pipeline of processor [this] does to the busy
    flags: none changes while the pipeline goes on, and its own processor
    is idle when it has ended. *)
Definition flagsAfter (this : nat) (w : World) (r : World * option Async.Stage) : Prop :=
  forall ref,
    busy (fst r) ref =
    if decide (ref = this)
    then match snd r with
         | Some _ => busy w ref
         | None => (fun _ => false) <$> busy w ref
         end
    else busy w ref.

Definition ownedBy (ref : nat) (x : nat * Async.Stage) : option Async.Stage :=
  if (fst x =? ref)%nat then Some (snd x) else None.

(** The suspended pipelines that processor [ref] runs. *)
Definition pipelinesOf (ref : nat) (s : Async.System) : list Async.Stage :=
  omap (ownedBy ref) (Async.suspended s).

(** The processor a stop, close or error event tears down. *)
Definition tornDown (e : Async.Event) : option nat :=
  match e with
  | Async.Handled (Server.SocketMessage ref _ StopEvent) => Some ref
  | Async.Handled (Server.SocketClose ref) => Some ref
  | Async.Handled (Server.SocketError ref) => Some ref
  | _ => None
  end.

(** Whether every teardown of the trace finds its processor without a
    suspended pipeline. *)
Fixpoint quiet (es : list Async.Event) (s : Async.System) : bool :=
  match es with
  | [] => true
  | e :: rest =>
      match tornDown e with
      | Some ref => (length (pipelinesOf ref s) =? 0)%nat
      | None => true
      end && quiet rest (Async.step e s)
  end.

(** Each processor has a suspended pipeline exactly while it is busy, and
    never more than one. *)
Definition oneFlight (s : Async.System) : Prop :=
  forall ref,
    length (pipelinesOf ref s) =
    match busy (Async.world s) ref with
    | Some true => 1%nat
    | _ => 0%nat
    end.

(** ** Concrete calls used to exercise the model *)

Module Scenario.

Definition openSocket : WebSocket :=
  {| readyState := 1; sent := []; sendBudget := None |}.

(** A start event as Twilio sends it for the stream parameters set by the
    TwiML route. *)
Definition startEvent (room user language : string) : StreamEvent :=
  StartEvent (JStr "MZ0001")
    (Some {| start_callSid := JStr "CA0001";
             customParameters :=
               Some {| param_roomId := JStr room;
                       param_userType := JStr user;
                       param_myLanguage := JStr language |} |}).

(** External services that are all down. *)
Definition servicesDown : Ext :=
  {| now := 1700000000000;
     recognize := fun _ _ => Throw "UNAVAILABLE";
     translate := fun _ _ _ => Throw "UNAVAILABLE";
     synthesizeSpeech := fun _ _ _ _ => Throw "UNAVAILABLE" |}.

(** One connection that has just been accepted. *)
Definition oneConnection : World :=
  Server.run [Server.Connection openSocket] emptyWorld.

(** A room with both legs connected and started: processor 0 is the
    caller, processor 1 the receiver. *)
Definition twoLegs : World :=
  Server.run
    [Server.CreateRoom "room1" (JStr "en") 1700000000000;
     Server.JoinRoom (JStr "room1") (JStr "es");
     Server.Connection openSocket;
     Server.Connection openSocket;
     Server.SocketMessage 0 servicesDown (startEvent "room1" "caller" "en");
     Server.SocketMessage 1 servicesDown (startEvent "room1" "receiver" "es")]
    emptyWorld.

(** One 20 ms frame of mu-law silence. *)
Definition frame : list byte := repeat xff 160.

(** The caller has streamed 25 frames (500 ms); nothing was flushed yet. *)
Definition halfSecond : World :=
  Server.run (repeat (Server.SocketMessage 0 servicesDown (MediaEvent frame)) 25) twoLegs.

(** The caller's leg in that state, with no pipeline in flight. *)
Definition callerLeg : Leg :=
  {| proc := default (newProcessor openSocket) (processors halfSecond !! 0%nat);
     inFlight := []; launched := [] |}.

(** The caller streamed one frame, then a second start event without
    stream parameters arrived on the same socket. *)
Definition languageLost : World :=
  Server.run
    [Server.SocketMessage 0 servicesDown (MediaEvent frame);
     Server.SocketMessage 0 servicesDown (StartEvent (JStr "MZ0001") None)]
    twoLegs.

(** Two samples of PCM audio, 4096 and -4096. *)
Definition twoSamples : list byte := [x00; x10; x00; xf0].

(** The speaker key of the caller of room1 as it should be. *)
Definition speaker : JsVal := JStr "room1_caller".

(** A cache holding one analysis of [twoSamples] for [speaker]. *)
Definition oneAnalysis : gmap JsVal VoiceAnalyzer.Profile :=
  snd (VoiceAnalyzer.analyzeVoice 1700000000000 twoSamples speaker ∅).

(** What a detector measured, for a buffer on which it does not throw. *)
Definition measured (r : Exn float) : float :=
  match r with Ok x => x | Throw _ => PrimFloat.nan end.

(** One record of the polling store. *)
Definition greeting (time : Z) : TranslationData :=
  {| originalText := "good morning"; translatedText := "buenos dias";
     fromLanguage := JStr "en"; toLanguage := JStr "es";
     isIncoming := true; translationTimestamp := time |}.

(** Two accepted connections with open sockets. *)
Definition oneConnectionPair : World :=
  Server.run [Server.Connection openSocket; Server.Connection openSocket] emptyWorld.

(** A socket whose transport accepts one more send. *)
Definition lastSend : WebSocket :=
  {| readyState := 1; sent := []; sendBudget := Some 1%nat |}.

(** Two accepted connections; the second one's socket is about to fail. *)
Definition failingPeer : World :=
  Server.run [Server.Connection openSocket; Server.Connection lastSend] emptyWorld.


(** The call of [halfSecond] in the process with suspended pipelines: the
    caller paused, the silence timer fired and the pipeline of the first
    half second waits for the recognizer; one more frame arrived
    meanwhile; then the recognizer answered, and the pipeline waits for the
    translation. *)
Definition heardEvents : list Async.Event :=
  List.map Async.Handled
    ([Server.CreateRoom "room1" (JStr "en") 1700000000000;
      Server.JoinRoom (JStr "room1") (JStr "es");
      Server.Connection openSocket;
      Server.Connection openSocket;
      Server.SocketMessage 0 servicesDown (startEvent "room1" "caller" "en");
      Server.SocketMessage 1 servicesDown (startEvent "room1" "receiver" "es")]
     ++ repeat (Server.SocketMessage 0 servicesDown (MediaEvent frame)) 25
     ++ [Server.SilenceTimer 0 servicesDown;
         Server.SocketMessage 0 servicesDown (MediaEvent frame)])
  ++ [Async.Settles 0 1700000001000
        (Async.Recognized (Ok (Some [Some "good morning"])))].

Definition heard : Async.System := Async.run heardEvents Async.start.

End Scenario.
(** ** Notions used in the statements *)

(** Every byte value, in increasing order. *)
Definition all_bytes : list byte :=
  List.map byte_of_Z (List.map Z.of_nat (seq 0 256)).

(** The fields of a processor that the pipeline of a flush (the [try]
    block of [processBuffer] and what it calls) never writes, with the
    error counter. *)
Definition stableView (p : Processor) :=
  (roomId p, userType p, myLanguage p, streamSid p, callSid p, userId p,
   audioBuffer p, bufferDuration p, maxBufferDuration p, minBufferDuration p,
   silenceTimeout p, pendingTimers p, nextTimer p, errors (stats p)).

(** The messages a processor's socket has accepted. *)
Definition outbox (p : Processor) : list Message :=
  match ws p with
  | Some sock => sent sock
  | None => []
  end.

Definition isRef (s : Slot) : bool :=
  match s with SlotRef _ => true | _ => false end.

(** No session holds a processor in the two slots the room routes create
    ([creatorConnection], [participantConnection]). *)
Definition routeSlotsEmpty (w : World) : Prop :=
  forall key s, activeSessions w !! key = Some s ->
    isRef (creatorConnection s) = false /\ isRef (participantConnection s) = false.

(** [ceil(a / b)] on natural numbers. *)
Definition ceilDiv (a b : nat) : nat := ((a + b - 1) / b)%nat.

(** The leg has no pipeline in flight exactly when it is not busy, and
    never more than one. *)
Definition singleFlight (l : Leg) : Prop :=
  (isProcessing (proc l) = true -> length (inFlight l) = 1%nat) /\
  (isProcessing (proc l) = false -> inFlight l = []).

(** Whether a string contains a dash. *)
Fixpoint hasDash (s : string) : bool :=
  match s with
  | EmptyString => false
  | String c r => Ascii.eqb c "-" || hasDash r
  end.

(** The first [n] slices of [chunkSize] characters of [s] from index [i]
    on: [s.slice(i, i + chunkSize)], [s.slice(i + chunkSize, ...)], ... *)
Fixpoint slices (n chunkSize : nat) (s : string) (i : nat) : list string :=
  match n with
  | O => []
  | S n' => substring i chunkSize s :: slices n' chunkSize s (i + chunkSize)
  end.

(** ** Further notions *)

(** The integral pitch adjustments -20 .. 20 as numbers, with the
    negative zero [Math.round] gives for small negative arguments. *)
Definition pitchLevels : list float :=
  List.map (fun k => JsNum.of_Z (Z.of_nat k - 20)) (seq 0 41) ++ [(-0)%float].

Definition float_in (x : float) (l : list float) : bool :=
  existsb (fun y => PrimFloat.Leibniz.eqb x y) l.

(** Caches a [VoiceAnalyzer] holds when it is only driven through
    [analyzeVoice] and [cleanup], as the processor does. *)
Inductive analyzed : gmap JsVal VoiceAnalyzer.Profile -> Prop :=
| analyzed_new : analyzed ∅
| analyzed_voice now pcm userId vp :
    analyzed vp -> analyzed (snd (VoiceAnalyzer.analyzeVoice now pcm userId vp))
| analyzed_cleanup userId vp :
    analyzed vp -> analyzed (VoiceAnalyzer.cleanup userId vp).

(** The language a start event carries ([undefined] when the stream
    parameters are missing). *)
Definition startLanguage (start : option StartInfo) : JsVal :=
  match start with
  | Some {| customParameters := Some c |} => param_myLanguage c
  | _ => JUndefined
  end.

(** The start event of a leg with its stream parameters. *)
Definition startOf (callSid room user language : JsVal) : option StartInfo :=
  Some {| start_callSid := callSid;
          customParameters :=
            Some {| param_roomId := room; param_userType := user;
                    param_myLanguage := language |} |}.

(** A processor has at most one pending silence timer, the one its
    [silenceTimeout] field refers to. *)
Definition timersOk (p : Processor) : Prop :=
  pendingTimers p = [] \/
  exists handle, silenceTimeout p = Some handle /\ pendingTimers p = [handle].

(** What every processor satisfies between two events. *)
Definition bufferOk (p : Processor) : Prop :=
  bufferDuration p = 20 * Z.of_nat (length (audioBuffer p)) /\
  timersOk p /\
  errors (stats p) = 0 /\
  maxBufferDuration p = 2000 /\ minBufferDuration p = 500.

Definition allProcessors (P : Processor -> Prop) (w : World) : Prop :=
  forall ref p, processors w !! ref = Some p -> P p.

(** Every list kept for the polling UI holds between 1 and 50 records. *)
Definition translationsCapped (w : World) : Prop :=
  forall key l, recentTranslations w !! key = Some l ->
    (0 < length l <= 50)%nat.

(** The payloads of the media messages of a list of messages, in order. *)
Definition mediaPayloads (l : list Message) : list string :=
  omap (fun m => match m with MediaMsg _ payload => Some payload | _ => None end) l.

(** The chunks of a text put back together. *)
Definition joinChunks (l : list string) : string :=
  fold_right String.append EmptyString l.

(** All the audio a leg holds: what was handed to a pipeline, then what is
    still buffered. *)
Definition audioOf (l : Leg) : list byte :=
  concat (launched l) ++ concat (audioBuffer (proc l)).

(** A leg that buffers: its language is set and its thresholds are in
    order. *)
Definition legReady (l : Leg) : Prop :=
  truthy (myLanguage (proc l)) = true /\
  minBufferDuration (proc l) <= maxBufferDuration (proc l).
(* ===================================================================== *)
(** * Part II: theorems                                                   *)
(* ===================================================================== *)

(** Splitting a conjunction without touching its members. *)
Ltac split_ands := repeat match goal with |- _ /\ _ => split end.

(** ** AudioCodec *)

Section CodecFacts.

Import Codec.

Lemma all_bytes_nth (b : byte) :
  nth (N.to_nat (Byte.to_N b)) all_bytes x00 = b.
Proof. destruct b; vm_compute; reflexivity. Qed.

Lemma all_bytes_complete (b : byte) : In b all_bytes.
Proof.
  rewrite <- (all_bytes_nth b). apply nth_In.
  destruct b; vm_compute; lia.
Qed.

Lemma forall_bytes (P : byte -> bool) :
  forallb P all_bytes = true -> forall b, P b = true.
Proof.
  intros H b. rewrite forallb_forall in H. apply H, all_bytes_complete.
Qed.

(** The reference expansion at the corners of the G.711 table. *)
Example ulaw2linear_known_points :
  ulaw2linear 0x00 = -32124 /\ ulaw2linear 0x01 = -31100 /\
  ulaw2linear 0x7F = 0 /\ ulaw2linear 0x80 = 32124 /\
  ulaw2linear 0xFE = 8 /\ ulaw2linear 0xFF = 0.
Proof. repeat split; reflexivity. Qed.

(** Every decoded sample fits the 16-bit write, so the loop never throws. *)
Lemma mulawToLinear_in_int16 (b : byte) :
  -32768 <= mulawToLinear (byte_val b) <= 32767.
Proof.
  pose proof (forall_bytes (fun b => (-32768 <=? mulawToLinear (byte_val b)) &&
                        (mulawToLinear (byte_val b) <=? 32767))
    ltac:(vm_compute; reflexivity) b) as H.
  cbv beta in H. apply andb_true_iff in H as [H1 H2].
  apply Z.leb_le in H1, H2. lia.
Qed.

Lemma writeInt16LE_ok (b : byte) :
  writeInt16LE (mulawToLinear (byte_val b)) =
  Ok [byte_of_Z (mulawToLinear (byte_val b));
      byte_of_Z (Z.shiftr (mulawToLinear (byte_val b)) 8)].
Proof.
  pose proof (mulawToLinear_in_int16 b) as [Hlo Hhi].
  unfold writeInt16LE.
  destruct (Z.ltb_spec (mulawToLinear (byte_val b)) (-32768)); [lia|].
  destruct (Z.ltb_spec 32767 (mulawToLinear (byte_val b))); [lia|].
  reflexivity.
Qed.

Lemma decodeMulaw_total (buf : list byte) :
  exists pcm, decodeMulaw buf = Ok pcm /\ length pcm = (2 * length buf)%nat.
Proof.
  unfold decodeMulaw. induction buf as [|b rest [pcm [IH Hlen]]]; cbn [decodeLoop].
  - exists []. split; reflexivity.
  - rewrite writeInt16LE_ok, IH. cbn [bindE].
    eexists. split; [reflexivity|]. cbn [length app]. lia.
Qed.

(** The two bytes written for a sample read back as that sample. *)
Lemma samplesOf_write (b : byte) (tail : list byte) :
  samplesOf (byte_of_Z (mulawToLinear (byte_val b))
             :: byte_of_Z (Z.shiftr (mulawToLinear (byte_val b)) 8) :: tail)
  = mulawToLinear (byte_val b) :: samplesOf tail.
Proof.
  cbn [samplesOf]. unfold int16_of_bytes. f_equal.
  pose proof (forall_bytes (fun b =>
     let v := mulawToLinear (byte_val b) in
     let u := byte_val (byte_of_Z v) + 256 * byte_val (byte_of_Z (Z.shiftr v 8)) in
     (if 32768 <=? u then u - 65536 else u) =? v)
    ltac:(vm_compute; reflexivity) b) as H.
  cbv beta zeta in H. apply Z.eqb_eq in H. exact H.
Qed.

Lemma decodeMulaw_samples (buf : list byte) (pcm : list byte) :
  decodeMulaw buf = Ok pcm ->
  samplesOf pcm = List.map (fun b => mulawToLinear (byte_val b)) buf.
Proof.
  unfold decodeMulaw. revert pcm.
  induction buf as [|b rest IH]; cbn [decodeLoop]; intros pcm H.
  - inversion H. reflexivity.
  - rewrite writeInt16LE_ok in H. cbn [bindE] in H.
    destruct (decodeLoop rest) as [tail|e] eqn:E; cbn [bindE] in H; [|discriminate].
    inversion H; subst. cbn [app List.map]. rewrite samplesOf_write.
    f_equal. apply IH. reflexivity.
Qed.

(** How far the decoder is from the reference, byte by byte: the bias is
    never taken off, and it is added once more in segment 0. *)
Lemma mulawToLinear_offset (b : byte) :
  let v := mulawToLinear (byte_val b) in
  let r := ulaw2linear (byte_val b) in
  let seg0 := 0x70 <=? Z.land (byte_val b) 0x70 in
  if 0x80 <=? byte_val b
  then v = r + (if seg0 then 264 else 132)
  else v = r - (if seg0 then 264 else 132).
Proof.
  pose proof (forall_bytes (fun b =>
     let v := mulawToLinear (byte_val b) in
     let r := ulaw2linear (byte_val b) in
     let seg0 := 0x70 <=? Z.land (byte_val b) 0x70 in
     if 0x80 <=? byte_val b
     then v =? r + (if seg0 then 264 else 132)
     else v =? r - (if seg0 then 264 else 132))
    ltac:(vm_compute; reflexivity) b) as H.
  cbv beta zeta in H |- *.
  destruct (0x80 <=? byte_val b); apply Z.eqb_eq in H; exact H.
Qed.

(** No byte at all is decoded to its reference value. *)
Lemma mulawToLinear_never_reference (b : byte) :
  mulawToLinear (byte_val b) <> ulaw2linear (byte_val b).
Proof.
  pose proof (mulawToLinear_offset b) as H. cbv zeta in H.
  destruct (0x80 <=? byte_val b), (0x70 <=? Z.land (byte_val b) 0x70); lia.
Qed.

(** C1 (code defect).  The claim asks that [decodeMulaw] agree with the
    standard mu-law reference table on every byte.  At the silence byte
    [0xFF] the reference value is 0 while [mulawToLinear] returns 264, and
    the buffer [decodeMulaw] writes for it holds the sample 264 (bytes
    [0x08 0x01]); at byte [0x00] the reference is -32124 and the decoder
    returns -32256. *)
Theorem C1_decodeMulaw_silence_byte_off_reference :
  mulawToLinear 0xFF = 264 /\ ulaw2linear 0xFF = 0 /\
  mulawToLinear 0x00 = -32256 /\ ulaw2linear 0x00 = -32124 /\
  decodeMulaw [xff] = Ok [x08; x01] /\
  (forall pcm, decodeMulaw [xff] = Ok pcm ->
     samplesOf pcm <> referenceSamples [xff]).
Proof.
  split_ands; try reflexivity.
  intros pcm H. vm_compute in H. inversion H; subst. vm_compute. discriminate.
Qed.

End CodecFacts.
(** ** Store of processors: basic facts *)

Section StoreFacts.

Lemma processors_upd_proc ref f w :
  processors (upd_proc ref f w) = alter f ref (processors w).
Proof. destruct w; reflexivity. Qed.

Lemma activeSessions_upd_proc ref f w :
  activeSessions (upd_proc ref f w) = activeSessions w.
Proof. destruct w; reflexivity. Qed.

Lemma extCalls_upd_proc ref f w : extCalls (upd_proc ref f w) = extCalls w.
Proof. destruct w; reflexivity. Qed.

Lemma processors_set_activeSessions m w :
  processors (set_activeSessions m w) = processors w.
Proof. destruct w; reflexivity. Qed.

Lemma activeSessions_set_activeSessions m w :
  activeSessions (set_activeSessions m w) = m.
Proof. destruct w; reflexivity. Qed.

Lemma extCalls_set_activeSessions m w :
  extCalls (set_activeSessions m w) = extCalls w.
Proof. destruct w; reflexivity. Qed.

Lemma lookup_upd_proc_eq ref f w :
  processors (upd_proc ref f w) !! ref = f <$> processors w !! ref.
Proof. rewrite processors_upd_proc. apply lookup_alter_eq. Qed.

Lemma lookup_upd_proc_ne ref ref' f w :
  ref <> ref' -> processors (upd_proc ref f w) !! ref' = processors w !! ref'.
Proof. intros H. rewrite processors_upd_proc. by apply lookup_alter_ne. Qed.

Lemma sessions_get_update_eq room f (m : gmap string Session) :
  sessions_get room (sessions_update room f m) = f <$> sessions_get room m.
Proof. destruct room; try reflexivity. cbn. apply lookup_alter_eq. Qed.

Lemma lookup_sessions_update room f (m : gmap string Session) key :
  sessions_update room f m !! key =
  if decide (room = JStr key) then f <$> m !! key else m !! key.
Proof.
  destruct room as [| |s]; cbn; try (case_decide; [discriminate|reflexivity]).
  rewrite lookup_alter. repeat case_decide; congruence.
Qed.

End StoreFacts.

(** ** Registration, detach and peer-loss *)

Section RegistryFacts.

Lemma registerConnection_processors this w :
  processors (registerConnection this w) = processors w.
Proof.
  unfold registerConnection.
  destruct (processors w !! this) as [p|]; [|reflexivity].
  destruct (truthy (roomId p)); [|reflexivity]. cbn.
  destruct (sessions_get (roomId p) (activeSessions w)); [|reflexivity].
  apply processors_set_activeSessions.
Qed.

Lemma handleStartFields_userId streamSid start p :
  userId (handleStartFields streamSid start p) =
  JStr (template (roomId p) +:+ "_" +:+ template (userType p)).
Proof. destruct p, start as [[? [?|]]|]; reflexivity. Qed.

Lemma handleStartFields_params streamSid callSid c p :
  let p' := handleStartFields streamSid
              (Some {| start_callSid := callSid; customParameters := Some c |}) p in
  roomId p' = param_roomId c /\ userType p' = param_userType c /\
  myLanguage p' = param_myLanguage c.
Proof. destruct p; repeat split; reflexivity. Qed.

(** After a start event the speaker identifier is built from the room and
    leg type the processor held BEFORE the event. *)
Lemma handleStart_userId_stale this streamSid start w p :
  processors w !! this = Some p ->
  userId <$> processors (handleStart this streamSid start w) !! this =
  Some (JStr (template (roomId p) +:+ "_" +:+ template (userType p))).
Proof.
  intros Hp. unfold handleStart.
  assert (Hq : processors (upd_proc this (handleStartFields streamSid start) w) !! this
               = Some (handleStartFields streamSid start p))
    by (rewrite lookup_upd_proc_eq, Hp; reflexivity).
  rewrite Hq.
  destruct (truthy (myLanguage (handleStartFields streamSid start p))); cbn.
  - rewrite registerConnection_processors, Hq. cbn.
    by rewrite handleStartFields_userId.
  - rewrite Hq. cbn. by rewrite handleStartFields_userId.
Qed.

(** C3 (code defect).  The claim asks that after a start event carrying
    room [R] and leg type [T] the speaker identifier be ["R_T"].  On a
    freshly connected processor the start event for room ["room1"] and leg
    type ["caller"] stores those two values and registers the leg, yet the
    speaker identifier is ["null_null"]: [handleStart] builds it before it
    assigns the room and the leg type. *)
Theorem C3_handleStart_userId_built_before_assignment :
  let w := handleMessage Scenario.servicesDown 0
             (Scenario.startEvent "room1" "caller" "en") Scenario.oneConnection in
  roomId <$> processors w !! 0%nat = Some (JStr "room1") /\
  userType <$> processors w !! 0%nat = Some (JStr "caller") /\
  userId <$> processors w !! 0%nat = Some (JStr "null_null") /\
  JStr "null_null" <> JStr "room1_caller".
Proof. cbv zeta. split_ands; try (vm_compute; reflexivity). discriminate. Qed.

(** *** Attach *)

Lemma registerConnection_lookup this w p room s :
  processors w !! this = Some p ->
  roomId p = JStr room -> room <> "" ->
  activeSessions w !! room = Some s ->
  activeSessions (registerConnection this w) !! room =
  Some (if strict_eq_str (userType p) "caller"
        then set_callerConnection (SlotRef this) s
        else set_receiverConnection (SlotRef this) s).
Proof.
  intros Hp Hroom Hne Hs. unfold registerConnection. rewrite Hp, Hroom.
  cbn [truthy sessions_get]. destruct (String.eqb_spec room ""); [done|].
  cbn [negb]. rewrite Hs, activeSessions_set_activeSessions.
  cbn [sessions_update]. rewrite lookup_alter_eq, Hs.
  by destruct (strict_eq_str (userType p) "caller").
Qed.

(** Attaching a leg leaves every session in place and changes at most the
    slot of the leg's own type: all other fields, the opposite slot
    included, are as before. *)
Lemma registerConnection_frame this w p key s :
  processors w !! this = Some p ->
  activeSessions w !! key = Some s ->
  exists s', activeSessions (registerConnection this w) !! key = Some s' /\
    creatorLanguage s' = creatorLanguage s /\
    participantLanguage s' = participantLanguage s /\
    creatorConnection s' = creatorConnection s /\
    participantConnection s' = participantConnection s /\
    createdAt s' = createdAt s /\
    (if strict_eq_str (userType p) "caller"
     then receiverConnection s' = receiverConnection s
     else callerConnection s' = callerConnection s).
Proof.
  intros Hp Hs. unfold registerConnection. rewrite Hp.
  destruct (truthy (roomId p)); cbn [negb];
    [|exists s; destruct (strict_eq_str _ _); done].
  destruct (sessions_get (roomId p) (activeSessions w));
    [|exists s; destruct (strict_eq_str _ _); done].
  rewrite activeSessions_set_activeSessions, lookup_sessions_update, Hs.
  case_decide; [|exists s; destruct (strict_eq_str _ _); done].
  destruct (strict_eq_str (userType p) "caller"); destruct s; cbn;
    eexists; (split; [reflexivity|]); done.
Qed.

(** *** Detach *)

Lemma cleanupFields_identity p :
  roomId (cleanupFields p) = roomId p /\
  userType (cleanupFields p) = userType p /\
  ws (cleanupFields p) = ws p.
Proof.
  unfold cleanupFields. destruct p as [? ? ? ? ? ? uid ? ? ? ? ? st ? ? ? ?].
  destruct st, (truthy uid) eqn:E; cbn; rewrite ?E; done.
Qed.

(** [cleanup()] of src/bidirectional-processor.js keeps every session in
    the registry and never touches the two slots [registerConnection]
    fills. *)
Lemma cleanup_keeps_leg_slots this w key s :
  activeSessions w !! key = Some s ->
  exists s', activeSessions (cleanup this w) !! key = Some s' /\
    callerConnection s' = callerConnection s /\
    receiverConnection s' = receiverConnection s.
Proof.
  intros Hs. unfold cleanup.
  destruct (processors (upd_proc this cleanupFields w) !! this) as [p|];
    [|rewrite activeSessions_upd_proc; eauto].
  destruct (truthy (roomId p)); [|rewrite activeSessions_upd_proc; eauto].
  rewrite !activeSessions_upd_proc.
  destruct (sessions_get (roomId p) (activeSessions w));
    [|rewrite ?activeSessions_upd_proc; eauto].
  rewrite activeSessions_set_activeSessions, ?activeSessions_upd_proc,
    lookup_sessions_update, Hs.
  case_decide; [|eauto].
  destruct (strict_eq_str (userType p) "creator"); destruct s; cbn; eauto.
Qed.

(** The sibling [cleanup()] of src/unnamed/part_000 does detach: the slot
    of the leg's own type becomes [null]. *)
Lemma cleanup_part000_detaches this w p room s :
  processors w !! this = Some p ->
  roomId p = JStr room -> room <> "" ->
  activeSessions w !! room = Some s ->
  activeSessions (cleanup_part000 this w) !! room =
  Some (if strict_eq_str (userType p) "caller"
        then set_callerConnection SlotNull s
        else set_receiverConnection SlotNull s).
Proof.
  intros Hp Hroom Hne Hs. unfold cleanup_part000.
  rewrite lookup_upd_proc_eq, Hp. cbn [fmap option_fmap option_map].
  destruct (cleanupFields_identity p) as (Hr & Hu & _). rewrite Hr, Hu, Hroom.
  cbn [truthy sessions_get]. destruct (String.eqb_spec room ""); [done|].
  cbn [negb].
  rewrite activeSessions_upd_proc, Hs, activeSessions_set_activeSessions,
    ?activeSessions_upd_proc.
  cbn [sessions_update]. rewrite lookup_alter_eq, Hs.
  by destruct (strict_eq_str (userType p) "caller").
Qed.

(** C4 (code defect).  The claim asks that detaching leg X leave the
    session present with X's occupied slot set to null.  With both legs
    registered, [cleanup()] of the caller leaves the session present but
    its [callerConnection] still refers to the caller's processor: the
    method clears [participantConnection], a slot [registerConnection]
    never fills.  The sibling processor of src/unnamed/part_000 clears
    [callerConnection] on the same input. *)
Theorem C4_cleanup_leaves_occupied_slot :
  callerConnection <$> activeSessions Scenario.twoLegs !! "room1" = Some (SlotRef 0) /\
  callerConnection <$> activeSessions (cleanup 0 Scenario.twoLegs) !! "room1"
    = Some (SlotRef 0) /\
  receiverConnection <$> activeSessions (cleanup 0 Scenario.twoLegs) !! "room1"
    = Some (SlotRef 1) /\
  callerConnection <$> activeSessions (cleanup_part000 0 Scenario.twoLegs) !! "room1"
    = Some SlotNull.
Proof. split_ands; vm_compute; reflexivity. Qed.

End RegistryFacts.
(** ** What the pipeline of a flush leaves alone *)

Section PipelineFrame.

Lemma stable_set_voiceProfiles c p : stableView (set_voiceProfiles c p) = stableView p.
Proof. destruct p; reflexivity. Qed.
Lemma stable_set_isProcessing b p : stableView (set_isProcessing b p) = stableView p.
Proof. destruct p; reflexivity. Qed.
Lemma stable_set_ws v p : stableView (set_ws v p) = stableView p.
Proof. destruct p; reflexivity. Qed.
Lemma stable_inc_transcriptions p :
  stableView (set_stats (inc_transcriptions (stats p)) p) = stableView p.
Proof. destruct p as [? ? ? ? ? ? ? ? ? ? ? ? ? [] ? ? ?]; reflexivity. Qed.
Lemma stable_inc_translations p :
  stableView (set_stats (inc_translations (stats p)) p) = stableView p.
Proof. destruct p as [? ? ? ? ? ? ? ? ? ? ? ? ? [] ? ? ?]; reflexivity. Qed.
Lemma stable_inc_audiosSent p :
  stableView (set_stats (inc_audiosSent (stats p)) p) = stableView p.
Proof. destruct p as [? ? ? ? ? ? ? ? ? ? ? ? ? [] ? ? ?]; reflexivity. Qed.

Create HintDb stable discriminated.
#[local] Hint Resolve stable_set_voiceProfiles stable_set_isProcessing stable_set_ws
  stable_inc_transcriptions stable_inc_translations stable_inc_audiosSent : stable.

Lemma view_upd_proc {V} (view : Processor -> V) ref f w ref' :
  (forall p, view (f p) = view p) ->
  view <$> processors (upd_proc ref f w) !! ref' = view <$> processors w !! ref'.
Proof.
  intros Hf. rewrite processors_upd_proc, lookup_alter.
  case_decide; [subst|reflexivity].
  destruct (processors w !! ref'); cbn; [by rewrite Hf|reflexivity].
Qed.

Lemma processors_logCalls calls w : processors (logCalls calls w) = processors w.
Proof. destruct w; reflexivity. Qed.
Lemma activeSessions_logCalls calls w : activeSessions (logCalls calls w) = activeSessions w.
Proof. destruct w; reflexivity. Qed.
Lemma processors_addTranslation r u d w : processors (addTranslation r u d w) = processors w.
Proof. destruct w; reflexivity. Qed.
Lemma activeSessions_addTranslation r u d w :
  activeSessions (addTranslation r u d w) = activeSessions w.
Proof. destruct w; reflexivity. Qed.

Lemma activeSessions_sendToOtherUserWith n t this audio other w :
  activeSessions (sendToOtherUserWith n t this audio other w) = activeSessions w.
Proof.
  unfold sendToOtherUserWith. repeat case_match; subst;
    rewrite ?activeSessions_upd_proc; reflexivity.
Qed.

Lemma stable_sendToOtherUserWith n t this audio other w ref :
  stableView <$> processors (sendToOtherUserWith n t this audio other w) !! ref
  = stableView <$> processors w !! ref.
Proof.
  unfold sendToOtherUserWith. repeat case_match; subst; try reflexivity;
    rewrite ?(view_upd_proc stableView) by auto with stable; reflexivity.
Qed.

(** The [try] block of [processBuffer] is never left by an exception: each
    stage catches its own failures, and the decoder cannot throw. *)
Lemma pipelineBody_never_throws ext this mulawAudio w :
  snd (pipelineBody ext this mulawAudio w) = Ok tt.
Proof.
  unfold pipelineBody.
  destruct (decodeMulaw_total mulawAudio) as (pcm & -> & _).
  repeat case_match; reflexivity.
Qed.

Ltac sessions_step :=
  first [ rewrite activeSessions_sendToOtherUserWith
        | rewrite activeSessions_upd_proc
        | rewrite activeSessions_logCalls
        | rewrite activeSessions_addTranslation ].

Lemma activeSessions_pipelineBody ext this mulawAudio w :
  activeSessions (fst (pipelineBody ext this mulawAudio w)) = activeSessions w.
Proof.
  unfold pipelineBody, sendToOtherUser.
  repeat case_match; subst; cbn [fst]; repeat sessions_step; reflexivity.
Qed.

Lemma stable_logCalls calls w ref :
  stableView <$> processors (logCalls calls w) !! ref = stableView <$> processors w !! ref.
Proof. by rewrite processors_logCalls. Qed.

Lemma stable_addTranslation r u d w ref :
  stableView <$> processors (addTranslation r u d w) !! ref
  = stableView <$> processors w !! ref.
Proof. by rewrite processors_addTranslation. Qed.

Ltac stable_step :=
  first [ rewrite stable_sendToOtherUserWith
        | rewrite stable_logCalls
        | rewrite stable_addTranslation
        | rewrite (view_upd_proc stableView) by auto with stable ].

(** The pipeline writes none of the buffering fields of any processor and
    does not count an error. *)
Lemma stable_pipelineBody ext this mulawAudio w ref :
  stableView <$> processors (fst (pipelineBody ext this mulawAudio w)) !! ref
  = stableView <$> processors w !! ref.
Proof.
  unfold pipelineBody, sendToOtherUser.
  repeat case_match; subst; cbn [fst]; repeat stable_step; reflexivity.
Qed.


Lemma activeSessions_processBuffer ext this w :
  activeSessions (processBuffer ext this w) = activeSessions w.
Proof.
  unfold processBuffer. repeat case_match; subst;
    rewrite ?activeSessions_upd_proc; try reflexivity.
  all: match goal with
       | H : pipelineBody ?e ?t ?m ?w0 = (?w1, _) |- _ =>
           pose proof (activeSessions_pipelineBody e t m w0) as Hs;
           rewrite H in Hs; cbn [fst] in Hs
       end.
  all: rewrite Hs, activeSessions_upd_proc; reflexivity.
Qed.

Lemma activeSessions_handleMedia ext this payload w :
  activeSessions (handleMedia ext this payload w) = activeSessions w.
Proof.
  unfold handleMedia. repeat case_match; subst;
    rewrite ?activeSessions_processBuffer, ?activeSessions_upd_proc; reflexivity.
Qed.

Lemma activeSessions_silenceCallback ext this w :
  activeSessions (silenceCallback ext this w) = activeSessions w.
Proof.
  unfold silenceCallback. repeat case_match; subst;
    rewrite ?activeSessions_processBuffer; reflexivity.
Qed.

End PipelineFrame.
(** ** Peer-loss propagation *)

Section PeerLoss.

Import Server.

Lemma routeSlotsEmpty_update room f w :
  (forall s, isRef (creatorConnection s) = false /\ isRef (participantConnection s) = false ->
             isRef (creatorConnection (f s)) = false /\
             isRef (participantConnection (f s)) = false) ->
  routeSlotsEmpty w ->
  routeSlotsEmpty (set_activeSessions (sessions_update room f (activeSessions w)) w).
Proof.
  intros Hf Hw key s. rewrite activeSessions_set_activeSessions, lookup_sessions_update.
  case_decide; [|apply Hw].
  destruct (activeSessions w !! key) as [s0|] eqn:E; [|discriminate].
  intros [= <-]. eapply Hf, Hw, E.
Qed.

Lemma routeSlotsEmpty_delete room w :
  routeSlotsEmpty w ->
  routeSlotsEmpty (set_activeSessions (sessions_delete room (activeSessions w)) w).
Proof.
  intros Hw key s. rewrite activeSessions_set_activeSessions.
  destruct room as [| |r]; cbn; try apply Hw.
  intros H. apply lookup_delete_Some in H as [_ H]. by eapply Hw.
Qed.

Lemma routeSlotsEmpty_same_sessions w w' :
  activeSessions w' = activeSessions w -> routeSlotsEmpty w -> routeSlotsEmpty w'.
Proof. intros E Hw key s. rewrite E. apply Hw. Qed.

Lemma activeSessions_notifyOtherSide reason other w :
  activeSessions (notifyOtherSide reason other w) = activeSessions w.
Proof.
  unfold notifyOtherSide. repeat case_match; rewrite ?activeSessions_upd_proc; reflexivity.
Qed.

Lemma routeSlotsEmpty_registerConnection this w :
  routeSlotsEmpty w -> routeSlotsEmpty (registerConnection this w).
Proof.
  intros Hw. unfold registerConnection. repeat case_match; try assumption.
  - apply routeSlotsEmpty_update; [|assumption]. intros [] [? ?]; cbn in *; split; done.
  - apply routeSlotsEmpty_update; [|assumption]. intros [] [? ?]; cbn in *; split; done.
Qed.

Lemma routeSlotsEmpty_cleanup this w :
  routeSlotsEmpty w -> routeSlotsEmpty (cleanup this w).
Proof.
  intros Hw.
  assert (Hu : routeSlotsEmpty (upd_proc this cleanupFields w))
    by (eapply routeSlotsEmpty_same_sessions; [apply activeSessions_upd_proc|done]).
  unfold cleanup. repeat case_match; try assumption.
  - apply routeSlotsEmpty_update; [|assumption]. intros [] [? ?]; cbn in *; split; done.
  - apply routeSlotsEmpty_update; [|assumption]. intros [] [? ?]; cbn in *; split; done.
Qed.

Lemma routeSlotsEmpty_onClose this w :
  routeSlotsEmpty w -> routeSlotsEmpty (onClose this w).
Proof.
  intros Hw.
  assert (Hu : routeSlotsEmpty (upd_proc this markClosed w))
    by (eapply routeSlotsEmpty_same_sessions; [apply activeSessions_upd_proc|done]).
  unfold onClose. repeat case_match; try assumption;
    try (by apply routeSlotsEmpty_cleanup).
  all: apply routeSlotsEmpty_cleanup, routeSlotsEmpty_delete.
  all: eapply routeSlotsEmpty_same_sessions;
    [apply activeSessions_notifyOtherSide|assumption].
Qed.

(** The two slots the room routes create never hold a processor, whatever
    the process is asked to do: only [registerConnection] stores processor
    references, and it stores them in [callerConnection] and
    [receiverConnection]. *)
Lemma routeSlotsEmpty_handle r w :
  routeSlotsEmpty w -> routeSlotsEmpty (handle r w).
Proof.
  intros Hw. destruct r as [room lang t|room lang|room user|sock|ref ext data|ref ext|ref|ref];
    cbn [handle].
  - intros key s. unfold createRoom. rewrite activeSessions_set_activeSessions, lookup_insert.
    case_decide; [by intros [= <-]|apply Hw].
  - unfold joinRoom. repeat case_match; try assumption.
    apply routeSlotsEmpty_update; [|assumption]. intros [] [? ?]; cbn in *; split; done.
  - unfold leaveRoom. case_match; [|assumption].
    apply routeSlotsEmpty_delete.
    eapply routeSlotsEmpty_same_sessions;
      [apply activeSessions_notifyOtherSide|assumption].
  - eapply routeSlotsEmpty_same_sessions; [|exact Hw]. by destruct w.
  - destruct data as [sid start|payload| | |ev]; cbn [handleMessage]; try assumption.
    + unfold handleStart.
      assert (Hu : routeSlotsEmpty (upd_proc ref (handleStartFields sid start) w))
        by (eapply routeSlotsEmpty_same_sessions; [apply activeSessions_upd_proc|done]).
      repeat case_match; try assumption.
      by apply routeSlotsEmpty_registerConnection.
    + eapply routeSlotsEmpty_same_sessions; [apply activeSessions_handleMedia|done].
    + unfold handleStop. apply routeSlotsEmpty_cleanup.
      eapply routeSlotsEmpty_same_sessions; [apply activeSessions_upd_proc|done].
  - eapply routeSlotsEmpty_same_sessions; [apply activeSessions_silenceCallback|done].
  - by apply routeSlotsEmpty_onClose.
  - by apply routeSlotsEmpty_cleanup.
Qed.

Lemma routeSlotsEmpty_run rs w :
  routeSlotsEmpty w -> routeSlotsEmpty (run rs w).
Proof.
  revert w. induction rs as [|r rs IH]; intros w Hw; [exact Hw|].
  cbn. apply IH, routeSlotsEmpty_handle, Hw.
Qed.

Lemma routeSlotsEmpty_reachable rs : routeSlotsEmpty (run rs emptyWorld).
Proof.
  apply routeSlotsEmpty_run. intros key s H. cbn in H.
  by rewrite lookup_empty in H.
Qed.

Lemma outbox_cleanupFields p : outbox (cleanupFields p) = outbox p.
Proof.
  unfold outbox. by destruct (cleanupFields_identity p) as (_ & _ & ->).
Qed.

Lemma outbox_markClosed p : outbox (markClosed p) = outbox p.
Proof. destruct p as [[sock|] ? ? ? ? ? ? ? ? ? ? ? ? ? ? ? ?]; reflexivity. Qed.

Lemma outbox_cleanup this w ref :
  outbox <$> processors (cleanup this w) !! ref = outbox <$> processors w !! ref.
Proof.
  unfold cleanup. repeat case_match; subst;
    rewrite ?processors_set_activeSessions;
    rewrite (view_upd_proc outbox) by apply outbox_cleanupFields; reflexivity.
Qed.

(** While the route slots are empty the close handler finds no other side:
    no socket receives anything. *)
Lemma onClose_notifies_nobody this w ref :
  routeSlotsEmpty w ->
  outbox <$> processors (onClose this w) !! ref = outbox <$> processors w !! ref.
Proof.
  intros Hw. unfold onClose.
  destruct (processors (upd_proc this markClosed w) !! this) as [p|] eqn:Hp;
    [|by rewrite (view_upd_proc outbox) by apply outbox_markClosed].
  destruct (negb (truthy (roomId p)) || negb (truthy (userType p))).
  { rewrite outbox_cleanup.
    by rewrite (view_upd_proc outbox) by apply outbox_markClosed. }
  destruct (sessions_get (roomId p) (activeSessions (upd_proc this markClosed w)))
    as [s|] eqn:Hs.
  2:{ rewrite outbox_cleanup.
      by rewrite (view_upd_proc outbox) by apply outbox_markClosed. }
  rewrite activeSessions_upd_proc in Hs.
  assert (Hslots : isRef (creatorConnection s) = false /\
                   isRef (participantConnection s) = false).
  { destruct (roomId p) as [| |room]; try discriminate. by eapply Hw. }
  destruct Hslots as [Hc Hpart].
  assert (Hnone : forall reason w0,
    notifyOtherSide reason
      (if strict_eq_str (userType p) "caller"
       then participantConnection s else creatorConnection s) w0 = w0).
  { intros reason w0.
    destruct (strict_eq_str (userType p) "caller");
      [destruct (participantConnection s)|destruct (creatorConnection s)];
      done. }
  rewrite Hnone, outbox_cleanup, processors_set_activeSessions.
  by rewrite (view_upd_proc outbox) by apply outbox_markClosed.
Qed.

(** In every state the process can reach, a closing socket makes the
    close handler send nothing to any socket: the handler looks for the
    other side in [creatorConnection] / [participantConnection], where no
    processor is ever stored. *)
Lemma onClose_never_sends_force_disconnect rs this ref :
  outbox <$> processors (onClose this (run rs emptyWorld)) !! ref
  = outbox <$> processors (run rs emptyWorld) !! ref.
Proof. apply onClose_notifies_nobody, routeSlotsEmpty_reachable. Qed.

(** C2 (code defect).  The claim asks that, with both legs registered,
    closing one leg's socket deliver exactly one force-disconnect message
    to the other leg and remove the session.  With the caller (processor
    0) and the receiver (processor 1) both registered in room ["room1"]
    and the receiver's socket open, the close handler of the caller
    removes the session but the receiver's socket has received nothing. *)
Theorem C2_close_does_not_notify_registered_peer :
  (callerConnection <$> activeSessions Scenario.twoLegs !! "room1" = Some (SlotRef 0) /\
   receiverConnection <$> activeSessions Scenario.twoLegs !! "room1" = Some (SlotRef 1)) /\
  (ws <$> processors Scenario.twoLegs !! 1%nat = Some (Some Scenario.openSocket)) /\
  activeSessions (onClose 0 Scenario.twoLegs) !! "room1" = None /\
  outbox <$> processors (onClose 0 Scenario.twoLegs) !! 1%nat = Some [] /\
  (forall p, processors (onClose 0 Scenario.twoLegs) !! 1%nat = Some p ->
     length (List.filter isForceDisconnect (outbox p)) <> 1%nat).
Proof.
  split_ands; try (vm_compute; reflexivity).
  intros p Hp. vm_compute in Hp. inversion Hp; subst. vm_compute. discriminate.
Qed.

End PeerLoss.
(** ** Translation of same-language text *)

Section TranslateFacts.

(** [beforeDash] is the text before the first dash. *)
Lemma beforeDash_prefix a b :
  hasDash a = false -> beforeDash (a +:+ String "-" b) = a.
Proof.
  induction a as [|c a IH]; intros H.
  - reflexivity.
  - change (String c a +:+ String "-" b) with (String c (a +:+ String "-" b)).
    cbn [beforeDash hasDash] in *.
    destruct (Ascii.eqb c "-"); [discriminate|].
    f_equal. apply IH, H.
Qed.

Lemma beforeDash_no_dash s : hasDash s = false -> beforeDash s = s.
Proof.
  induction s as [|c s IH]; intros H; [reflexivity|].
  cbn [beforeDash hasDash] in *.
  destruct (Ascii.eqb c "-"); [discriminate|].
  f_equal. apply IH, H.
Qed.

(** C10.  When the base subtags of the two language tags are equal,
    [translateText] returns the text unchanged and makes no call to the
    translation service, whatever the service would have answered. *)
Theorem C10_translateText_same_base_language
    (ext : Ext) (text fromLanguage toLanguage : string) :
  beforeDash fromLanguage = beforeDash toLanguage ->
  translateText ext text (JStr fromLanguage) (JStr toLanguage) = (text, []).
Proof.
  intros Hbase. unfold translateText, splitDash0. rewrite Hbase.
  by rewrite String.eqb_refl.
Qed.

Lemma C10_witness_regional_variants :
  beforeDash "en-US" = beforeDash "en-GB" /\
  translateText Scenario.servicesDown "good morning" (JStr "en-US") (JStr "en-GB")
  = ("good morning", []).
Proof.
  split; [reflexivity|].
  apply (C10_translateText_same_base_language Scenario.servicesDown
           "good morning" "en-US" "en-GB").
  reflexivity.
Defined.

(** With different base subtags the service is called once, and a failure
    of the call passes the original text through. *)
Lemma translateText_other_language ext text fromLanguage toLanguage :
  beforeDash fromLanguage <> beforeDash toLanguage ->
  translateText ext text (JStr fromLanguage) (JStr toLanguage) =
  (match translate ext text (beforeDash fromLanguage) (beforeDash toLanguage) with
   | Ok translation => translation
   | Throw _ => text
   end,
   [CallTranslate text (beforeDash fromLanguage) (beforeDash toLanguage)]).
Proof.
  intros Hne. unfold translateText, splitDash0.
  by destruct (String.eqb_spec (beforeDash fromLanguage) (beforeDash toLanguage)).
Qed.

End TranslateFacts.

(** ** VoiceAnalyzer *)

Section VoiceFacts.

Import VoiceAnalyzer.

(** Induction over a buffer two bytes at a time. *)
Lemma byte_pairs_ind (P : list byte -> Prop) :
  P [] -> (forall b, P [b]) ->
  (forall lo hi rest, P rest -> P (lo :: hi :: rest)) ->
  forall l, P l.
Proof.
  intros H0 H1 H2.
  fix IH 1. intros [|lo [|hi rest]]; [exact H0|apply H1|apply H2, IH].
Qed.

(** A buffer of odd length makes the first detector throw. *)
Lemma readSamples_odd pcm :
  Nat.odd (length pcm) = true -> readSamples pcm = Throw "ERR_OUT_OF_RANGE".
Proof.
  induction pcm as [|b|lo hi rest IH] using byte_pairs_ind; intros Hodd.
  - discriminate.
  - reflexivity.
  - cbn [readSamples]. rewrite IH; [reflexivity|].
    cbn [length] in Hodd. by rewrite Nat.odd_succ_succ in Hodd.
Qed.

Lemma detectPitch_odd pcm :
  Nat.odd (length pcm) = true -> detectPitch pcm = Throw "ERR_OUT_OF_RANGE".
Proof. intros H. unfold detectPitch. by rewrite readSamples_odd. Qed.

(** When the analysis throws, [analyzeVoice] returns the neutral profile
    and leaves the cache as it was. *)
Lemma analyzeVoice_failure now pcm userId vp e :
  analyzeBody now pcm userId vp = Throw e ->
  analyzeVoice now pcm userId vp = (getDefaultProfile now, vp).
Proof. intros H. unfold analyzeVoice. by rewrite H. Qed.

Lemma analyzeVoice_odd_length now pcm userId vp :
  Nat.odd (length pcm) = true ->
  analyzeVoice now pcm userId vp = (getDefaultProfile now, vp).
Proof.
  intros H. eapply analyzeVoice_failure. unfold analyzeBody.
  rewrite detectPitch_odd by done. reflexivity.
Qed.

(** C6 (code defect).  The claim asks that pathological input, the empty
    buffer included, give the neutral default profile and leave the cache
    untouched.  On the empty buffer no detector throws: the duration and
    the sample count are zero, the divisions give NaN, and [analyzeVoice]
    returns pitch 20, speed NaN, energy NaN, gender female and stores that
    profile in the cache under the speaker's key. *)
Theorem C6_analyzeVoice_empty_buffer_is_not_neutral :
  let r := analyzeVoice 1700000000000 [] Scenario.speaker ∅ in
  pitch (fst r) = 20%float /\
  is_nan (speed (fst r)) = true /\
  is_nan (energy (fst r)) = true /\
  gender (fst r) = female /\
  fst r <> getDefaultProfile 1700000000000 /\
  (exists cached, snd r !! Scenario.speaker = Some cached /\
     samples cached = Some 1 /\ is_nan (speed cached) = true) /\
  snd r <> ∅.
Proof.
  cbv zeta.
  assert (E : analyzeVoice 1700000000000 [] Scenario.speaker ∅ =
    ({| pitch := 20; speed := nan; energy := nan; gender := female;
        timestamp := 1700000000000; samples := None |},
     <[Scenario.speaker :=
        {| pitch := 20; speed := nan; energy := nan; gender := female;
           timestamp := 1700000000000; samples := Some 1 |}]> ∅)).
  { unfold analyzeVoice, analyzeBody, updateProfile. rewrite lookup_empty.
    assert (Hp : detectPitch [] = Ok 20%float) by (vm_compute; reflexivity).
    assert (Hs : detectSpeed [] = Ok nan) by (vm_compute; reflexivity).
    assert (He : detectEnergy [] = Ok nan) by (vm_compute; reflexivity).
    rewrite Hp, Hs, He. cbn [bindE]. reflexivity. }
  rewrite E. cbn [fst snd pitch speed energy gender].
  split_ands; try reflexivity.
  - unfold getDefaultProfile. intros H. discriminate H.
  - eexists. rewrite lookup_insert_eq. repeat split; reflexivity.
  - intros H. apply (f_equal (fun m => m !! Scenario.speaker)) in H.
    rewrite lookup_insert_eq, lookup_empty in H. discriminate.
Qed.

(** Every cached profile carries a sample counter of at least one. *)
Lemma reachable_samples vp userId A :
  reachable vp -> vp !! userId = Some A ->
  exists n, samples A = Some n /\ 1 <= n.
Proof.
  intros Hr. revert userId A.
  induction Hr as [|now u B vp Hr IH|u vp Hr IH]; intros userId A.
  - by rewrite lookup_empty.
  - unfold updateProfile. destruct (vp !! u) as [existing|] eqn:E.
    + rewrite lookup_insert. case_decide; [|apply IH].
      intros [= <-]. cbn. destruct (IH _ _ E) as (n & Hn & Hle).
      exists (samplesOrOne (samples existing) + 1). split; [reflexivity|].
      rewrite Hn. cbn. destruct (Z.eqb_spec n 0); lia.
    + rewrite lookup_insert. case_decide; [|apply IH].
      intros [= <-]. cbn. exists 1. split; [reflexivity|lia].
  - unfold cleanup. intros H. apply lookup_delete_Some in H as [_ H]. by eapply IH.
Qed.

(** C9.  For a speaker with cached profile [A], an analysis that measures
    pitch [pB], speed [sB] and energy [eB] (profile [B]) replaces the
    cache entry by: pitch [round(A.pitch*0.7 + pB*0.3)], energy
    [round(A.energy*0.7 + eB*0.3)], speed [A.speed*0.7 + sB*0.3] unrounded,
    the gender of [B], and the sample counter of [A] plus one; the other
    entries of the cache are untouched. *)
Theorem C9_analyzeVoice_smooths_cached_profile
    (now : Z) (pcm : list byte) (userId : JsVal)
    (vp : gmap JsVal Profile) (A : Profile) (pB sB eB : float) :
  reachable vp ->
  vp !! userId = Some A ->
  detectPitch pcm = Ok pB -> detectSpeed pcm = Ok sB -> detectEnergy pcm = Ok eB ->
  let B := {| pitch := pB; speed := sB; energy := eB; gender := detectGender pB;
              timestamp := now; samples := None |} in
  fst (analyzeVoice now pcm userId vp) = B /\
  (exists n, samples A = Some n /\
     snd (analyzeVoice now pcm userId vp) !! userId =
     Some {| pitch := JsNum.round (pitch A * 0.7 + pitch B * 0.3)%float;
             speed := (speed A * 0.7 + speed B * 0.3)%float;
             energy := JsNum.round (energy A * 0.7 + energy B * 0.3)%float;
             gender := gender B;
             timestamp := now;
             samples := Some (n + 1) |}) /\
  (forall other, other <> userId ->
     snd (analyzeVoice now pcm userId vp) !! other = vp !! other).
Proof.
  intros Hr HA Hp Hs He B.
  unfold analyzeVoice, analyzeBody. rewrite Hp, Hs, He. cbn [bindE fst snd].
  fold B. split; [reflexivity|].
  unfold updateProfile. rewrite HA.
  destruct (reachable_samples vp userId A Hr HA) as (n & Hn & Hle).
  split.
  - exists n. split; [exact Hn|]. rewrite lookup_insert_eq. do 2 f_equal.
    rewrite Hn. cbn. destruct (Z.eqb_spec n 0); [lia|reflexivity].
  - intros other Hne. by rewrite lookup_insert_ne.
Qed.

Lemma C9_witness_second_analysis :
  let pcm := Scenario.twoSamples in
  let vp := Scenario.oneAnalysis in
  let pB := Scenario.measured (detectPitch pcm) in
  let sB := Scenario.measured (detectSpeed pcm) in
  let eB := Scenario.measured (detectEnergy pcm) in
  exists A, vp !! Scenario.speaker = Some A /\
  let B := {| pitch := pB; speed := sB; energy := eB; gender := detectGender pB;
              timestamp := 1700000000500; samples := None |} in
  fst (analyzeVoice 1700000000500 pcm Scenario.speaker vp) = B /\
  (exists n, samples A = Some n /\
     snd (analyzeVoice 1700000000500 pcm Scenario.speaker vp) !! Scenario.speaker =
     Some {| pitch := JsNum.round (pitch A * 0.7 + pitch B * 0.3)%float;
             speed := (speed A * 0.7 + speed B * 0.3)%float;
             energy := JsNum.round (energy A * 0.7 + energy B * 0.3)%float;
             gender := gender B;
             timestamp := 1700000000500;
             samples := Some (n + 1) |}) /\
  (forall other, other <> Scenario.speaker ->
     snd (analyzeVoice 1700000000500 pcm Scenario.speaker vp) !! other = vp !! other).
Proof.
  cbv zeta.
  assert (Hp : detectPitch Scenario.twoSamples
               = Ok (Scenario.measured (detectPitch Scenario.twoSamples)))
    by (vm_compute; reflexivity).
  assert (Hs : detectSpeed Scenario.twoSamples
               = Ok (Scenario.measured (detectSpeed Scenario.twoSamples)))
    by (vm_compute; reflexivity).
  assert (He : detectEnergy Scenario.twoSamples
               = Ok (Scenario.measured (detectEnergy Scenario.twoSamples)))
    by (vm_compute; reflexivity).
  assert (Hvp : Scenario.oneAnalysis =
                updateProfile 1700000000000 Scenario.speaker
                  {| pitch := Scenario.measured (detectPitch Scenario.twoSamples);
                     speed := Scenario.measured (detectSpeed Scenario.twoSamples);
                     energy := Scenario.measured (detectEnergy Scenario.twoSamples);
                     gender := detectGender (Scenario.measured (detectPitch Scenario.twoSamples));
                     timestamp := 1700000000000; samples := None |} ∅).
  { unfold Scenario.oneAnalysis, analyzeVoice, analyzeBody.
    rewrite Hp, Hs, He. reflexivity. }
  assert (Hr : reachable Scenario.oneAnalysis)
    by (rewrite Hvp; apply reach_update, reach_new).
  assert (HA : exists A, Scenario.oneAnalysis !! Scenario.speaker = Some A).
  { rewrite Hvp. unfold updateProfile. rewrite lookup_empty, lookup_insert_eq. eauto. }
  destruct HA as [A HA]. exists A. split; [exact HA|].
  exact (C9_analyzeVoice_smooths_cached_profile 1700000000500 Scenario.twoSamples
           Scenario.speaker Scenario.oneAnalysis A _ _ _ Hr HA Hp Hs He).
Defined.

End VoiceFacts.
(** ** OutboundStreamer: [sendToOtherUser] *)

Section SenderFacts.

Lemma ceilDiv_zero b : (0 < b)%nat -> ceilDiv 0 b = 0%nat.
Proof. intros H. unfold ceilDiv. apply Nat.div_small. lia. Qed.

Lemma ceilDiv_step a b :
  (0 < b)%nat -> (0 < a)%nat -> ceilDiv a b = S (ceilDiv (a - b) b).
Proof.
  intros Hb Ha. unfold ceilDiv.
  replace (a + b - 1)%nat with ((a - 1) + 1 * b)%nat by lia.
  rewrite Nat.div_add by lia.
  destruct (Nat.le_gt_cases a b) as [Hle|Hgt].
  - replace (a - b)%nat with 0%nat by lia.
    rewrite (Nat.div_small (a - 1)) by lia.
    rewrite (Nat.div_small (0 + b - 1)) by lia. lia.
  - replace (a - b + b - 1)%nat with (a - 1)%nat by lia. lia.
Qed.

(** Induction over a buffer three bytes at a time. *)
Lemma byte_triples_ind (P : list byte -> Prop) :
  P [] -> (forall a, P [a]) -> (forall a b, P [a; b]) ->
  (forall a b c rest, P rest -> P (a :: b :: c :: rest)) ->
  forall l, P l.
Proof.
  intros H0 H1 H2 H3.
  fix IH 1. intros [|a [|b [|c rest]]];
    [exact H0|apply H1|apply H2|apply H3, IH].
Qed.

(** The base64 text of [L] bytes has [4 * ceil(L / 3)] characters. *)
Lemma base64_length (buf : list byte) :
  String.length (Base64.encode buf) = (4 * ceilDiv (length buf) 3)%nat.
Proof.
  induction buf as [|a|a b|a b c rest IH] using byte_triples_ind.
  - reflexivity.
  - reflexivity.
  - reflexivity.
  - cbn [Base64.encode String.length length]. rewrite IH.
    rewrite (ceilDiv_step (S (S (S (length rest)))) 3) by lia.
    replace (S (S (S (length rest))) - 3)%nat with (length rest) by lia. lia.
Qed.

Lemma ws_send_open m sock :
  sendBudget sock = None ->
  ws_send m sock =
  ({| readyState := readyState sock; sent := sent sock ++ [m]; sendBudget := None |},
   Ok tt).
Proof. intros H. unfold ws_send. by rewrite H. Qed.

(** With fuel for the whole text and a socket that accepts every send, the
    loop runs [ceil(rest / chunkSize)] times, where [rest] is what is left
    of the text from [i], and hands over exactly those slices. *)
Lemma sendChunks_count fuel chunkSize s i sid sock chunkCount :
  (0 < chunkSize)%nat ->
  sendBudget sock = None ->
  (String.length s - i < fuel)%nat ->
  let k := ceilDiv (String.length s - i) chunkSize in
  sendChunks fuel chunkSize s i sid sock chunkCount =
  ({| readyState := readyState sock;
      sent := sent sock ++ List.map (MediaMsg sid) (slices k chunkSize s i);
      sendBudget := None |},
   Ok (chunkCount + k)%nat).
Proof.
  intros Hcs. revert i sock chunkCount.
  induction fuel as [|fuel IH]; intros i sock chunkCount Hopen Hfuel; [lia|].
  cbn [sendChunks]. destruct (Nat.ltb_spec i (String.length s)) as [Hlt|Hge].
  - rewrite ws_send_open by exact Hopen.
    rewrite IH by (cbn; first [reflexivity | lia]).
    cbn [readyState sent sendBudget].
    rewrite (ceilDiv_step (String.length s - i) chunkSize) by lia.
    replace (String.length s - i - chunkSize)%nat
      with (String.length s - (i + chunkSize))%nat by lia.
    cbn [slices List.map]. rewrite <- app_assoc. cbn [app].
    do 2 f_equal. lia.
  - replace (String.length s - i)%nat with 0%nat by lia.
    rewrite ceilDiv_zero by exact Hcs. cbn [slices List.map].
    rewrite app_nil_r, Nat.add_0_r. destruct sock as [r l b]. cbn in *.
    by rewrite Hopen.
Qed.

Lemma sendAll_open chunkSize timeNow audio sid sock :
  (0 < chunkSize)%nat ->
  sendBudget sock = None ->
  let base64Audio := Base64.encode audio in
  let k := ceilDiv (4 * ceilDiv (length audio) 3) chunkSize in
  sendAll chunkSize timeNow audio sid sock =
  ({| readyState := readyState sock;
      sent := sent sock ++ List.map (MediaMsg sid) (slices k chunkSize base64Audio 0)
                        ++ [MarkMsg sid ("audio_complete_" +:+ pretty timeNow)];
      sendBudget := None |}, true).
Proof.
  intros Hcs Hopen. cbv zeta. unfold sendAll.
  rewrite sendChunks_count by (first [assumption | lia]).
  rewrite Nat.sub_0_r, base64_length.
  rewrite ws_send_open by reflexivity.
  cbn [readyState sent sendBudget]. by rewrite <- app_assoc.
Qed.

Lemma outbox_set_ws sock p : outbox (set_ws (Some sock) p) = sent sock.
Proof. destruct p; reflexivity. Qed.

Lemma outbox_inc_audiosSent p :
  outbox (set_stats (inc_audiosSent (stats p)) p) = outbox p.
Proof. destruct p as [? ? ? ? ? ? ? ? ? ? ? ? ? [] ? ? ?]; reflexivity. Qed.

Lemma filter_isMedia_map sid l :
  List.filter isMedia (List.map (MediaMsg sid) l) = List.map (MediaMsg sid) l.
Proof. induction l as [|x l IH]; cbn; [reflexivity|by rewrite IH]. Qed.

Lemma filter_isMark_map sid l :
  List.filter isMark (List.map (MediaMsg sid) l) = [].
Proof. induction l as [|x l IH]; cbn; [reflexivity|exact IH]. Qed.

Lemma slices_length n chunkSize s i : length (slices n chunkSize s i) = n.
Proof. revert i. induction n as [|n IH]; intros i; cbn; [reflexivity|by rewrite IH]. Qed.

(** C8 (as amended).  For a payload of [L] bytes sent to a peer whose
    socket is open and accepts every send, [sendToOtherUser] appends to
    the peer's socket the slices of the payload's base64 text, one media
    message per slice of [chunkSize] characters, then one mark message and
    nothing else: the number of media messages is
    [ceil(B / chunkSize)] with [B = 4 * ceil(L / 3)] the length of the
    base64 text. *)
Theorem C8_sendToOtherUser_chunks_base64_text
    (chunkSize : nat) (timeNow : Z) (this other : nat) (audio : list byte)
    (w : World) (oc : Processor) (sock : WebSocket) :
  (0 < chunkSize)%nat ->
  processors w !! other = Some oc ->
  ws oc = Some sock ->
  readyState sock = 1 ->
  sendBudget sock = None ->
  let w' := sendToOtherUserWith chunkSize timeNow this (Some audio) (SlotRef other) w in
  let B := (4 * ceilDiv (length audio) 3)%nat in
  let media := List.map (MediaMsg (streamSid oc))
                 (slices (ceilDiv B chunkSize) chunkSize (Base64.encode audio) 0) in
  let mark := MarkMsg (streamSid oc) ("audio_complete_" +:+ pretty timeNow) in
  exists oc', processors w' !! other = Some oc' /\
    outbox oc' = outbox oc ++ media ++ [mark] /\
    length media = ceilDiv B chunkSize /\
    length (List.filter isMedia (media ++ [mark])) = ceilDiv B chunkSize /\
    List.filter isMark (media ++ [mark]) = [mark].
Proof.
  intros Hcs Hoc Hws Hopen Hbudget. cbv zeta.
  unfold sendToOtherUserWith. rewrite Hoc, Hws, Hopen. cbn [Z.eqb Pos.eqb negb].
  rewrite sendAll_open by assumption.
  set (sock' := {| readyState := _; sent := _; sendBudget := _ |}).
  assert (Hout : outbox oc = sent sock) by (unfold outbox; by rewrite Hws).
  assert (Hlook : exists oc',
    processors (upd_proc this (fun p => set_stats (inc_audiosSent (stats p)) p)
                  (upd_proc other (set_ws (Some sock')) w)) !! other = Some oc' /\
    outbox oc' = sent sock').
  { destruct (decide (this = other)) as [->|Hne].
    - rewrite !lookup_upd_proc_eq, Hoc. cbn. eexists; split; [reflexivity|].
      by rewrite outbox_inc_audiosSent, outbox_set_ws.
    - rewrite lookup_upd_proc_ne by done. rewrite lookup_upd_proc_eq, Hoc. cbn.
      eexists; split; [reflexivity|]. by rewrite outbox_set_ws. }
  destruct Hlook as (oc' & Hoc' & Hsent). exists oc'.
  split; [exact Hoc'|]. split; [by rewrite Hsent, Hout|].
  rewrite length_map, slices_length.
  rewrite List.filter_app, filter_isMedia_map, !List.filter_app, filter_isMark_map.
  cbn [List.filter isMedia isMark app]. rewrite app_nil_r, length_map, slices_length.
  done.
Qed.

Lemma C8_witness_160_bytes :
  let audio := repeat xff 160 in
  let w' := sendToOtherUser 1700000000000 0 (Some audio) (SlotRef 1) Scenario.twoLegs in
  exists oc oc', processors Scenario.twoLegs !! 1%nat = Some oc /\
    processors w' !! 1%nat = Some oc' /\
    outbox oc' = outbox oc
      ++ List.map (MediaMsg (streamSid oc))
           (slices (ceilDiv (4 * ceilDiv (length audio) 3) 160) 160
                   (Base64.encode audio) 0)
      ++ [MarkMsg (streamSid oc) ("audio_complete_" +:+ pretty 1700000000000)].
Proof.
  cbv zeta.
  assert (Hoc : exists oc, processors Scenario.twoLegs !! 1%nat = Some oc /\
                  ws oc = Some Scenario.openSocket).
  { vm_compute. eexists. split; reflexivity. }
  destruct Hoc as (oc & Hoc & Hws). exists oc.
  destruct (C8_sendToOtherUser_chunks_base64_text 160 1700000000000 0 1
              (repeat xff 160) Scenario.twoLegs oc Scenario.openSocket
              ltac:(lia) Hoc Hws eq_refl eq_refl) as (oc' & H1 & H2 & _).
  exists oc'. split; [exact Hoc|]. split; [exact H1|exact H2].
Defined.

(** A payload of 160 bytes sent with the frame size 160 gives two media
    messages, not [ceil(160 / 160) = 1]: its base64 text has 216
    characters. *)
Lemma C8_counterexample_160_bytes :
  let audio := repeat xff 160 in
  let w' := sendToOtherUser 1700000000000 0 (Some audio) (SlotRef 1) Scenario.twoLegs in
  length audio = 160%nat /\
  (outbox <$> processors Scenario.twoLegs !! 1%nat = Some []) /\
  (length <$> (List.filter isMedia <$> (outbox <$> processors w' !! 1%nat))) = Some 2%nat /\
  (length <$> (List.filter isMark <$> (outbox <$> processors w' !! 1%nat))) = Some 1%nat /\
  ceilDiv (length audio) 160 = 1%nat /\
  (length <$> (List.filter isMedia <$> (outbox <$> processors w' !! 1%nat)))
    <> Some (ceilDiv (length audio) 160).
Proof.
  cbv zeta. split_ands; try (vm_compute; reflexivity).
  vm_compute. discriminate.
Qed.

End SenderFacts.
(** ** The flush: entry, failures, single flight *)

Section FlushFacts.

(** Entered while busy, with an empty buffer, or with no language set,
    [processBuffer] leaves the processor as it is. *)
Lemma processBufferEnter_noop p :
  isProcessing p = true \/ audioBuffer p = [] \/ truthy (myLanguage p) = false ->
  processBufferEnter p = (p, NoOp).
Proof.
  unfold processBufferEnter. intros [H|[H|H]]; rewrite H; cbn;
    rewrite ?orb_true_r; reflexivity.
Qed.

(** Otherwise the prefix marks the processor busy, cancels the timer,
    takes the buffer out and resets the duration; a segment shorter than
    [minBufferDuration] is abandoned and the busy flag cleared again. *)
Lemma processBufferEnter_flush p :
  isProcessing p = false -> audioBuffer p <> [] -> truthy (myLanguage p) = true ->
  let p' := fst (processBufferEnter p) in
  let entry := snd (processBufferEnter p) in
  audioBuffer p' = [] /\ bufferDuration p' = 0 /\ silenceTimeout p' = None /\
  stats p' = stats p /\ myLanguage p' = myLanguage p /\
  minBufferDuration p' = minBufferDuration p /\
  maxBufferDuration p' = maxBufferDuration p /\
  (if bufferDuration p <? minBufferDuration p
   then entry = Abandoned /\ isProcessing p' = false
   else entry = Run (concat (audioBuffer p)) (bufferDuration p) /\
        isProcessing p' = true).
Proof.
  intros Hbusy Hbuf Hlang. unfold processBufferEnter.
  destruct p as [? ? ? lang ? ? ? buf dur ? minD busy timer ? ? ? ?]. cbn in *.
  subst busy. rewrite Hlang. destruct buf as [|x xs]; [done|]. cbn.
  destruct timer; cbn; destruct (dur <? minD); cbn; done.
Qed.

Lemma processBufferEnter_stats p : stats (fst (processBufferEnter p)) = stats p.
Proof.
  unfold processBufferEnter.
  destruct p as [? ? ? ? ? ? ? ? ? ? ? ? [h|] ? ? ? ?]; cbn;
    repeat case_match; reflexivity.
Qed.

Lemma processBufferEnter_not_busy p :
  isProcessing p = false ->
  isProcessing (fst (processBufferEnter p)) =
  match snd (processBufferEnter p) with Run _ _ => true | _ => false end.
Proof.
  unfold processBufferEnter.
  destruct p as [? ? ? lang ? ? ? buf dur ? minD ? [h|] ? ? ? ?]; cbn; intros ->;
    (destruct ((length buf =? 0)%nat || negb (truthy lang) || false);
     cbn; [reflexivity|]; destruct (dur <? minD); reflexivity).
Qed.

Lemma processBuffer_unfold ext this w p :
  processors w !! this = Some p ->
  processBuffer ext this w =
  let w1 := upd_proc this (fun _ => fst (processBufferEnter p)) w in
  match snd (processBufferEnter p) with
  | Run mulawAudio _ =>
      upd_proc this (set_isProcessing false) (fst (pipelineBody ext this mulawAudio w1))
  | _ => w1
  end.
Proof.
  intros Hp. unfold processBuffer. rewrite Hp.
  destruct (processBufferEnter p) as [p1 [| |audio ms]]; cbn [fst snd]; try reflexivity.
  pose proof (pipelineBody_never_throws ext this audio
                (upd_proc this (fun _ => p1) w)) as Hok.
  destruct (pipelineBody ext this audio (upd_proc this (fun _ => p1) w)) as [w2 o].
  cbn [fst snd] in *. by rewrite Hok.
Qed.

(** A stage whose service throws hands back its fallback value. *)
Lemma transcribe_failure ext pcm language e :
  recognize ext pcm (languageCodeOf language) = Throw e ->
  fst (transcribeAudioEnhanced ext pcm language) = None.
Proof. intros H. unfold transcribeAudioEnhanced. by rewrite H. Qed.

Lemma translate_failure ext text fromLanguage toLanguage e :
  translate ext text (beforeDash fromLanguage) (beforeDash toLanguage) = Throw e ->
  fst (translateText ext text (JStr fromLanguage) (JStr toLanguage)) = text.
Proof.
  intros H. unfold translateText, splitDash0.
  destruct (String.eqb _ _); [reflexivity|]. by rewrite H.
Qed.

Lemma synthesize_failure ext text language profile e1 e2 :
  synthesizeSpeech ext true text language profile = Throw e1 ->
  synthesizeSpeech ext false text language profile = Throw e2 ->
  fst (generateHumanLikeSpeech ext text (JStr language) profile) = None.
Proof.
  intros H1 H2. unfold generateHumanLikeSpeech, generateSimpleSpeech.
  by rewrite H1, H2.
Qed.

Lemma send_failure chunkSize timeNow audio sid sock :
  sendBudget sock = Some O ->
  sendAll chunkSize timeNow audio sid sock = (sock, false).
Proof.
  intros H. unfold sendAll. cbn [sendChunks].
  destruct (0 <? String.length (Base64.encode audio))%nat.
  - unfold ws_send. by rewrite H.
  - unfold ws_send. by rewrite H.
Qed.

(** C7 (as amended).  A call of [processBuffer] always returns: the [try]
    block is never left by an exception, because every stage catches its
    own failure and hands back a fallback (no transcript, the untranslated
    text, no audio, an unfinished send).  Such failures leave
    [stats.errors] as it was.  The processor is not busy after the call
    whenever the call got past its entry test, and whenever it was not
    busy before. *)
Theorem C7_processBuffer_absorbs_stage_failures
    (ext : Ext) (this : nat) (w : World) (p : Processor) :
  processors w !! this = Some p ->
  (forall mulawAudio w0, snd (pipelineBody ext this mulawAudio w0) = Ok tt) /\
  (forall pcm language e,
     recognize ext pcm (languageCodeOf language) = Throw e ->
     fst (transcribeAudioEnhanced ext pcm language) = None) /\
  (forall text fromLanguage toLanguage e,
     translate ext text (beforeDash fromLanguage) (beforeDash toLanguage) = Throw e ->
     fst (translateText ext text (JStr fromLanguage) (JStr toLanguage)) = text) /\
  (forall text language profile e1 e2,
     synthesizeSpeech ext true text language profile = Throw e1 ->
     synthesizeSpeech ext false text language profile = Throw e2 ->
     fst (generateHumanLikeSpeech ext text (JStr language) profile) = None) /\
  (forall audio sid sock,
     sendBudget sock = Some O -> sendAll 160 (now ext) audio sid sock = (sock, false)) /\
  exists p', processors (processBuffer ext this w) !! this = Some p' /\
    errors (stats p') = errors (stats p) /\
    (snd (processBufferEnter p) <> NoOp -> isProcessing p' = false) /\
    (isProcessing p = false -> isProcessing p' = false).
Proof.
  intros Hp.
  split; [intros; apply pipelineBody_never_throws|].
  split; [intros; by eapply transcribe_failure|].
  split; [intros; by eapply translate_failure|].
  split; [intros; by eapply synthesize_failure|].
  split; [intros; by apply send_failure|].
  rewrite (processBuffer_unfold ext this w p Hp). cbv zeta.
  pose proof (processBufferEnter_stats p) as Hstats.
  pose proof (processBufferEnter_not_busy p) as Hbusy.
  pose proof (processBufferEnter_noop p) as Hnoop.
  destruct (processBufferEnter p) as [p1 entry] eqn:Henter. cbn [fst snd] in *.
  set (w1 := upd_proc this (fun _ => p1) w).
  assert (H1 : processors w1 !! this = Some p1)
    by (unfold w1; rewrite lookup_upd_proc_eq, Hp; reflexivity).
  destruct entry as [| |audio ms].
  - exists p1. split; [exact H1|]. split; [by rewrite Hstats|].
    split; [done|]. intros Hb. rewrite (Hbusy Hb). reflexivity.
  - exists p1. split; [exact H1|]. split; [by rewrite Hstats|].
    assert (Hb : isProcessing p = false).
    { destruct (isProcessing p) eqn:E; [|reflexivity].
      specialize (Hnoop (or_introl eq_refl)). discriminate Hnoop. }
    rewrite (Hbusy Hb). done.
  - pose proof (stable_pipelineBody ext this audio w1 this) as Hview.
    rewrite H1 in Hview.
    destruct (processors (fst (pipelineBody ext this audio w1)) !! this) as [q|] eqn:Hq;
      cbn in Hview; [|discriminate Hview].
    apply (inj Some) in Hview.
    exists (set_isProcessing false q).
    split; [by rewrite lookup_upd_proc_eq, Hq|].
    assert (He : errors (stats q) = errors (stats p1))
      by (apply (f_equal snd) in Hview; exact Hview).
    split; [destruct q; cbn in *; by rewrite He, Hstats|].
    split; intros _; by destruct q.
Qed.

Lemma C7_witness_half_second_flush :
  exists p, processors Scenario.halfSecond !! 0%nat = Some p /\
  exists p',
    processors (processBuffer Scenario.servicesDown 0 Scenario.halfSecond) !! 0%nat
      = Some p' /\
    errors (stats p') = errors (stats p) /\
    (snd (processBufferEnter p) <> NoOp -> isProcessing p' = false) /\
    (isProcessing p = false -> isProcessing p' = false).
Proof.
  destruct (processors Scenario.halfSecond !! 0%nat) as [p|] eqn:Hp;
    [|vm_compute in Hp; discriminate Hp].
  exists p. split; [reflexivity|].
  destruct (C7_processBuffer_absorbs_stage_failures
              Scenario.servicesDown 0 Scenario.halfSecond p Hp)
    as (_ & _ & _ & _ & _ & Hex).
  exact Hex.
Defined.

(** With the transcription service down, the flush of a 500 ms segment
    calls the service, the call throws, and [stats.errors] stays 0. *)
Lemma C7_counterexample_failure_not_counted :
  let w := Scenario.halfSecond in
  let w' := Server.handle (Server.SilenceTimer 0 Scenario.servicesDown) w in
  (exists pcm, extCalls w' = [CallRecognize pcm "en-US"] /\
     recognize Scenario.servicesDown pcm (JStr "en-US") = Throw "UNAVAILABLE") /\
  (errors <$> (stats <$> processors w !! 0%nat)) = Some 0 /\
  (errors <$> (stats <$> processors w' !! 0%nat)) = Some 0 /\
  (errors <$> (stats <$> processors w' !! 0%nat)) <> Some (0 + 1) /\
  (isProcessing <$> processors w' !! 0%nat) = Some false.
Proof.
  cbv zeta. split; [|split_ands; try (vm_compute; reflexivity); vm_compute; discriminate].
  eexists. split; [vm_compute; reflexivity|reflexivity].
Qed.

End FlushFacts.
(** ** Single flight *)

Section SingleFlight.

Lemma upd_proc_same this p w :
  processors w !! this = Some p -> upd_proc this (fun _ => p) w = w.
Proof.
  intros Hp. destruct w as [m procs tr calls]. unfold upd_proc. cbn in *. f_equal.
  apply map_eq. intros i. rewrite lookup_alter.
  case_decide; [subst; by rewrite Hp|reflexivity].
Qed.

(** A call that stops at the entry test changes nothing at all, and one
    that abandons a short segment makes no external call. *)
Lemma processBuffer_noop ext this w p :
  processors w !! this = Some p ->
  isProcessing p = true \/ audioBuffer p = [] \/ truthy (myLanguage p) = false ->
  processBuffer ext this w = w.
Proof.
  intros Hp Hguard. rewrite (processBuffer_unfold ext this w p Hp).
  rewrite (processBufferEnter_noop p Hguard). cbn. by apply upd_proc_same.
Qed.

Lemma processBuffer_short_segment ext this w p :
  processors w !! this = Some p ->
  snd (processBufferEnter p) = Abandoned ->
  processBuffer ext this w = upd_proc this (fun _ => fst (processBufferEnter p)) w /\
  extCalls (processBuffer ext this w) = extCalls w.
Proof.
  intros Hp Hab. rewrite (processBuffer_unfold ext this w p Hp). cbv zeta.
  rewrite Hab. split; [reflexivity|apply extCalls_upd_proc].
Qed.

(** A pipeline that runs starts from the swapped-out state and, among the
    buffering fields, only clears the busy flag when it ends. *)
Lemma processBuffer_run_frame ext this w p mulawAudio ms :
  processors w !! this = Some p ->
  processBufferEnter p = (fst (processBufferEnter p), Run mulawAudio ms) ->
  exists q, processors (processBuffer ext this w) !! this = Some q /\
    isProcessing q = false /\
    stableView q = stableView (fst (processBufferEnter p)).
Proof.
  intros Hp Hrun. rewrite (processBuffer_unfold ext this w p Hp). cbv zeta.
  rewrite Hrun. cbn [fst snd].
  set (p1 := fst (processBufferEnter p)).
  set (w1 := upd_proc this (fun _ => p1) w).
  assert (H1 : processors w1 !! this = Some p1)
    by (unfold w1; rewrite lookup_upd_proc_eq, Hp; reflexivity).
  pose proof (stable_pipelineBody ext this mulawAudio w1 this) as Hview.
  rewrite H1 in Hview.
  destruct (processors (fst (pipelineBody ext this mulawAudio w1)) !! this) as [q|] eqn:Hq;
    cbn in Hview; [|discriminate Hview].
  apply (inj Some) in Hview.
  exists (set_isProcessing false q). rewrite lookup_upd_proc_eq, Hq.
  split; [reflexivity|]. split; [by destruct q|].
  by rewrite stable_set_isProcessing.
Qed.

Lemma flush_busy l : isProcessing (proc l) = true -> flush l = l.
Proof.
  intros Hb. unfold flush. rewrite processBufferEnter_noop by auto. by destruct l.
Qed.

(** A frame that arrives while the leg is busy is appended to the buffer
    and does not flush. *)
Lemma handleMediaSync_busy payload p :
  isProcessing p = true -> truthy (myLanguage p) = true ->
  snd (handleMediaSync payload p) = false /\
  audioBuffer (fst (handleMediaSync payload p)) = audioBuffer p ++ [payload] /\
  bufferDuration (fst (handleMediaSync payload p)) = bufferDuration p + 20 /\
  isProcessing (fst (handleMediaSync payload p)) = true /\
  myLanguage (fst (handleMediaSync payload p)) = myLanguage p.
Proof.
  intros Hb Hl. unfold handleMediaSync. rewrite Hl. cbn [negb].
  destruct p as [? ? ? ? ? ? ? ? ? ? ? busy [h|] [] ? ? ?]; cbn in *; subst busy;
    rewrite andb_false_r; cbn; done.
Qed.

Lemma handleMediaSync_isProcessing payload p :
  isProcessing (fst (handleMediaSync payload p)) = isProcessing p.
Proof.
  unfold handleMediaSync.
  destruct p as [? ? ? ? ? ? ? ? ? ? ? busy [h|] [] ? ? ?]; cbn;
    repeat case_match; reflexivity.
Qed.

Lemma legStep_busy e l :
  isTrigger e = true ->
  isProcessing (proc l) = true -> truthy (myLanguage (proc l)) = true ->
  inFlight (legStep e l) = inFlight l /\
  launched (legStep e l) = launched l /\
  isProcessing (proc (legStep e l)) = true /\
  myLanguage (proc (legStep e l)) = myLanguage (proc l) /\
  audioBuffer (proc (legStep e l)) = audioBuffer (proc l) ++ framesOf [e] /\
  bufferDuration (proc (legStep e l)) =
    bufferDuration (proc l) + 20 * Z.of_nat (length (framesOf [e])).
Proof.
  intros Hd Hb Hl. destruct e as [payload| | |i|sid st|how]; try discriminate;
    cbn [legStep].
  - destruct (handleMediaSync_busy payload (proc l) Hb Hl) as (H1 & H2 & H3 & H4 & H5).
    destruct (handleMediaSync payload (proc l)) as [p' now]. cbn [fst snd] in *.
    subst now. cbn. rewrite H3. split_ands; try done; lia.
  - rewrite ?flush_busy by done. destruct (silenceGuard (proc l));
      cbn; rewrite app_nil_r; split_ands; try done; lia.
  - rewrite flush_busy by done. cbn. rewrite app_nil_r. split_ands; try done; lia.
Qed.

Lemma framesOf_cons e es : framesOf (e :: es) = framesOf [e] ++ framesOf es.
Proof. destruct e; reflexivity. Qed.

(** While a pipeline is in flight, no trace of frames, timer firings and
    flush calls starts another one; the frames pile up in the buffer. *)
Lemma legRun_busy es l :
  Forall (fun e => isTrigger e = true) es ->
  isProcessing (proc l) = true -> truthy (myLanguage (proc l)) = true ->
  inFlight (legRun es l) = inFlight l /\
  launched (legRun es l) = launched l /\
  isProcessing (proc (legRun es l)) = true /\
  myLanguage (proc (legRun es l)) = myLanguage (proc l) /\
  audioBuffer (proc (legRun es l)) = audioBuffer (proc l) ++ framesOf es /\
  bufferDuration (proc (legRun es l)) =
    bufferDuration (proc l) + 20 * Z.of_nat (length (framesOf es)).
Proof.
  intros Hes. revert l. induction Hes as [|e es He Hes IH]; intros l Hb Hl.
  - cbn. rewrite app_nil_r. split_ands; try done; lia.
  - destruct (legStep_busy e l He Hb Hl) as (H1 & H2 & H3 & H4 & H5 & H6).
    rewrite <- H4 in Hl.
    destruct (IH (legStep e l) H3 Hl) as (I1 & I2 & I3 & I4 & I5 & I6).
    change (legRun (e :: es) l) with (legRun es (legStep e l)).
    rewrite framesOf_cons, length_app, I1, I2, I3, I4, I5, I6, H1, H2, H4, H5, H6.
    rewrite <- app_assoc. split_ands; try done; lia.
Qed.

Lemma singleFlight_flush l : singleFlight l -> singleFlight (flush l).
Proof.
  unfold singleFlight. intros [Hbusy Hidle]. unfold flush.
  destruct (isProcessing (proc l)) eqn:Eb.
  - rewrite processBufferEnter_noop by auto. cbn. rewrite Eb. split; [auto|congruence].
  - pose proof (processBufferEnter_not_busy (proc l) Eb) as Hn.
    destruct (processBufferEnter (proc l)) as [p' entry]. cbn [fst snd] in Hn.
    rewrite (Hidle eq_refl).
    destruct entry; cbn; rewrite Hn; split; intros; done.
Qed.

Lemma endLeg_idle how p : isProcessing (endLeg how p) = false.
Proof.
  unfold endLeg, cleanupFields, Server.markClosed.
  destruct p as [[sock|] ? ? ? ? ? uid ? ? ? ? ? [h|] ? ? ? ?], how; cbn;
    destruct (truthy uid); reflexivity.
Qed.

Lemma singleFlight_step e l :
  endsLeg e = false \/ inFlight l = [] ->
  singleFlight l -> singleFlight (legStep e l).
Proof.
  intros He Hl. destruct e as [payload| | |i|sid st|how]; cbn [legStep].
  - pose proof (handleMediaSync_isProcessing payload (proc l)) as Hsame.
    destruct (handleMediaSync payload (proc l)) as [p' now]. cbn [fst] in Hsame.
    assert (Hl' : singleFlight {| proc := p'; inFlight := inFlight l;
                                  launched := launched l |})
      by (unfold singleFlight in *; cbn; rewrite Hsame; exact Hl).
    destruct now; [by apply singleFlight_flush|exact Hl'].
  - destruct (silenceGuard (proc l)); [by apply singleFlight_flush|exact Hl].
  - by apply singleFlight_flush.
  - clear He. destruct (inFlight l !! i) as [seg|] eqn:Ei; [|exact Hl].
    unfold singleFlight in *. destruct Hl as [Hbusy Hidle]. cbn [proc inFlight].
    destruct (isProcessing (proc l)) eqn:Eb.
    + specialize (Hbusy eq_refl).
      destruct (inFlight l) as [|x [|y rest]]; try discriminate Hbusy.
      destruct i as [|i]; [|discriminate Ei].
      split; [by destruct (proc l)|reflexivity].
    + rewrite (Hidle eq_refl) in Ei. discriminate Ei.
  - unfold singleFlight in *. cbn [proc inFlight].
    replace (isProcessing (handleStartFields sid st (proc l)))
      with (isProcessing (proc l)); [exact Hl|].
    by destruct (proc l), st as [[? [?|]]|].
  - destruct He as [He|He]; [discriminate He|].
    unfold singleFlight. cbn [proc inFlight]. rewrite endLeg_idle, He.
    split; [discriminate|reflexivity].
Qed.

(** At most one pipeline is in flight at any time, and one is in flight
    exactly while the leg is busy, over every trace of frames, timer
    callbacks, flush calls, pipeline completions, start events and
    teardowns that find no pipeline in flight. *)
Lemma singleFlight_run es l :
  endsOnlyIdle es l = true ->
  singleFlight l -> singleFlight (legRun es l).
Proof.
  revert l. induction es as [|e es IH]; intros l Hes Hl; [exact Hl|].
  cbn [endsOnlyIdle] in Hes. apply andb_true_iff in Hes as [He Hes].
  apply (IH (legStep e l) Hes), singleFlight_step; [|exact Hl].
  apply orb_true_iff in He as [He|He].
  - left. by destruct (endsLeg e).
  - right. apply Nat.eqb_eq in He. by destruct (inFlight l).
Qed.

Lemma isTrigger_not_end e : isTrigger e = true -> endsLeg e = false.
Proof. by destruct e. Qed.

Lemma triggers_end_nothing es l :
  Forall (fun e => isTrigger e = true) es -> endsOnlyIdle es l = true.
Proof.
  intros Hes. revert l. induction Hes as [|e es He Hes IH]; intros l; [reflexivity|].
  cbn [endsOnlyIdle]. by rewrite (isTrigger_not_end e He), IH.
Qed.

Lemma processBufferEnter_minBufferDuration p :
  minBufferDuration (fst (processBufferEnter p)) = minBufferDuration p.
Proof.
  unfold processBufferEnter.
  destruct p as [? ? ? lang ? ? ? buf dur ? minD ? [h|] ? ? ? ?]; cbn;
    (destruct ((length buf =? 0)%nat || negb (truthy lang) || _);
     cbn; [reflexivity|]; destruct (dur <? minD); reflexivity).
Qed.

Lemma handleMediaSync_minBufferDuration payload p :
  minBufferDuration (fst (handleMediaSync payload p)) = minBufferDuration p.
Proof.
  unfold handleMediaSync.
  destruct p as [? ? ? ? ? ? ? ? ? ? ? busy [h|] [] ? ? ?]; cbn;
    repeat case_match; reflexivity.
Qed.

Lemma flush_minBufferDuration l :
  minBufferDuration (proc (flush l)) = minBufferDuration (proc l).
Proof.
  unfold flush. pose proof (processBufferEnter_minBufferDuration (proc l)) as H.
  destruct (processBufferEnter (proc l)) as [p' []]; exact H.
Qed.

Lemma legRun_minBufferDuration es l :
  minBufferDuration (proc (legRun es l)) = minBufferDuration (proc l).
Proof.
  revert l. induction es as [|e es IH]; intros l; [reflexivity|].
  change (legRun (e :: es) l) with (legRun es (legStep e l)). rewrite IH.
  destruct e as [payload| | |i|sid st|how]; cbn [legStep].
  - pose proof (handleMediaSync_minBufferDuration payload (proc l)) as H.
    destruct (handleMediaSync payload (proc l)) as [p' []]; cbn [fst] in H;
      [by rewrite flush_minBufferDuration|exact H].
  - destruct (silenceGuard (proc l)); [apply flush_minBufferDuration|reflexivity].
  - apply flush_minBufferDuration.
  - destruct (inFlight l !! i); [|reflexivity]. cbn. by destruct (proc l).
  - cbn. by destruct (proc l), st as [[? [?|]]|].
  - cbn. unfold endLeg, cleanupFields, Server.markClosed.
    destruct (proc l) as [[sock|] ? ? ? ? ? uid ? ? ? ? ? [h|] ? ? ? ?], how; cbn;
      destruct (truthy uid); reflexivity.
Qed.

(** When the pipeline in flight ends, the leg is idle again, and the next
    flush call hands the frames that arrived meanwhile to a new pipeline
    (or drops them if they are shorter than [minBufferDuration]). *)
Lemma legRun_done_then_flush es l :
  singleFlight l ->
  Forall (fun e => isTrigger e = true) es ->
  isProcessing (proc l) = true -> truthy (myLanguage (proc l)) = true ->
  audioBuffer (proc l) ++ framesOf es <> [] ->
  let segment := concat (audioBuffer (proc l) ++ framesOf es) in
  let duration := bufferDuration (proc l) + 20 * Z.of_nat (length (framesOf es)) in
  let l1 := legStep (PipelineDone 0) (legRun es l) in
  let l2 := legStep FlushTrigger l1 in
  isProcessing (proc l1) = false /\ inFlight l1 = [] /\ launched l1 = launched l /\
  (if duration <? minBufferDuration (proc l)
   then inFlight l2 = [] /\ launched l2 = launched l
   else inFlight l2 = [segment] /\ launched l2 = launched l ++ [segment]).
Proof.
  intros Hsf Hes Hb Hl Hne. cbv zeta.
  destruct (legRun_busy es l Hes Hb Hl) as (I1 & I2 & I3 & I4 & I5 & I6).
  pose proof (singleFlight_run es l (triggers_end_nothing es l Hes) Hsf) as [Hone _].
  specialize (Hone I3).
  pose proof (legRun_minBufferDuration es l) as Hmin.
  set (l' := legRun es l) in *.
  destruct (inFlight l') as [|seg [|]] eqn:Ei; try discriminate.
  cbn [legStep]. rewrite Ei. cbn [lookup list_lookup delete list_delete].
  cbn [proc inFlight launched].
  assert (Hidle : isProcessing (set_isProcessing false (proc l')) = false)
    by (by destruct (proc l')).
  split; [exact Hidle|]. split; [reflexivity|]. split; [exact I2|].
  unfold flush. cbn [proc inFlight launched].
  set (p := set_isProcessing false (proc l')) in *.
  assert (Hbuf : audioBuffer p = audioBuffer (proc l) ++ framesOf es)
    by (unfold p; rewrite <- I5; by destruct (proc l')).
  assert (Hdur : bufferDuration p =
                 bufferDuration (proc l) + 20 * Z.of_nat (length (framesOf es)))
    by (unfold p; rewrite <- I6; by destruct (proc l')).
  assert (Hlang : truthy (myLanguage p) = true)
    by (unfold p; rewrite <- I4 in Hl; by destruct (proc l')).
  assert (Hminp : minBufferDuration p = minBufferDuration (proc l))
    by (unfold p; rewrite <- Hmin; by destruct (proc l')).
  assert (Hne' : audioBuffer p <> []) by (by rewrite Hbuf).
  destruct (processBufferEnter_flush p Hidle Hne' Hlang)
    as (_ & _ & _ & _ & _ & _ & _ & Hentry).
  rewrite Hdur, Hminp, Hbuf in Hentry.
  destruct (processBufferEnter p) as [p' entry]. cbn [fst snd] in Hentry.
  destruct (_ <? _); destruct Hentry as [-> _]; cbn; rewrite I2; done.
Qed.

(** C5 (as amended).  Entered while the processor is busy, while the
    buffer is empty, or while the leg has no language, [processBuffer]
    returns at once: no pipeline starts and nothing is modified.
    Otherwise it marks the processor busy, takes the buffer out and
    resets the duration before the pipeline runs, and it abandons a
    segment shorter than [minBufferDuration] with no external call and the
    busy flag cleared.  Hence, as long as no stop, close or error event
    tears the leg down while a pipeline is in flight, a leg never has two
    pipelines in flight; and while one is in flight on a leg whose language
    is set, frames, timer firings and flush calls start no other, the
    frames pile up in a fresh buffer, and that buffer goes to a pipeline
    only after the first has ended. *)
Theorem C5_flush_is_single_flight :
  (forall p,
     isProcessing p = true \/ audioBuffer p = [] \/ truthy (myLanguage p) = false ->
     processBufferEnter p = (p, NoOp)) /\
  (forall ext this w p,
     processors w !! this = Some p ->
     isProcessing p = true \/ audioBuffer p = [] \/ truthy (myLanguage p) = false ->
     processBuffer ext this w = w) /\
  (forall p,
     isProcessing p = false -> audioBuffer p <> [] -> truthy (myLanguage p) = true ->
     let p' := fst (processBufferEnter p) in
     let entry := snd (processBufferEnter p) in
     audioBuffer p' = [] /\ bufferDuration p' = 0 /\ silenceTimeout p' = None /\
     (if bufferDuration p <? minBufferDuration p
      then entry = Abandoned /\ isProcessing p' = false
      else entry = Run (concat (audioBuffer p)) (bufferDuration p) /\
           isProcessing p' = true)) /\
  (forall ext this w p,
     processors w !! this = Some p ->
     let w1 := upd_proc this (fun _ => fst (processBufferEnter p)) w in
     processBuffer ext this w =
     match snd (processBufferEnter p) with
     | Run mulawAudio _ =>
         upd_proc this (set_isProcessing false) (fst (pipelineBody ext this mulawAudio w1))
     | _ => w1
     end /\
     (snd (processBufferEnter p) = Abandoned ->
      extCalls (processBuffer ext this w) = extCalls w)) /\
  (forall l es,
     endsOnlyIdle es l = true ->
     singleFlight l -> singleFlight (legRun es l)) /\
  (forall l es,
     singleFlight l ->
     Forall (fun e => isTrigger e = true) es ->
     isProcessing (proc l) = true -> truthy (myLanguage (proc l)) = true ->
     (length (inFlight (legRun es l)) = 1%nat /\
      inFlight (legRun es l) = inFlight l /\
      launched (legRun es l) = launched l /\
      audioBuffer (proc (legRun es l)) = audioBuffer (proc l) ++ framesOf es /\
      bufferDuration (proc (legRun es l)) =
        bufferDuration (proc l) + 20 * Z.of_nat (length (framesOf es))) /\
     (audioBuffer (proc l) ++ framesOf es <> [] ->
      let segment := concat (audioBuffer (proc l) ++ framesOf es) in
      let duration := bufferDuration (proc l) + 20 * Z.of_nat (length (framesOf es)) in
      let l1 := legStep (PipelineDone 0) (legRun es l) in
      let l2 := legStep FlushTrigger l1 in
      isProcessing (proc l1) = false /\ inFlight l1 = [] /\ launched l1 = launched l /\
      (if duration <? minBufferDuration (proc l)
       then inFlight l2 = [] /\ launched l2 = launched l
       else inFlight l2 = [segment] /\ launched l2 = launched l ++ [segment]))).
Proof.
  split; [exact processBufferEnter_noop|].
  split; [exact processBuffer_noop|].
  split.
  { intros p Hb Hbuf Hl.
    destruct (processBufferEnter_flush p Hb Hbuf Hl) as (H1 & H2 & H3 & _ & _ & _ & _ & H4).
    cbv zeta. auto. }
  split.
  { intros ext this w p Hp. cbv zeta. split.
    - apply (processBuffer_unfold ext this w p Hp).
    - intros Hab. by apply (processBuffer_short_segment ext this w p). }
  split; [intros l es; apply singleFlight_run|].
  intros l es Hsf Hes Hb Hl.
  destruct (legRun_busy es l Hes Hb Hl) as (I1 & I2 & I3 & I4 & I5 & I6).
  split.
  - split_ands; try assumption.
    rewrite I1. by apply Hsf.
  - intros Hne. by apply legRun_done_then_flush.
Qed.

Lemma C5_witness_two_triggers_in_flight :
  let l := legStep TimerFires Scenario.callerLeg in
  let es := [Frame Scenario.frame; FlushTrigger; TimerFires; Frame Scenario.frame] in
  launched l = [concat (repeat Scenario.frame 25)] /\
  length (inFlight (legRun es l)) = 1%nat /\
  launched (legRun es l) = launched l /\
  audioBuffer (proc (legRun es l)) = audioBuffer (proc l) ++ framesOf es /\
  inFlight (legStep (PipelineDone 0) (legRun es l)) = [].
Proof.
  cbv zeta.
  set (l := legStep TimerFires Scenario.callerLeg).
  set (es := [Frame Scenario.frame; FlushTrigger; TimerFires; Frame Scenario.frame]).
  assert (Hb : isProcessing (proc l) = true) by (vm_compute; reflexivity).
  assert (Hone : length (inFlight l) = 1%nat) by (vm_compute; reflexivity).
  assert (Hsf : singleFlight l).
  { split; [intros _; exact Hone|]. rewrite Hb. discriminate. }
  assert (Hes : Forall (fun e => isTrigger e = true) es)
    by (repeat constructor).
  assert (Hl : truthy (myLanguage (proc l)) = true) by (vm_compute; reflexivity).
  assert (Hne : audioBuffer (proc l) ++ framesOf es <> [])
    by (intros H; apply (f_equal length) in H; vm_compute in H; discriminate H).
  destruct C5_flush_is_single_flight as (_ & _ & _ & _ & _ & Htrace).
  destruct (Htrace l es Hsf Hes Hb Hl) as ((H1 & H2 & H3 & H4 & H5) & Hdone).
  destruct (Hdone Hne) as (_ & D2 & _).
  split; [vm_compute; reflexivity|].
  split; [exact H1|]. split; [exact H3|]. split; [exact H4|exact D2].
Defined.

(** A leg whose language was cleared by a second start event while a
    frame was buffered: it is not busy and its buffer is not empty, yet
    [processBuffer] neither marks it busy nor takes the buffer out. *)
Lemma C5_counterexample_language_unset :
  exists p, processors Scenario.languageLost !! 0%nat = Some p /\
    isProcessing p = false /\ audioBuffer p = [Scenario.frame] /\
    myLanguage p = JUndefined /\
    processBufferEnter p = (p, NoOp) /\
    processors (processBuffer Scenario.servicesDown 0 Scenario.languageLost) !! 0%nat
      = Some p /\
    ~ (isProcessing (fst (processBufferEnter p)) = true /\
       audioBuffer (fst (processBufferEnter p)) = []).
Proof.
  eexists. split; [vm_compute; reflexivity|].
  split_ands; try (vm_compute; reflexivity).
  vm_compute. intros [H _]. discriminate H.
Qed.

End SingleFlight.
(** ** The cut pipeline is the pipeline *)

Section Agreement.

Lemma logCalls_nil w : logCalls [] w = w.
Proof. destruct w. unfold logCalls. cbn. by rewrite app_nil_r. Qed.

Lemma logCalls_app a b w : logCalls b (logCalls a w) = logCalls (a ++ b) w.
Proof. destruct w. unfold logCalls. cbn. by rewrite app_assoc. Qed.

Lemma lookup_logCalls calls w ref : processors (logCalls calls w) !! ref = processors w !! ref.
Proof. by rewrite processors_logCalls. Qed.

Lemma lookup_addTranslation r u d w ref :
  processors (addTranslation r u d w) !! ref = processors w !! ref.
Proof. by rewrite processors_addTranslation. Qed.

Lemma identity_set_voiceProfiles c p :
  roomId (set_voiceProfiles c p) = roomId p /\
  userType (set_voiceProfiles c p) = userType p /\
  myLanguage (set_voiceProfiles c p) = myLanguage p.
Proof. by destruct p. Qed.

Lemma identity_inc_transcriptions p :
  roomId (set_stats (inc_transcriptions (stats p)) p) = roomId p /\
  userType (set_stats (inc_transcriptions (stats p)) p) = userType p /\
  myLanguage (set_stats (inc_transcriptions (stats p)) p) = myLanguage p.
Proof. by destruct p as [? ? ? ? ? ? ? ? ? ? ? ? ? [] ? ? ?]. Qed.

Lemma drain_done fuel ext this w : Async.drain fuel ext this (w, None) = w.
Proof. by destruct fuel. Qed.

Lemma drain_resume fuel ext this w stage r :
  Async.resume (now ext) this stage (Async.answerOf ext stage) w = Some r ->
  Async.drain (S fuel) ext this (w, Some stage) = Async.drain fuel ext this r.
Proof. intros H. cbn [Async.drain]. by rewrite H. Qed.

(** The speech stage. *)
Lemma drain_speech ext this vp text language other w fuel :
  Async.drain (S (S fuel)) ext this (Async.callPremium this vp text language other w)
  = upd_proc this (set_isProcessing false)
      (fst (let '(translatedAudio, calls) :=
              generateHumanLikeSpeech ext text language vp in
            let w := logCalls calls w in
            match translatedAudio with
            | None => (upd_proc this (set_isProcessing false) w, Ok tt)
            | Some _ =>
                (sendToOtherUser (now ext) this translatedAudio (SlotRef other) w,
                 Ok tt)
            end)).
Proof.
  unfold Async.callPremium, Async.callSimple, generateHumanLikeSpeech,
    generateSimpleSpeech.
  destruct language as [| |lang]; cbn [Async.drain fst];
    try (by rewrite logCalls_nil).
  cbn [Async.resume Async.answerOf].
  destruct (synthesizeSpeech ext true text lang vp) as [[audio|]|e];
    cbn [Async.deliver Async.drain Async.callSimple Async.resume Async.answerOf fst];
    try reflexivity.
  all: rewrite logCalls_app; cbn [app].
  all: destruct (synthesizeSpeech ext false text lang vp) as [[audio2|]|e2];
    unfold Async.deliver; rewrite drain_done; reflexivity.
Qed.

(** From the translated text on. *)
Lemma drain_translated ext this vp transcript other otherLanguage text w p oc fuel :
  processors w !! this = Some p -> processors w !! other = Some oc ->
  Async.drain (S (S fuel)) ext this
    (Async.continueTranslated (now ext) this vp transcript other otherLanguage text w)
  = upd_proc this (set_isProcessing false)
      (fst (let w := upd_proc this (fun q => set_stats (inc_translations (stats q)) q) w in
            let w := addTranslation (roomId p) (userType oc)
                       {| originalText := transcript; translatedText := text;
                          fromLanguage := myLanguage p; toLanguage := otherLanguage;
                          isIncoming := true; translationTimestamp := now ext |} w in
            let '(translatedAudio, calls) :=
              generateHumanLikeSpeech ext text otherLanguage vp in
            let w := logCalls calls w in
            match translatedAudio with
            | None => (upd_proc this (set_isProcessing false) w, Ok tt)
            | Some _ =>
                (sendToOtherUser (now ext) this translatedAudio (SlotRef other) w,
                 Ok tt)
            end)).
Proof.
  intros Hp Hoc. unfold Async.continueTranslated. rewrite Hp, Hoc. cbv zeta.
  apply drain_speech.
Qed.

(** The pieces of [Async], run one after the other with the answers of
    [ext], do what the [try] block of [processBuffer] followed by its
    [finally] does. *)
Lemma uninterrupted_pipeline_agrees ext this mulawAudio w p :
  processors w !! this = Some p ->
  Async.drain 4 ext this (Async.begin (now ext) this mulawAudio w)
  = upd_proc this (set_isProcessing false) (fst (pipelineBody ext this mulawAudio w)).
Proof.
  intros Hp. unfold Async.begin, pipelineBody. rewrite Hp.
  destruct (decodeMulaw_total mulawAudio) as (pcm & -> & _).
  destruct (VoiceAnalyzer.analyzeVoice _ _ _ _) as [vp cache].
  unfold transcribeAudioEnhanced, try_catch, bindE.
  cbv zeta. erewrite drain_resume by reflexivity.
  set (w1 := logCalls _ (upd_proc this (set_voiceProfiles cache) w)).
  assert (H1 : processors w1 !! this = Some (set_voiceProfiles cache p)).
  { unfold w1. rewrite lookup_logCalls, lookup_upd_proc_eq, Hp. reflexivity. }
  unfold Async.continueRecognized. rewrite H1.
  destruct (identity_set_voiceProfiles cache p) as (-> & -> & ->).
  assert (Hdone : forall v, Async.drain 3 ext this (Async.abandon this v, None)
                           = upd_proc this (set_isProcessing false)
                               (fst (upd_proc this (set_isProcessing false) v, Ok tt)))
    by reflexivity.
  destruct (recognize ext pcm (languageCodeOf (myLanguage p))) as [[[|r rs]|]|e];
    cbn [nonEmpty]; try apply Hdone.
  destruct (String.eqb (joinSpace (omap nonEmpty (r :: rs))) "");
    [apply Hdone|].
  set (transcript := joinSpace (omap nonEmpty (r :: rs))).
  destruct (jsLength (trim transcript) <? 2)%nat; [apply Hdone|].
  set (w2 := addTranslation _ _ _ _).
  destruct (sessions_get (roomId p) (activeSessions w2)) as [session|]; [|apply Hdone].
  destruct (otherSlot (userType p) session) as [| |other]; try apply Hdone.
  destruct (processors w2 !! other) as [oc|] eqn:Hoc; [|apply Hdone].
  destruct (negb (truthy (myLanguage oc))); [apply Hdone|].
  assert (H2 : processors w2 !! this
               = Some (set_stats (inc_transcriptions (stats (set_voiceProfiles cache p)))
                         (set_voiceProfiles cache p))).
  { unfold w2. rewrite lookup_addTranslation, lookup_upd_proc_eq, H1. reflexivity. }
  assert (Hid : forall q,
            q = set_stats (inc_transcriptions (stats (set_voiceProfiles cache p)))
                  (set_voiceProfiles cache p) ->
            roomId q = roomId p /\ myLanguage q = myLanguage p).
  { intros q ->. destruct (identity_inc_transcriptions (set_voiceProfiles cache p))
      as (-> & _ & ->). by destruct (identity_set_voiceProfiles cache p) as (-> & _ & ->). }
  destruct (Hid _ eq_refl) as [Hroom Hlang].
  unfold translateText.
  destruct (splitDash0 (myLanguage p)) as [from|e1];
    [destruct (splitDash0 (myLanguage oc)) as [to|e2];
       [destruct (String.eqb from to)|]|].
  - erewrite drain_translated; [|exact H2|exact Hoc].
    rewrite Hroom, Hlang. by rewrite logCalls_nil.
  - erewrite drain_resume by reflexivity. cbn [Async.answerOf].
    erewrite drain_translated;
      [|rewrite lookup_logCalls; exact H2|rewrite lookup_logCalls; exact Hoc].
    rewrite Hroom, Hlang. reflexivity.
  - erewrite drain_translated; [|exact H2|exact Hoc].
    rewrite Hroom, Hlang. by rewrite logCalls_nil.
  - erewrite drain_translated; [|exact H2|exact Hoc].
    rewrite Hroom, Hlang. by rewrite logCalls_nil.
Qed.

(** [processBuffer] run in one piece is [processBuffer] cut at its service
    calls when each service answers at once and nothing else is handled in
    between. *)
Lemma processBuffer_agrees ext this w p :
  processors w !! this = Some p ->
  processBuffer ext this w =
  let w1 := upd_proc this (fun _ => fst (processBufferEnter p)) w in
  match snd (processBufferEnter p) with
  | Run mulawAudio _ =>
      Async.drain 4 ext this (Async.begin (now ext) this mulawAudio w1)
  | _ => w1
  end.
Proof.
  intros Hp. rewrite (processBuffer_unfold ext this w p Hp). cbv zeta.
  destruct (snd (processBufferEnter p)) as [| |audio ms]; try reflexivity.
  symmetry. apply (uninterrupted_pipeline_agrees _ _ _ _ (fst (processBufferEnter p))).
  by rewrite lookup_upd_proc_eq, Hp.
Qed.

End Agreement.

(** * Further properties of the code *)

(** ** Decoder *)

Section CodecExtras.

Import Codec.

Lemma mulawToLinear_magnitude (b : byte) :
  264 <= Z.abs (mulawToLinear (byte_val b)) <= 32256.
Proof.
  pose proof (forall_bytes (fun b =>
     (264 <=? Z.abs (mulawToLinear (byte_val b))) &&
     (Z.abs (mulawToLinear (byte_val b)) <=? 32256))
    ltac:(vm_compute; reflexivity) b) as H.
  cbv beta in H. apply andb_true_iff in H as [H1 H2].
  apply Z.leb_le in H1, H2. lia.
Qed.

(** X1.  [decodeMulaw] never throws and keeps the sample count: a buffer of
    [n] bytes becomes a PCM buffer of [2n] bytes whose [n] samples are
    the per-byte values of [mulawToLinear], each of magnitude between 264
    and 32256 (so inside the 16-bit range, and never zero). *)
Theorem decodeMulaw_keeps_sample_count (buf : list byte) :
  exists pcm,
    decodeMulaw buf = Ok pcm /\
    length pcm = (2 * length buf)%nat /\
    samplesOf pcm = List.map (fun b => mulawToLinear (byte_val b)) buf /\
    Forall (fun v => 264 <= Z.abs v <= 32256) (samplesOf pcm).
Proof.
  destruct (decodeMulaw_total buf) as (pcm & Hpcm & Hlen).
  exists pcm. split; [exact Hpcm|]. split; [exact Hlen|].
  pose proof (decodeMulaw_samples buf pcm Hpcm) as Hs.
  split; [exact Hs|]. rewrite Hs.
  apply List.Forall_forall. intros v Hv. apply in_map_iff in Hv as (b & <- & _).
  apply mulawToLinear_magnitude.
Qed.

(** X2.  The decoder is odd in the sign bit: flipping bit 7 of the input byte
    negates the decoded sample. *)
Theorem mulawToLinear_sign_symmetry (b : byte) :
  mulawToLinear (Z.lxor (byte_val b) 0x80) = - mulawToLinear (byte_val b).
Proof.
  pose proof (forall_bytes (fun b =>
     mulawToLinear (Z.lxor (byte_val b) 0x80) =? - mulawToLinear (byte_val b))
    ltac:(vm_compute; reflexivity) b) as H.
  cbv beta in H. by apply Z.eqb_eq in H.
Qed.

End CodecExtras.
(** ** Voice analysis *)

Section VoiceExtras.

Import VoiceAnalyzer.

Lemma float_in_In x l : float_in x l = true -> In x l.
Proof.
  unfold float_in. intros H. apply existsb_exists in H as (y & Hy & Heq).
  apply Leibniz.eqb_spec in Heq. by subst.
Qed.

Lemma correlate_nil_r samples acc : correlate samples [] acc = acc.
Proof. by destruct samples. Qed.

(** The period search never leaves the range it scans. *)
Lemma searchPeriod_range samples period count best :
  (minPeriod <= snd best <= maxPeriod)%nat ->
  (minPeriod <= period)%nat -> (period + count <= S maxPeriod)%nat ->
  (minPeriod <= snd (searchPeriod samples period count best) <= maxPeriod)%nat.
Proof.
  revert period best. induction count as [|count IH]; intros period best Hb Hp Hc.
  - exact Hb.
  - cbn [searchPeriod]. apply IH; [|lia|lia].
    destruct (fst best <? _)%float; cbn [snd]; [lia|exact Hb].
Qed.

Lemma pitch_of_period_level (k : nat) :
  (minPeriod <= k <= maxPeriod)%nat ->
  In (pitchOfFrequency (sampleRate / JsNum.of_Z (Z.of_nat k))) pitchLevels.
Proof.
  intros Hk. apply float_in_In.
  assert (Hall : forallb (fun k =>
            float_in (pitchOfFrequency (sampleRate / JsNum.of_Z (Z.of_nat k)))
                     pitchLevels) (seq 16 145) = true)
    by (vm_compute; reflexivity).
  rewrite forallb_forall in Hall. apply Hall, in_seq.
  unfold minPeriod, maxPeriod in Hk. lia.
Qed.

Lemma pitchLevels_bounds x :
  In x pitchLevels -> (-20 <=? x)%float = true /\ (x <=? 20)%float = true.
Proof.
  assert (Hall : forallb (fun x => (-20 <=? x)%float && (x <=? 20)%float)
                   pitchLevels = true) by (vm_compute; reflexivity).
  rewrite forallb_forall in Hall. intros Hx.
  by apply andb_true_iff, Hall.
Qed.

Lemma detectPitch_level pcm p : detectPitch pcm = Ok p -> In p pitchLevels.
Proof.
  unfold detectPitch. destruct (readSamples pcm) as [samples|e]; cbn [bindE];
    [|discriminate].
  pose proof (searchPeriod_range samples minPeriod (S maxPeriod - minPeriod)
                (0%float, minPeriod)) as Hr.
  destruct (searchPeriod _ _ _ _) as [c bestPeriod]. cbn [snd] in Hr.
  intros [= <-]. apply pitch_of_period_level, Hr; cbn; unfold minPeriod, maxPeriod; lia.
Qed.

(** X3.  Whenever [detectPitch] returns, the pitch adjustment is a whole
    number between -20 and 20, as its documentation says, and
    [detectGender] calls it male exactly when it is negative. *)
Theorem detectPitch_in_documented_range (pcm : list byte) (p : float) :
  detectPitch pcm = Ok p ->
  In p pitchLevels /\
  (-20 <=? p)%float = true /\ (p <=? 20)%float = true /\
  (detectGender p = male <-> (p <? 0)%float = true) /\
  detectGender p <> neutral.
Proof.
  intros H. pose proof (detectPitch_level pcm p H) as Hl.
  destruct (pitchLevels_bounds p Hl) as [H1 H2].
  split; [exact Hl|]. split; [exact H1|]. split; [exact H2|].
  unfold detectGender. destruct (p <? 0)%float; split; try split; congruence.
Qed.

Lemma detectPitch_range_witness :
  detectPitch Scenario.twoSamples = Ok (Scenario.measured (detectPitch Scenario.twoSamples)) /\
  (-20 <=? Scenario.measured (detectPitch Scenario.twoSamples))%float = true /\
  (Scenario.measured (detectPitch Scenario.twoSamples) <=? 20)%float = true.
Proof.
  assert (H : detectPitch Scenario.twoSamples
              = Ok (Scenario.measured (detectPitch Scenario.twoSamples)))
    by (vm_compute; reflexivity).
  destruct (detectPitch_in_documented_range Scenario.twoSamples _ H)
    as (_ & H1 & H2 & _).
  split; [exact H|]. split; [exact H1|exact H2].
Defined.

Lemma readSamples_short pcm samples :
  readSamples pcm = Ok samples -> (length samples <= length pcm / 2)%nat.
Proof.
  revert samples.
  induction pcm as [|b|lo hi rest IH] using byte_pairs_ind; intros samples.
  - intros [= <-]. cbn. lia.
  - discriminate.
  - cbn [readSamples]. destruct (readSamples rest) as [tail|e]; cbn [bindE];
      [|discriminate].
    intros [= <-]. specialize (IH tail eq_refl). cbn [length].
    change (S (S (length rest))) with (1 * 2 + length rest)%nat.
    rewrite Nat.div_add_l by lia. lia.
Qed.

Lemma searchPeriod_short samples period count :
  (length samples <= period)%nat ->
  searchPeriod samples period count (0%float, minPeriod) = (0%float, minPeriod).
Proof.
  revert period. induction count as [|count IH]; intros period Hlen; [reflexivity|].
  cbn [searchPeriod]. rewrite drop_ge by lia. rewrite correlate_nil_r.
  cbn [fst]. change (0 <? 0)%float with false. apply IH. lia.
Qed.

(** X4.  A buffer of at most 16 samples has no lag to correlate: whatever it
    holds, [detectPitch] answers the top of the scale, +20, and the
    speaker is taken for female. *)
Theorem detectPitch_short_buffer (pcm : list byte) :
  Nat.even (length pcm) = true -> (length pcm <= 32)%nat ->
  detectPitch pcm = Ok 20%float /\ detectGender 20 = female.
Proof.
  intros Heven Hlen. split; [|reflexivity].
  unfold detectPitch. destruct (readSamples pcm) as [samples|e] eqn:Hs; cbn [bindE].
  - pose proof (readSamples_short pcm samples Hs) as Hshort.
    rewrite searchPeriod_short.
    + vm_compute. reflexivity.
    + unfold minPeriod. transitivity (length pcm / 2)%nat; [exact Hshort|].
      apply Nat.Div0.div_le_upper_bound. lia.
  - exfalso. clear Hlen. revert e Hs Heven.
    induction pcm as [|b|lo hi rest IH] using byte_pairs_ind; intros e Hs Heven.
    + discriminate.
    + discriminate.
    + cbn [readSamples] in Hs. destruct (readSamples rest) as [tail|e'] eqn:Hr;
        cbn [bindE] in Hs; [discriminate|].
      apply (IH e' eq_refl). cbn [length] in Heven.
      by rewrite Nat.even_succ_succ in Heven.
Qed.

Lemma detectPitch_short_buffer_witness :
  detectPitch Scenario.twoSamples = Ok 20%float /\ detectGender 20 = female.
Proof.
  apply (detectPitch_short_buffer Scenario.twoSamples); [reflexivity|cbn; lia].
Defined.

End VoiceExtras.
Section VoiceCacheExtras.

Import VoiceAnalyzer.

Lemma even_buffer_detectors pcm :
  Nat.even (length pcm) = true ->
  (exists samples, readSamples pcm = Ok samples) /\
  (forall zc prev, exists r, countCrossings pcm zc prev = Ok r) /\
  (forall s n, exists r, sumSquaresLoop pcm s n = Ok r).
Proof.
  induction pcm as [|b|lo hi rest IH] using byte_pairs_ind; intros Heven.
  - split_ands; intros; eexists; reflexivity.
  - discriminate.
  - cbn [length] in Heven. rewrite Nat.even_succ_succ in Heven.
    destruct (IH Heven) as ((samples & Hs) & Hc & Hq). split_ands.
    + cbn [readSamples]. rewrite Hs. eexists. reflexivity.
    + intros zc prev. cbn [countCrossings]. apply Hc.
    + intros s n. cbn [sumSquaresLoop]. apply Hq.
Qed.

Lemma analyzeBody_even now pcm userId vp :
  Nat.even (length pcm) = true ->
  exists p s e,
    detectPitch pcm = Ok p /\ detectSpeed pcm = Ok s /\ detectEnergy pcm = Ok e /\
    analyzeBody now pcm userId vp =
    Ok ({| pitch := p; speed := s; energy := e; gender := detectGender p;
           timestamp := now; samples := None |},
        updateProfile now userId
          {| pitch := p; speed := s; energy := e; gender := detectGender p;
             timestamp := now; samples := None |} vp).
Proof.
  intros Heven. destruct (even_buffer_detectors pcm Heven) as ((samples & Hs) & Hc & Hq).
  assert (Hp : exists p, detectPitch pcm = Ok p).
  { unfold detectPitch. rewrite Hs. cbn [bindE].
    destruct (searchPeriod _ _ _ _). eexists. reflexivity. }
  assert (Hsp : exists s, detectSpeed pcm = Ok s).
  { unfold detectSpeed. destruct (Hc 0%float 0%float) as [r ->]. cbn [bindE].
    eexists. reflexivity. }
  assert (He : exists e, detectEnergy pcm = Ok e).
  { unfold detectEnergy. destruct (Hq 0%float 0%float) as [[a b] ->]. cbn [bindE].
    eexists. reflexivity. }
  destruct Hp as [p Hp], Hsp as [s Hsp], He as [e He].
  exists p, s, e. split_ands; try assumption.
  unfold analyzeBody. rewrite Hp, Hsp, He. reflexivity.
Qed.

Lemma updateProfile_lookup_self now userId B vp :
  is_Some (updateProfile now userId B vp !! userId).
Proof.
  unfold updateProfile. destruct (vp !! userId); rewrite lookup_insert_eq; eauto.
Qed.

(** X5.  Audio that comes out of [decodeMulaw] never makes the analysis throw:
    on every flushed segment, the empty one included, [analyzeVoice]
    returns a measured profile (male or female, never the neutral
    default) and the speaker has a cache entry afterwards. *)
Theorem analyzeVoice_of_decoded_audio_never_defaults
    (now : Z) (mulawAudio : list byte) (userId : JsVal)
    (vp : gmap JsVal Profile) :
  exists pcm profile,
    Codec.decodeMulaw mulawAudio = Ok pcm /\
    analyzeVoice now pcm userId vp = (profile, updateProfile now userId profile vp) /\
    gender profile <> neutral /\
    samples profile = None /\
    is_Some (snd (analyzeVoice now pcm userId vp) !! userId).
Proof.
  destruct (decodeMulaw_total mulawAudio) as (pcm & Hpcm & Hlen).
  assert (Heven : Nat.even (length pcm) = true).
  { rewrite Hlen. rewrite Nat.even_mul. reflexivity. }
  destruct (analyzeBody_even now pcm userId vp Heven) as (p & s & e & Hp & _ & _ & Hb).
  eexists pcm, _. split; [exact Hpcm|].
  unfold analyzeVoice. rewrite Hb. split; [reflexivity|].
  split; [cbn; unfold detectGender; destruct (p <? 0)%float; discriminate|].
  split; [reflexivity|]. cbn [snd]. apply updateProfile_lookup_self.
Qed.

Lemma smoothing_keeps_level a b :
  In a pitchLevels -> In b pitchLevels ->
  In (JsNum.round (a * 0.7 + b * 0.3)%float) pitchLevels.
Proof.
  intros Ha Hb. apply float_in_In.
  assert (Hall : forallb (fun a => forallb (fun b =>
            float_in (JsNum.round (a * 0.7 + b * 0.3)%float) pitchLevels)
            pitchLevels) pitchLevels = true) by (vm_compute; reflexivity).
  rewrite forallb_forall in Hall. specialize (Hall a Ha).
  rewrite forallb_forall in Hall. exact (Hall b Hb).
Qed.

Lemma analyzeVoice_cases now pcm userId vp :
  snd (analyzeVoice now pcm userId vp) = vp \/
  exists p s e, detectPitch pcm = Ok p /\
    snd (analyzeVoice now pcm userId vp) =
    updateProfile now userId
      {| pitch := p; speed := s; energy := e; gender := detectGender p;
         timestamp := now; samples := None |} vp.
Proof.
  unfold analyzeVoice, analyzeBody.
  destruct (detectPitch pcm) as [p|]; cbn [bindE]; [|by left].
  destruct (detectSpeed pcm) as [s|]; cbn [bindE]; [|by left].
  destruct (detectEnergy pcm) as [e|]; cbn [bindE]; [|by left].
  right. exists p, s, e. split; reflexivity.
Qed.

(** X6.  Smoothing never takes the cached pitch off the scale: in every cache
    built by [analyzeVoice] and [cleanup], each profile's pitch is a whole
    number between -20 and 20 and its sample counter is at least 1. *)
Theorem cached_pitch_stays_on_scale
    (vp : gmap JsVal Profile) (userId : JsVal) (A : Profile) :
  analyzed vp -> vp !! userId = Some A ->
  In (pitch A) pitchLevels /\
  (-20 <=? pitch A)%float = true /\ (pitch A <=? 20)%float = true /\
  (exists n, samples A = Some n /\ 1 <= n).
Proof.
  intros Hvp. revert userId A.
  assert (Hinv : forall userId A, vp !! userId = Some A ->
            In (pitch A) pitchLevels /\ exists n, samples A = Some n /\ 1 <= n).
  { induction Hvp as [|now pcm u vp Hvp IH|u vp Hvp IH]; intros userId A.
    - by rewrite lookup_empty.
    - destruct (analyzeVoice_cases now pcm u vp) as [->|(p & s & e & Hp & ->)];
        [apply IH|].
      pose proof (detectPitch_level pcm p Hp) as Hlevel.
      unfold updateProfile. destruct (vp !! u) as [existing|] eqn:E.
      + rewrite lookup_insert. case_decide; [|apply IH].
        intros [= <-]. cbn. destruct (IH _ _ E) as (Hex & n & Hn & Hle).
        split; [by apply smoothing_keeps_level|].
        exists (samplesOrOne (samples existing) + 1). split; [reflexivity|].
        rewrite Hn. cbn. destruct (Z.eqb_spec n 0); lia.
      + rewrite lookup_insert. case_decide; [|apply IH].
        intros [= <-]. cbn. split; [exact Hlevel|]. exists 1. split; [reflexivity|lia].
    - unfold cleanup. intros H. apply lookup_delete_Some in H as [_ H]. by eapply IH. }
  intros userId A HA. destruct (Hinv userId A HA) as [Hl Hn].
  destruct (pitchLevels_bounds _ Hl) as [H1 H2]. done.
Qed.

Lemma cached_pitch_witness :
  exists A, Scenario.oneAnalysis !! Scenario.speaker = Some A /\
    (-20 <=? pitch A)%float = true /\ (pitch A <=? 20)%float = true.
Proof.
  assert (Ha : analyzed Scenario.oneAnalysis) by apply analyzed_voice, analyzed_new.
  destruct (Scenario.oneAnalysis !! Scenario.speaker) as [A|] eqn:HA;
    [|vm_compute in HA; discriminate HA].
  exists A. split; [reflexivity|].
  destruct (cached_pitch_stays_on_scale Scenario.oneAnalysis Scenario.speaker A Ha HA)
    as (_ & H1 & H2 & _).
  split; [exact H1|exact H2].
Defined.

(** X7.  Evicting a speaker resets the smoothing: the first analysis stored
    after [cleanup] is kept as measured, with a sample counter of 1,
    whatever the cache held for the speaker before; other speakers'
    entries are not touched by either step. *)
Theorem eviction_resets_smoothing
    (now : Z) (userId : JsVal) (B : Profile) (vp : gmap JsVal Profile) :
  updateProfile now userId B (cleanup userId vp) !! userId =
    Some {| pitch := pitch B; speed := speed B; energy := energy B;
            gender := gender B; timestamp := timestamp B; samples := Some 1 |} /\
  getProfile now userId (cleanup userId vp) = getDefaultProfile now /\
  (forall other, other <> userId ->
     updateProfile now userId B (cleanup userId vp) !! other = vp !! other).
Proof.
  unfold updateProfile, cleanup, getProfile. rewrite lookup_delete_eq.
  split; [apply lookup_insert_eq|]. split; [reflexivity|].
  intros other Hne. rewrite lookup_insert_ne by done. by rewrite lookup_delete_ne.
Qed.

End VoiceCacheExtras.
(** ** Cleanup, registration and rooms *)

Section RegistryExtras.

Import Server.

Lemma filter_idem {A} (f : A -> bool) (l : list A) :
  List.filter f (List.filter f l) = List.filter f l.
Proof.
  induction l as [|x l IH]; cbn; [reflexivity|].
  destruct (f x) eqn:E; cbn; rewrite ?E, IH; reflexivity.
Qed.

Lemma cleanupFields_idem p : cleanupFields (cleanupFields p) = cleanupFields p.
Proof.
  unfold cleanupFields.
  destruct p as [? ? ? ? ? ? uid ? ? ? ? ? [h|] ? vp ? ?]; cbn;
    destruct (truthy uid) eqn:E; cbn; rewrite ?E; cbn;
    unfold VoiceAnalyzer.cleanup; rewrite ?delete_delete_eq; reflexivity.
Qed.

(** The session update [cleanup()] applies for a processor. *)
Lemma cleanup_unfold this w p :
  processors w !! this = Some p ->
  cleanup this w =
  set_activeSessions
    (if truthy (roomId p)
     then sessions_update (roomId p)
            (if strict_eq_str (userType p) "creator"
             then set_creatorConnection SlotNull
             else set_participantConnection SlotNull) (activeSessions w)
     else activeSessions w)
    (upd_proc this cleanupFields w).
Proof.
  intros Hp. unfold cleanup. rewrite lookup_upd_proc_eq, Hp. cbn [fmap option_fmap option_map].
  destruct (cleanupFields_identity p) as (-> & -> & _).
  rewrite !activeSessions_upd_proc.
  destruct (truthy (roomId p)); [|by destruct w].
  destruct (sessions_get (roomId p) (activeSessions w)) as [s|] eqn:Hs; [reflexivity|].
  destruct (roomId p) as [| |room]; cbn [sessions_update]; try (by destruct w).
  cbn in Hs. rewrite alter_id by (intros x Hx; congruence). by destruct w.
Qed.

Lemma cleanup_absent this w : processors w !! this = None -> cleanup this w = w.
Proof.
  intros Hp. unfold cleanup. rewrite lookup_upd_proc_eq, Hp. cbn.
  unfold upd_proc. rewrite alter_id by (intros x Hx; congruence). by destruct w.
Qed.

Lemma clear_slot_idem (user : JsVal) (s : Session) :
  let f := if strict_eq_str user "creator"
           then set_creatorConnection SlotNull
           else set_participantConnection SlotNull in
  f (f s) = f s.
Proof. cbv zeta. destruct (strict_eq_str user "creator"), s; reflexivity. Qed.

(** X8.  [cleanup()] is idempotent: running it a second time changes nothing,
    so the stop, close and error paths may all call it. *)
Theorem cleanup_idempotent (this : nat) (w : World) :
  cleanup this (cleanup this w) = cleanup this w.
Proof.
  destruct (processors w !! this) as [p|] eqn:Hp;
    [|by rewrite !cleanup_absent by (by rewrite ?cleanup_absent)].
  rewrite (cleanup_unfold this w p Hp).
  set (w1 := set_activeSessions _ _).
  assert (Hp1 : processors w1 !! this = Some (cleanupFields p)).
  { unfold w1. rewrite processors_set_activeSessions, lookup_upd_proc_eq, Hp.
    reflexivity. }
  rewrite (cleanup_unfold this w1 (cleanupFields p) Hp1).
  destruct (cleanupFields_identity p) as (-> & -> & _).
  unfold w1. destruct w as [m procs tr calls]. unfold upd_proc, set_activeSessions.
  cbn [activeSessions processors set_processors]. f_equal.
  - destruct (truthy (roomId p)); [|reflexivity].
    destruct (roomId p) as [| |room]; cbn [sessions_update]; try reflexivity.
    rewrite alter_alter_eq. apply alter_ext. intros s _.
    apply (clear_slot_idem (userType p) s).
  - rewrite alter_alter_eq. apply alter_ext. intros q _. apply cleanupFields_idem.
Qed.

Lemma clearTimeout_cleanupFields h p :
  silenceTimeout p = Some h ->
  cleanupFields (clearTimeout h p) = cleanupFields p.
Proof.
  unfold cleanupFields, clearTimeout.
  destruct p as [? ? ? ? ? ? uid ? ? ? ? ? t ? vp pend ?]; cbn. intros ->. cbn.
  rewrite filter_idem. reflexivity.
Qed.

(** X9.  A stop event runs exactly [cleanup()]: cancelling the timer first
    makes no difference. *)
Theorem handleStop_is_cleanup (this : nat) (w : World) :
  handleStop this w = cleanup this w.
Proof.
  unfold handleStop.
  destruct (processors w !! this) as [p|] eqn:Hp.
  - set (g := fun p : Processor => match silenceTimeout p with
                                   | Some handle => clearTimeout handle p
                                   | None => p
                                   end).
    assert (Hg : processors (upd_proc this g w) !! this = Some (g p))
      by (rewrite lookup_upd_proc_eq, Hp; reflexivity).
    rewrite (cleanup_unfold this _ (g p) Hg), (cleanup_unfold this w p Hp).
    assert (Hid : roomId (g p) = roomId p /\ userType (g p) = userType p)
      by (unfold g; destruct p as [? ? ? ? ? ? ? ? ? ? ? ? [h|] ? ? ? ?]; done).
    destruct Hid as [-> ->].
    assert (Hcg : cleanupFields (g p) = cleanupFields p).
    { unfold g. destruct (silenceTimeout p) as [h|] eqn:E; [|reflexivity].
      by apply clearTimeout_cleanupFields. }
    destruct w as [m procs tr calls]. unfold upd_proc, set_activeSessions.
    cbn [activeSessions processors set_processors] in *. f_equal.
    rewrite alter_alter_eq. apply alter_ext. intros q Hq.
    assert (q = p) by congruence. subst q. exact Hcg.
  - rewrite cleanup_absent; [|by rewrite lookup_upd_proc_eq, Hp].
    rewrite cleanup_absent by done.
    unfold upd_proc. rewrite alter_id by (intros x Hx; congruence). by destruct w.
Qed.

Lemma cleanup_lookup_self this w p :
  processors w !! this = Some p ->
  processors (cleanup this w) !! this = Some (cleanupFields p).
Proof.
  intros Hp. rewrite (cleanup_unfold this w p Hp), processors_set_activeSessions,
    lookup_upd_proc_eq, Hp. reflexivity.
Qed.

Lemma cleanupFields_resets p :
  audioBuffer (cleanupFields p) = [] /\ bufferDuration (cleanupFields p) = 0 /\
  isProcessing (cleanupFields p) = false /\ silenceTimeout (cleanupFields p) = None.
Proof.
  unfold cleanupFields.
  destruct p as [? ? ? ? ? ? uid ? ? ? ? ? [h|] ? vp pend ?]; cbn;
    destruct (truthy uid); cbn; done.
Qed.

(** X10.  After [cleanup()] the processor holds no audio, is idle, has no timer
    and no cached profile for its speaker; its identity, counters and
    socket are kept. *)
Theorem cleanup_resets_processor (this : nat) (w : World) (p : Processor) :
  processors w !! this = Some p ->
  exists q, processors (cleanup this w) !! this = Some q /\
    audioBuffer q = [] /\ bufferDuration q = 0 /\ isProcessing q = false /\
    silenceTimeout q = None /\
    (forall h, silenceTimeout p = Some h -> ~ In h (pendingTimers q)) /\
    (truthy (userId p) = true -> voiceProfiles q !! userId p = None) /\
    roomId q = roomId p /\ userType q = userType p /\ userId q = userId p /\
    stats q = stats p /\ ws q = ws p.
Proof.
  intros Hp. exists (cleanupFields p). split; [by apply cleanup_lookup_self|].
  destruct (cleanupFields_resets p) as (H1 & H2 & H3 & H4).
  split; [exact H1|]. split; [exact H2|]. split; [exact H3|]. split; [exact H4|].
  unfold cleanupFields.
  destruct p as [? ? ? ? ? ? uid ? ? ? ? ? [h|] ? vp pend ?]; cbn;
    destruct (truthy uid) eqn:E; cbn; split_ands; try done.
  + intros h' [= <-] Hin. apply filter_In in Hin as [_ Hin].
    by rewrite Nat.eqb_refl in Hin.
  + intros _. apply lookup_delete_eq.
  + intros h' [= <-] Hin. apply filter_In in Hin as [_ Hin].
    by rewrite Nat.eqb_refl in Hin.
  + intros _. apply lookup_delete_eq.
Qed.

Lemma cleanup_resets_witness :
  exists q, processors (cleanup 0 Scenario.halfSecond) !! 0%nat = Some q /\
    audioBuffer q = [] /\ bufferDuration q = 0 /\ isProcessing q = false.
Proof.
  destruct (processors Scenario.halfSecond !! 0%nat) as [p|] eqn:Hp;
    [|vm_compute in Hp; discriminate Hp].
  destruct (cleanup_resets_processor 0 Scenario.halfSecond p Hp)
    as (q & Hq & H1 & H2 & H3 & _).
  exists q. split; [exact Hq|]. split; [exact H1|]. split; [exact H2|exact H3].
Defined.

End RegistryExtras.
Section RoomExtras.

Import Server.

Lemma handleStartFields_language sid start p :
  myLanguage (handleStartFields sid start p) = startLanguage start.
Proof. destruct p, start as [[? [?|]]|]; reflexivity. Qed.

Lemma registerConnection_dom this w :
  dom (activeSessions (registerConnection this w)) = dom (activeSessions w).
Proof.
  unfold registerConnection. repeat case_match; try reflexivity.
  all: rewrite activeSessions_set_activeSessions.
  all: destruct (roomId _) as [| |room]; cbn [sessions_update]; try reflexivity.
  all: apply dom_alter_L.
Qed.

(** X11.  A start event never creates or removes a room.  Without a language
    the leg is not registered at all: the registry is left exactly as it
    was. *)
Theorem handleStart_keeps_rooms
    (this : nat) (streamSid : JsVal) (start : option StartInfo) (w : World) :
  dom (activeSessions (handleStart this streamSid start w)) = dom (activeSessions w) /\
  (truthy (startLanguage start) = false ->
   activeSessions (handleStart this streamSid start w) = activeSessions w) /\
  (forall other, other <> this ->
     processors (handleStart this streamSid start w) !! other = processors w !! other).
Proof.
  unfold handleStart.
  destruct (processors (upd_proc this (handleStartFields streamSid start) w) !! this)
    as [p|] eqn:Hp.
  - assert (Hlang : myLanguage p = startLanguage start).
    { rewrite lookup_upd_proc_eq in Hp. destruct (processors w !! this); [|discriminate].
      cbn in Hp. injection Hp as <-. apply handleStartFields_language. }
    rewrite Hlang. destruct (truthy (startLanguage start)); cbn [negb].
    + split; [by rewrite registerConnection_dom, activeSessions_upd_proc|].
      split; [discriminate|].
      intros other Hne. rewrite registerConnection_processors.
      by apply lookup_upd_proc_ne.
    + rewrite activeSessions_upd_proc. split; [reflexivity|]. split; [reflexivity|].
      intros other Hne. by apply lookup_upd_proc_ne.
  - rewrite activeSessions_upd_proc. split; [reflexivity|]. split; [reflexivity|].
    intros other Hne. by apply lookup_upd_proc_ne.
Qed.

Lemma handleStart_keeps_rooms_witness :
  activeSessions (handleStart 0 (JStr "MZ0001") None Scenario.twoLegs)
  = activeSessions Scenario.twoLegs.
Proof.
  destruct (handleStart_keeps_rooms 0 (JStr "MZ0001") None Scenario.twoLegs)
    as (_ & H & _).
  apply H. reflexivity.
Defined.

(** What a start event with a language does when the room exists. *)
Lemma handleStart_registers this sid callSid room user language w p s :
  processors w !! this = Some p ->
  activeSessions w !! room = Some s -> room <> "" -> truthy language = true ->
  let w' := handleStart this sid (startOf callSid (JStr room) user language) w in
  processors w' =
    alter (handleStartFields sid (startOf callSid (JStr room) user language)) this
          (processors w) /\
  activeSessions w' =
    alter (if strict_eq_str user "caller"
           then set_callerConnection (SlotRef this)
           else set_receiverConnection (SlotRef this)) room (activeSessions w).
Proof.
  intros Hp Hs Hne Hl. cbv zeta. unfold handleStart.
  set (start := startOf callSid (JStr room) user language).
  assert (Hq : processors (upd_proc this (handleStartFields sid start) w) !! this
               = Some (handleStartFields sid start p))
    by (rewrite lookup_upd_proc_eq, Hp; reflexivity).
  rewrite Hq.
  destruct (handleStartFields_params sid callSid
              {| param_roomId := JStr room; param_userType := user;
                 param_myLanguage := language |} p) as (Hr & Hu & Hlang).
  fold (startOf callSid (JStr room) user language) in Hr, Hu, Hlang. fold start in Hr, Hu, Hlang.
  cbn [param_roomId param_userType param_myLanguage] in Hr, Hu, Hlang.
  rewrite Hlang, Hl. cbn [negb].
  split; [by rewrite registerConnection_processors, processors_upd_proc|].
  unfold registerConnection. rewrite Hq, Hr. cbn [truthy sessions_get].
  destruct (String.eqb_spec room ""); [done|]. cbn [negb].
  rewrite activeSessions_upd_proc, Hs, activeSessions_set_activeSessions, Hu.
  reflexivity.
Qed.

(** X12.  Once both legs of a room have started (one as ["caller"], the other
    under any other leg type), each leg's peer lookup finds the other
    leg's processor, which has its language set. *)
Theorem started_legs_find_each_other
    (w : World) (a b : nat) (room : string) (s : Session)
    (sidA sidB callA callB userB langA langB : JsVal) :
  a <> b ->
  is_Some (processors w !! a) -> is_Some (processors w !! b) ->
  activeSessions w !! room = Some s -> room <> "" ->
  truthy langA = true -> truthy langB = true ->
  strict_eq_str userB "caller" = false ->
  let w' := handleStart b sidB (startOf callB (JStr room) userB langB)
              (handleStart a sidA (startOf callA (JStr room) (JStr "caller") langA) w) in
  exists s' pa pb,
    activeSessions w' !! room = Some s' /\
    processors w' !! a = Some pa /\ processors w' !! b = Some pb /\
    otherSlot (userType pa) s' = SlotRef b /\
    otherSlot (userType pb) s' = SlotRef a /\
    myLanguage pa = langA /\ myLanguage pb = langB.
Proof.
  intros Hab [pa Hpa] [pb Hpb] Hs Hne HlA HlB HuB. cbv zeta.
  destruct (handleStart_registers a sidA callA room (JStr "caller") langA w pa s
              Hpa Hs Hne HlA) as [HP1 HS1].
  set (w1 := handleStart a sidA _ w) in *.
  assert (Hpb1 : processors w1 !! b = Some pb)
    by (rewrite HP1, lookup_alter_ne by done; exact Hpb).
  assert (Hs1 : activeSessions w1 !! room = Some (set_callerConnection (SlotRef a) s))
    by (rewrite HS1, lookup_alter_eq, Hs; reflexivity).
  destruct (handleStart_registers b sidB callB room userB langB w1 pb _
              Hpb1 Hs1 Hne HlB) as [HP2 HS2].
  set (w2 := handleStart b sidB _ w1) in *.
  rewrite HuB in HS2.
  exists (set_receiverConnection (SlotRef b) (set_callerConnection (SlotRef a) s)),
    (handleStartFields sidA (startOf callA (JStr room) (JStr "caller") langA) pa),
    (handleStartFields sidB (startOf callB (JStr room) userB langB) pb).
  split; [by rewrite HS2, lookup_alter_eq, Hs1|].
  split; [by rewrite HP2, lookup_alter_ne, HP1, lookup_alter_eq, Hpa by done|].
  split; [by rewrite HP2, lookup_alter_eq, Hpb1|].
  destruct (handleStartFields_params sidA callA
              {| param_roomId := JStr room; param_userType := JStr "caller";
                 param_myLanguage := langA |} pa) as (_ & HuA' & HlA').
  destruct (handleStartFields_params sidB callB
              {| param_roomId := JStr room; param_userType := userB;
                 param_myLanguage := langB |} pb) as (_ & HuB' & HlB').
  unfold startOf. rewrite HuA', HuB', HlA', HlB'.
  cbn [param_userType param_myLanguage]. unfold otherSlot. rewrite HuB.
  destruct s; cbn. done.
Qed.

Lemma started_legs_witness :
  let w := Server.run [Server.CreateRoom "room1" (JStr "en") 0;
                       Server.Connection Scenario.openSocket;
                       Server.Connection Scenario.openSocket] emptyWorld in
  let w' := handleStart 1 (JStr "MZ2") (startOf (JStr "CA2") (JStr "room1") (JStr "receiver") (JStr "es"))
              (handleStart 0 (JStr "MZ1")
                 (startOf (JStr "CA1") (JStr "room1") (JStr "caller") (JStr "en")) w) in
  exists s' pa pb,
    activeSessions w' !! "room1" = Some s' /\
    processors w' !! 0%nat = Some pa /\ processors w' !! 1%nat = Some pb /\
    otherSlot (userType pa) s' = SlotRef 1 /\
    otherSlot (userType pb) s' = SlotRef 0 /\
    myLanguage pa = JStr "en" /\ myLanguage pb = JStr "es".
Proof.
  cbv zeta.
  eapply (started_legs_find_each_other _ 0 1 "room1").
  - discriminate.
  - vm_compute. eauto.
  - vm_compute. eauto.
  - vm_compute. reflexivity.
  - discriminate.
  - reflexivity.
  - reflexivity.
  - reflexivity.
Defined.

End RoomExtras.
Section ServerExtras.

Import Server.

Lemma processors_notifyOtherSide_lookup reason other w ref p :
  processors w !! ref = Some p ->
  exists q, processors (notifyOtherSide reason other w) !! ref = Some q /\
    stableView q = stableView p /\ isProcessing q = isProcessing p /\
    voiceProfiles q = voiceProfiles p.
Proof.
  intros Hp. unfold notifyOtherSide. repeat case_match; subst; eauto.
  destruct (decide (p0 = ref)) as [->|Hne].
  - rewrite lookup_upd_proc_eq, Hp. cbn. eexists. split; [reflexivity|].
    by destruct p.
  - rewrite lookup_upd_proc_ne by done. eauto.
Qed.

(** X13.  When a started leg's socket closes, its room is deleted from the
    registry (no other room is touched) and the processor is left with an
    empty buffer, idle, on a closed socket. *)
Theorem onClose_removes_room
    (this : nat) (w : World) (p : Processor) (room : string) :
  processors w !! this = Some p ->
  roomId p = JStr room -> room <> "" -> truthy (userType p) = true ->
  activeSessions (onClose this w) = delete room (activeSessions w) /\
  exists q, processors (onClose this w) !! this = Some q /\
    audioBuffer q = [] /\ bufferDuration q = 0 /\ isProcessing q = false /\
    silenceTimeout q = None.
Proof.
  intros Hp Hroom Hne Huser. unfold onClose.
  assert (Hm : processors (upd_proc this markClosed w) !! this = Some (markClosed p))
    by (rewrite lookup_upd_proc_eq, Hp; reflexivity).
  assert (Hid : roomId (markClosed p) = roomId p /\ userType (markClosed p) = userType p)
    by (destruct p as [[sock|] ? ? ? ? ? ? ? ? ? ? ? ? ? ? ? ?]; done).
  destruct Hid as [Hr Hu].
  rewrite Hm, Hr, Hu, Hroom, Huser. cbn [truthy sessions_get negb orb].
  destruct (String.eqb_spec room ""); [done|]. cbn [negb orb].
  rewrite activeSessions_upd_proc.
  destruct (activeSessions w !! room) as [s|] eqn:Hs.
  - set (w1 := notifyOtherSide _ _ _).
    destruct (processors_notifyOtherSide_lookup
                "Other participant disconnected (ws close)"
                (if strict_eq_str (userType p) "caller"
                 then participantConnection s else creatorConnection s)
                (upd_proc this markClosed w) this (markClosed p) Hm)
      as (q1 & Hq1 & Hview & _).
    fold w1 in Hq1.
    set (w2 := set_activeSessions (sessions_delete (JStr room) (activeSessions w1)) w1).
    assert (Hq2 : processors w2 !! this = Some q1)
      by (unfold w2; by rewrite processors_set_activeSessions).
    assert (Hroom1 : roomId q1 = JStr room).
    { assert (roomId q1 = roomId (markClosed p)) by
        (apply (f_equal (fun v => fst (fst (fst (fst (fst (fst (fst (fst (fst (fst (fst (fst (fst v)))))))))))))) in Hview; exact Hview).
      congruence. }
    rewrite (cleanup_unfold this w2 q1 Hq2). rewrite activeSessions_set_activeSessions.
    split.
    + rewrite Hroom1. cbn [truthy]. destruct (String.eqb_spec room ""); [done|].
      cbn [negb sessions_update]. unfold w2.
      rewrite activeSessions_set_activeSessions.
      unfold w1. rewrite activeSessions_notifyOtherSide, activeSessions_upd_proc.
      cbn [sessions_delete]. apply alter_id. intros x Hx.
      by rewrite lookup_delete_eq in Hx.
    + pose proof (cleanup_lookup_self this w2 q1 Hq2) as Hq.
      rewrite (cleanup_unfold this w2 q1 Hq2) in Hq.
      destruct (cleanupFields_resets q1) as (H1 & H2 & H3 & H4).
      exists (cleanupFields q1). done.
  - split.
    + rewrite (cleanup_unfold this _ (markClosed p) Hm), Hr, Hroom.
      cbn [truthy]. destruct (String.eqb_spec room ""); [done|].
      cbn [negb sessions_update].
      rewrite activeSessions_set_activeSessions, activeSessions_upd_proc.
      rewrite delete_id by done. apply alter_id. intros x Hx. congruence.
    + pose proof (cleanup_lookup_self this _ (markClosed p) Hm) as Hq.
      destruct (cleanupFields_resets (markClosed p)) as (H1 & H2 & H3 & H4).
      exists (cleanupFields (markClosed p)). done.
Qed.

Lemma onClose_removes_room_witness :
  activeSessions (onClose 0 Scenario.halfSecond) = delete "room1" (activeSessions Scenario.halfSecond).
Proof.
  destruct (processors Scenario.halfSecond !! 0%nat) as [p|] eqn:Hp;
    [|vm_compute in Hp; discriminate Hp].
  assert (Hr : roomId p = JStr "room1")
    by (assert (H : roomId <$> processors Scenario.halfSecond !! 0%nat = Some (JStr "room1"))
          by (vm_compute; reflexivity);
        rewrite Hp in H; by injection H).
  assert (Hu : truthy (userType p) = true)
    by (assert (H : (fun q => truthy (userType q)) <$> processors Scenario.halfSecond !! 0%nat
                    = Some true)
          by (vm_compute; reflexivity);
        rewrite Hp in H; by injection H).
  destruct (onClose_removes_room 0 Scenario.halfSecond p "room1" Hp Hr) as [H _];
    [discriminate|exact Hu|exact H].
Defined.

(** X14.  A room takes one participant language: the first join that brings a
    language sets it, and every later join leaves the room as it is. *)
Theorem joinRoom_first_language_wins
    (room : string) (first later : JsVal) (w : World) (s : Session) :
  activeSessions w !! room = Some s ->
  truthy (participantLanguage s) = false -> truthy first = true ->
  activeSessions (joinRoom (JStr room) first w) !! room
    = Some (set_participantLanguage first s) /\
  joinRoom (JStr room) later (joinRoom (JStr room) first w)
    = joinRoom (JStr room) first w.
Proof.
  intros Hs Hfree Hfirst.
  assert (H1 : activeSessions (joinRoom (JStr room) first w) !! room
               = Some (set_participantLanguage first s)).
  { unfold joinRoom. cbn [sessions_get]. rewrite Hs, Hfree.
    rewrite activeSessions_set_activeSessions. cbn [sessions_update].
    by rewrite lookup_alter_eq, Hs. }
  split; [exact H1|].
  unfold joinRoom at 1. cbn [sessions_get]. rewrite H1.
  replace (participantLanguage (set_participantLanguage first s)) with first
    by (by destruct s).
  by rewrite Hfirst.
Qed.

Lemma joinRoom_witness :
  let w := Server.run [Server.CreateRoom "room1" (JStr "en") 0] emptyWorld in
  joinRoom (JStr "room1") (JStr "fr") (joinRoom (JStr "room1") (JStr "es") w)
  = joinRoom (JStr "room1") (JStr "es") w.
Proof.
  cbv zeta.
  eapply (joinRoom_first_language_wins "room1" (JStr "es") (JStr "fr")).
  - vm_compute. reflexivity.
  - reflexivity.
  - reflexivity.
Defined.

End ServerExtras.
(** ** Invariants of the running process *)

Section ProcessInvariants.

Import Server.

Lemma bufferOk_stable p q : stableView q = stableView p -> bufferOk p -> bufferOk q.
Proof.
  unfold bufferOk, timersOk, stableView. destruct p, q; cbn.
  intros [= -> -> -> -> -> -> -> -> -> -> -> -> -> ->]. done.
Qed.

Lemma bufferOk_newProcessor sock : bufferOk (newProcessor sock).
Proof. unfold bufferOk, timersOk. cbn. split_ands; auto. Qed.

Lemma bufferOk_handleStartFields sid start p :
  bufferOk p -> bufferOk (handleStartFields sid start p).
Proof. unfold bufferOk, timersOk. destruct p, start as [[? [?|]]|]; cbn; done. Qed.

Lemma filter_single h : List.filter (fun t => negb (Nat.eqb t h)) [h] = [].
Proof. cbn. by rewrite Nat.eqb_refl. Qed.

Lemma bufferOk_handleMediaSync payload p :
  bufferOk p -> bufferOk (fst (handleMediaSync payload p)).
Proof.
  unfold bufferOk, timersOk, handleMediaSync.
  destruct p as [? ? ? lang ? ? ? buf dur maxD minD busy timer [] ? pend next]. cbn.
  intros (Hd & Ht & He & Hmax & Hmin).
  destruct (truthy lang); cbn; [|done].
  assert (Hlen : dur + 20 = 20 * Z.of_nat (length (buf ++ [payload])))
    by (rewrite length_app; cbn; lia).
  destruct timer as [h|]; cbn.
  - assert (Hp : List.filter (fun t => negb (Nat.eqb t h)) pend = []).
    { destruct Ht as [->|(h' & [= <-] & ->)]; [reflexivity|apply filter_single]. }
    destruct ((maxD <=? dur + 20) && negb busy); cbn; rewrite Hp; cbn;
      split_ands; eauto.
  - assert (Hp : pend = []) by (destruct Ht as [->|(h' & [=] & _)]; reflexivity).
    subst pend.
    destruct ((maxD <=? dur + 20) && negb busy); cbn; split_ands; eauto.
Qed.

Lemma bufferOk_processBufferEnter p :
  bufferOk p -> bufferOk (fst (processBufferEnter p)).
Proof.
  unfold bufferOk, timersOk, processBufferEnter.
  destruct p as [? ? ? lang ? ? ? buf dur maxD minD busy timer [] ? pend next]. cbn.
  intros (Hd & Ht & He & Hmax & Hmin).
  destruct ((length buf =? 0)%nat || negb (truthy lang) || busy); cbn; [done|].
  destruct timer as [h|]; cbn; destruct (dur <? minD); cbn; split_ands; auto.
  all: left; destruct Ht as [->|(h' & [= <-] & ->)]; try reflexivity;
    try apply filter_single.
  all: destruct Ht as [->|(h' & [=] & _)]; reflexivity.
Qed.

Lemma bufferOk_cleanupFields p : bufferOk p -> bufferOk (cleanupFields p).
Proof.
  unfold bufferOk, timersOk, cleanupFields.
  destruct p as [? ? ? lang ? ? uid buf dur maxD minD busy timer [] ? pend next]. cbn.
  intros (Hd & Ht & He & Hmax & Hmin).
  destruct timer as [h|]; cbn; destruct (truthy uid); cbn; split_ands; auto.
  all: left; destruct Ht as [->|(h' & Hh & ->)]; try reflexivity;
    try (injection Hh as <-; apply filter_single); discriminate.
Qed.

Lemma bufferOk_clearTimeout p :
  bufferOk p ->
  bufferOk (match silenceTimeout p with
            | Some handle => clearTimeout handle p
            | None => p
            end).
Proof.
  unfold bufferOk, timersOk, clearTimeout.
  destruct p as [? ? ? lang ? ? uid buf dur maxD minD busy timer [] ? pend next]. cbn.
  intros (Hd & Ht & He & Hmax & Hmin).
  destruct timer as [h|]; cbn; split_ands; auto.
  left. destruct Ht as [->|(h' & [= <-] & ->)]; [reflexivity|apply filter_single].
Qed.

Lemma bufferOk_markClosed p : bufferOk p -> bufferOk (markClosed p).
Proof.
  intros H. apply (bufferOk_stable p); [|exact H].
  destruct p as [[sock|] ? ? ? ? ? ? ? ? ? ? ? ? ? ? ? ?]; reflexivity.
Qed.

Lemma allProcessors_upd_proc P ref f w :
  (forall p, processors w !! ref = Some p -> P p -> P (f p)) ->
  allProcessors P w -> allProcessors P (upd_proc ref f w).
Proof.
  intros Hf Hw ref' q. rewrite processors_upd_proc, lookup_alter.
  case_decide; [subst|apply Hw].
  destruct (processors w !! ref') as [p|] eqn:E; [|discriminate].
  intros [= <-]. apply Hf; [reflexivity|]. by eapply Hw.
Qed.

Lemma allProcessors_same P w w' :
  processors w' = processors w -> allProcessors P w -> allProcessors P w'.
Proof. intros E Hw ref p. rewrite E. apply Hw. Qed.

Lemma allProcessors_view P w w' :
  (forall p q, stableView q = stableView p -> P p -> P q) ->
  (forall ref, stableView <$> processors w' !! ref = stableView <$> processors w !! ref) ->
  allProcessors P w -> allProcessors P w'.
Proof.
  intros HP Hview Hw ref q Hq. specialize (Hview ref). rewrite Hq in Hview.
  destruct (processors w !! ref) as [p|] eqn:Hp; cbn in Hview; [|discriminate].
  apply (inj Some) in Hview. eapply HP; [exact Hview|]. by eapply Hw.
Qed.

Lemma bufferOk_processBuffer ext this w :
  allProcessors bufferOk w -> allProcessors bufferOk (processBuffer ext this w).
Proof.
  intros Hw. destruct (processors w !! this) as [p|] eqn:Hp;
    [|unfold processBuffer; by rewrite Hp].
  rewrite (processBuffer_unfold ext this w p Hp). cbv zeta.
  assert (H1 : allProcessors bufferOk
                 (upd_proc this (fun _ => fst (processBufferEnter p)) w)).
  { apply allProcessors_upd_proc; [|exact Hw].
    intros p0 Hp0 Hok. apply bufferOk_processBufferEnter. by eapply Hw. }
  destruct (snd (processBufferEnter p)) as [| |audio ms]; try exact H1.
  apply allProcessors_upd_proc.
  { intros q _ Hq. apply (bufferOk_stable q); [apply stable_set_isProcessing|exact Hq]. }
  eapply allProcessors_view; [apply bufferOk_stable| |exact H1].
  intros ref. apply stable_pipelineBody.
Qed.

Lemma bufferOk_cleanup this w :
  allProcessors bufferOk w -> allProcessors bufferOk (cleanup this w).
Proof.
  intros Hw. destruct (processors w !! this) as [p|] eqn:Hp.
  - rewrite (cleanup_unfold this w p Hp).
    eapply allProcessors_same; [apply processors_set_activeSessions|].
    apply allProcessors_upd_proc; [|exact Hw]. intros q _. apply bufferOk_cleanupFields.
  - by rewrite cleanup_absent.
Qed.

Lemma bufferOk_notifyOtherSide reason other w :
  allProcessors bufferOk w -> allProcessors bufferOk (notifyOtherSide reason other w).
Proof.
  intros Hw. unfold notifyOtherSide. repeat case_match; try exact Hw.
  apply allProcessors_upd_proc; [|exact Hw].
  intros q _ Hq. apply (bufferOk_stable q); [apply stable_set_ws|exact Hq].
Qed.

Lemma bufferOk_handle r w :
  allProcessors bufferOk w -> allProcessors bufferOk (handle r w).
Proof.
  intros Hw.
  destruct r as [room lang t|room lang|room user|sock|ref ext data|ref ext|ref|ref];
    cbn [handle].
  - eapply allProcessors_same; [|exact Hw]. apply processors_set_activeSessions.
  - unfold joinRoom. repeat case_match; try exact Hw.
    eapply allProcessors_same; [|exact Hw]. apply processors_set_activeSessions.
  - unfold leaveRoom. case_match; [|exact Hw].
    eapply allProcessors_same; [apply processors_set_activeSessions|].
    by apply bufferOk_notifyOtherSide.
  - intros ref p. unfold onConnection. cbn [fst]. destruct w as [m procs tr calls]. cbn.
    rewrite lookup_insert. case_decide; [|apply Hw].
    intros [= <-]. apply bufferOk_newProcessor.
  - destruct data as [sid start|payload| | |ev]; cbn [handleMessage]; try exact Hw.
    + unfold handleStart.
      assert (Hu : allProcessors bufferOk (upd_proc ref (handleStartFields sid start) w)).
      { apply allProcessors_upd_proc; [|exact Hw].
        intros p _. apply bufferOk_handleStartFields. }
      repeat case_match; try exact Hu.
      eapply allProcessors_same; [apply registerConnection_processors|exact Hu].
    + unfold handleMedia. destruct (processors w !! ref) as [p|] eqn:Hp; [|exact Hw].
      pose proof (bufferOk_handleMediaSync payload p (Hw ref p Hp)) as Hsync.
      destruct (handleMediaSync payload p) as [p' now]. cbn [fst] in Hsync.
      assert (Hu : allProcessors bufferOk (upd_proc ref (fun _ => p') w))
        by (apply allProcessors_upd_proc; [intros; exact Hsync|exact Hw]).
      destruct now; [by apply bufferOk_processBuffer|exact Hu].
    + unfold handleStop. apply bufferOk_cleanup.
      apply allProcessors_upd_proc; [|exact Hw]. intros p _. apply bufferOk_clearTimeout.
  - unfold silenceCallback. repeat case_match; try exact Hw.
    by apply bufferOk_processBuffer.
  - unfold onClose.
    assert (Hu : allProcessors bufferOk (upd_proc ref markClosed w)).
    { apply allProcessors_upd_proc; [|exact Hw]. intros p _. apply bufferOk_markClosed. }
    cbv zeta. repeat case_match; try exact Hu; try (by apply bufferOk_cleanup).
    all: apply bufferOk_cleanup.
    all: eapply allProcessors_same; [apply processors_set_activeSessions|].
    all: by apply bufferOk_notifyOtherSide.
  - by apply bufferOk_cleanup.
Qed.

(** *** The same over suspended pipelines *)

Ltac view_step :=
  first [ rewrite stable_sendToOtherUserWith
        | rewrite stable_logCalls
        | rewrite stable_addTranslation
        | rewrite (view_upd_proc stableView) by
            first [ apply stable_set_voiceProfiles | apply stable_set_isProcessing
                  | apply stable_set_ws | apply stable_inc_transcriptions
                  | apply stable_inc_translations | apply stable_inc_audiosSent ] ].

Ltac unfold_pipeline :=
  unfold Async.continueRecognized, Async.continueTranslated, Async.callPremium,
    Async.callSimple, Async.deliver, Async.abandon, Async.finally, sendToOtherUser.

Lemma stable_begin timeNow this mulawAudio w ref :
  stableView <$> processors (fst (Async.begin timeNow this mulawAudio w)) !! ref
  = stableView <$> processors w !! ref.
Proof.
  unfold Async.begin, Async.finally.
  destruct (decodeMulaw_total mulawAudio) as (pcm & -> & _).
  repeat case_match; subst; cbn [fst]; repeat view_step; reflexivity.
Qed.

Lemma stable_resume timeNow this stage answer w w' next ref :
  Async.resume timeNow this stage answer w = Some (w', next) ->
  stableView <$> processors w' !! ref = stableView <$> processors w !! ref.
Proof.
  unfold Async.resume. unfold_pipeline.
  intros H. repeat case_match; subst; try discriminate H;
    apply (inj Some) in H; apply (f_equal fst) in H; cbn [fst] in H; subst w';
    repeat view_step; reflexivity.
Qed.

Lemma run_app es1 es2 s : Async.run (es1 ++ es2) s = Async.run es2 (Async.run es1 s).
Proof. apply fold_left_app. Qed.

Lemma reachable_run es s : Async.reachable s -> Async.reachable (Async.run es s).
Proof. intros [es0 ->]. exists (es0 ++ es). by rewrite run_app. Qed.

(** A property of the world that holds at the start and is kept by every
    event holds in every state the process reaches. *)
Lemma reachable_ind (P : World -> Prop) :
  P emptyWorld ->
  (forall e s, P (Async.world s) -> P (Async.world (Async.step e s))) ->
  forall s, Async.reachable s -> P (Async.world s).
Proof.
  intros H0 Hstep s [es ->].
  assert (H : forall s0, P (Async.world s0) -> P (Async.world (Async.run es s0))).
  { induction es as [|e es IH]; intros s0 Hs0; [exact Hs0|].
    cbn. apply IH, Hstep, Hs0. }
  apply H, H0.
Qed.

Lemma bufferOk_async_processBuffer timeNow this s :
  allProcessors bufferOk (Async.world s) ->
  allProcessors bufferOk (Async.world (Async.processBuffer timeNow this s)).
Proof.
  intros Hw. unfold Async.processBuffer.
  destruct (processors (Async.world s) !! this) as [p|] eqn:Hp; [|exact Hw].
  pose proof (bufferOk_processBufferEnter p (Hw this p Hp)) as Henter.
  destruct (processBufferEnter p) as [p' entry]. cbn [fst] in Henter.
  assert (H1 : allProcessors bufferOk (upd_proc this (fun _ => p') (Async.world s)))
    by (apply allProcessors_upd_proc; [intros; exact Henter|exact Hw]).
  destruct entry as [| |audio ms]; cbn [Async.world]; try exact H1.
  pose proof (stable_begin timeNow this audio
                (upd_proc this (fun _ => p') (Async.world s))) as Hview.
  destruct (Async.begin timeNow this audio _) as [w1 stage]. cbn [fst Async.world] in *.
  eapply allProcessors_view; [apply bufferOk_stable|exact Hview|exact H1].
Qed.

Lemma bufferOk_step e s :
  allProcessors bufferOk (Async.world s) ->
  allProcessors bufferOk (Async.world (Async.step e s)).
Proof.
  intros Hw. destruct e as [r|ref|i timeNow answer|timeNow|timeNow]; cbn [Async.step].
  - destruct r as [room lang t|room lang|room user|sock|ref ext data|ref ext|ref|ref];
      try (by apply bufferOk_handle).
    + destruct data as [sid start|payload| | |ev]; try (by apply bufferOk_handle).
      destruct (processors (Async.world s) !! ref) as [p|] eqn:Hp; [|exact Hw].
      pose proof (bufferOk_handleMediaSync payload p (Hw ref p Hp)) as Hsync.
      destruct (handleMediaSync payload p) as [p' flushNow]. cbn [fst] in Hsync.
      assert (Hu : allProcessors bufferOk
                     (Async.world (Async.onWorld (upd_proc ref (fun _ => p')) s)))
        by (apply allProcessors_upd_proc; [intros; exact Hsync|exact Hw]).
      destruct flushNow; [by apply bufferOk_async_processBuffer|exact Hu].
    + destruct (processors (Async.world s) !! ref) as [p|]; [|exact Hw].
      destruct (silenceGuard p); [by apply bufferOk_async_processBuffer|exact Hw].
  - apply allProcessors_upd_proc; [|exact Hw]. intros p _ Hp.
    destruct (negb (truthy (myLanguage p))); [exact Hp|].
    apply (bufferOk_stable p); [|exact Hp].
    by destruct p as [? ? ? ? ? ? ? ? ? ? ? ? ? [] ? ? ?].
  - destruct (Async.suspended s !! i) as [[this stage]|]; [|exact Hw].
    destruct (Async.resume timeNow this stage answer (Async.world s))
      as [[w' next]|] eqn:Hr; [|exact Hw].
    assert (Hw' : allProcessors bufferOk w').
    { eapply allProcessors_view; [apply bufferOk_stable| |exact Hw].
      intros ref. eapply stable_resume, Hr. }
    by destruct next.
  - eapply allProcessors_same; [|exact Hw].
    cbn [Async.world Async.onWorld]. by destruct (Async.world s).
  - eapply allProcessors_same; [|exact Hw].
    cbn [Async.world Async.onWorld]. by destruct (Async.world s).
Qed.

Lemma bufferOk_reachable s :
  Async.reachable s -> allProcessors bufferOk (Async.world s).
Proof.
  apply (reachable_ind (allProcessors bufferOk)); [|apply bufferOk_step].
  intros ref p Hp. cbn in Hp. by rewrite lookup_empty in Hp.
Qed.

Lemma reachable_heard : Async.reachable Scenario.heard.
Proof. by exists Scenario.heardEvents. Qed.

(** In [heard] the caller is busy, one frame is buffered and one pipeline
    waits for the translation. *)
Lemma heard_caller :
  exists p, processors (Async.world Scenario.heard) !! 0%nat = Some p /\
    isProcessing p = true /\ length (audioBuffer p) = 1%nat /\
    length (Async.suspended Scenario.heard) = 1%nat.
Proof. vm_compute. eexists. split_ands; reflexivity. Qed.

(** X16.  In every state the process reaches, pipelines suspended or not,
    a processor's accumulated duration is 20 ms times the number of
    buffered frames: no frame is counted twice or left uncounted. *)
Theorem bufferDuration_counts_frames (s : Async.System) (ref : nat) (p : Processor) :
  Async.reachable s -> processors (Async.world s) !! ref = Some p ->
  bufferDuration p = 20 * Z.of_nat (length (audioBuffer p)) /\
  (audioBuffer p = [] <-> bufferDuration p = 0).
Proof.
  intros Hs Hp. destruct (bufferOk_reachable s Hs ref p Hp) as (Hd & _).
  split; [exact Hd|]. rewrite Hd. destruct (audioBuffer p); cbn [length]; split; try done; lia.
Qed.

Lemma bufferDuration_witness :
  exists p, processors (Async.world Scenario.heard) !! 0%nat = Some p /\
    isProcessing p = true /\
    bufferDuration p = 20 * Z.of_nat (length (audioBuffer p)).
Proof.
  destruct heard_caller as (p & Hp & Hbusy & _).
  exists p. split; [exact Hp|]. split; [exact Hbusy|].
  exact (proj1 (bufferDuration_counts_frames _ 0%nat p reachable_heard Hp)).
Defined.

(** X17.  In every state the process reaches, pipelines suspended or not,
    a processor has at most one pending silence timer, and it is the one
    [silenceTimeout] holds: timers are cancelled before they are re-armed
    and never stack. *)
Theorem silence_timer_is_single (s : Async.System) (ref : nat) (p : Processor) :
  Async.reachable s -> processors (Async.world s) !! ref = Some p ->
  (length (pendingTimers p) <= 1)%nat /\
  (forall handle, In handle (pendingTimers p) -> silenceTimeout p = Some handle).
Proof.
  intros Hs Hp. destruct (bufferOk_reachable s Hs ref p Hp) as (_ & Ht & _).
  destruct Ht as [->|(h & Hh & ->)]; cbn; split; try lia; try done.
  intros handle [<-|[]]. exact Hh.
Qed.

Lemma silence_timer_witness :
  exists p, processors (Async.world Scenario.heard) !! 0%nat = Some p /\
    (length (pendingTimers p) <= 1)%nat.
Proof.
  destruct heard_caller as (p & Hp & _).
  exists p. split; [exact Hp|].
  exact (proj1 (silence_timer_is_single _ 0%nat p reachable_heard Hp)).
Defined.



End ProcessInvariants.
(** ** The translation store *)

Section TranslationStore.

Import Server.

Lemma recentTranslations_upd_proc ref f w :
  recentTranslations (upd_proc ref f w) = recentTranslations w.
Proof. destruct w; reflexivity. Qed.
Lemma recentTranslations_set_activeSessions m w :
  recentTranslations (set_activeSessions m w) = recentTranslations w.
Proof. destruct w; reflexivity. Qed.
Lemma recentTranslations_logCalls calls w :
  recentTranslations (logCalls calls w) = recentTranslations w.
Proof. destruct w; reflexivity. Qed.

Lemma recentTranslations_sendToOtherUserWith n t this audio other w :
  recentTranslations (sendToOtherUserWith n t this audio other w) = recentTranslations w.
Proof.
  unfold sendToOtherUserWith. repeat case_match; subst;
    rewrite ?recentTranslations_upd_proc; reflexivity.
Qed.

Lemma recentTranslations_notifyOtherSide reason other w :
  recentTranslations (notifyOtherSide reason other w) = recentTranslations w.
Proof.
  unfold notifyOtherSide. repeat case_match; subst;
    rewrite ?recentTranslations_upd_proc; reflexivity.
Qed.

Lemma recentTranslations_registerConnection this w :
  recentTranslations (registerConnection this w) = recentTranslations w.
Proof.
  unfold registerConnection. repeat case_match; subst;
    rewrite ?recentTranslations_set_activeSessions; reflexivity.
Qed.

Lemma recentTranslations_cleanup this w :
  recentTranslations (cleanup this w) = recentTranslations w.
Proof.
  destruct (processors w !! this) as [p|] eqn:Hp.
  - by rewrite (cleanup_unfold this w p Hp), recentTranslations_set_activeSessions,
      recentTranslations_upd_proc.
  - by rewrite cleanup_absent.
Qed.

Ltac store_step :=
  first [ rewrite recentTranslations_sendToOtherUserWith
        | rewrite recentTranslations_upd_proc
        | rewrite recentTranslations_logCalls
        | rewrite recentTranslations_set_activeSessions
        | rewrite recentTranslations_notifyOtherSide
        | rewrite recentTranslations_registerConnection
        | rewrite recentTranslations_cleanup ].

Lemma translationsCapped_same w w' :
  recentTranslations w' = recentTranslations w ->
  translationsCapped w -> translationsCapped w'.
Proof. intros E Hw key l. rewrite E. apply Hw. Qed.

Lemma addTranslation_lookup r u d w :
  recentTranslations (addTranslation r u d w)
  = <[template r +:+ ":" +:+ template u :=
        let translations :=
          match recentTranslations w !! (template r +:+ ":" +:+ template u) with
          | Some l => l
          | None => []
          end ++ [d] in
        if (50 <? length translations)%nat then tail translations else translations]>
      (recentTranslations w).
Proof. destruct w; reflexivity. Qed.

Lemma translationsCapped_addTranslation r u d w :
  translationsCapped w -> translationsCapped (addTranslation r u d w).
Proof.
  intros Hw key l. rewrite addTranslation_lookup, lookup_insert.
  case_decide; [subst key|apply Hw]. cbv zeta. intros [= <-].
  set (old := match recentTranslations w !! _ with Some l => l | None => [] end).
  assert (Hold : (length old <= 50)%nat).
  { unfold old. destruct (recentTranslations w !! _) as [l|] eqn:E; [|cbn; lia].
    apply (Hw _ _ E). }
  destruct (Nat.ltb_spec 50 (length (old ++ [d]))) as [Hlt|Hge];
    rewrite length_app in *; cbn [length] in *.
  - destruct old as [|x old']; cbn in *; [lia|]. rewrite length_app. cbn. lia.
  - lia.
Qed.

Lemma translationsCapped_pipelineBody ext this mulawAudio w :
  translationsCapped w -> translationsCapped (fst (pipelineBody ext this mulawAudio w)).
Proof.
  intros Hw. unfold pipelineBody, sendToOtherUser.
  repeat case_match; subst; cbn [fst];
    repeat first
      [ exact Hw
      | apply translationsCapped_addTranslation
      | eapply translationsCapped_same;
        [first [ apply recentTranslations_sendToOtherUserWith
               | apply recentTranslations_upd_proc
               | apply recentTranslations_logCalls ]|] ].
Qed.

Lemma translationsCapped_processBuffer ext this w :
  translationsCapped w -> translationsCapped (processBuffer ext this w).
Proof.
  intros Hw. destruct (processors w !! this) as [p|] eqn:Hp;
    [|unfold processBuffer; by rewrite Hp].
  rewrite (processBuffer_unfold ext this w p Hp). cbv zeta.
  assert (H1 : translationsCapped (upd_proc this (fun _ => fst (processBufferEnter p)) w))
    by (eapply translationsCapped_same; [apply recentTranslations_upd_proc|exact Hw]).
  destruct (snd (processBufferEnter p)) as [| |audio ms]; try exact H1.
  eapply translationsCapped_same; [apply recentTranslations_upd_proc|].
  by apply translationsCapped_pipelineBody.
Qed.

Lemma translationsCapped_handle r w :
  translationsCapped w -> translationsCapped (handle r w).
Proof.
  intros Hw.
  destruct r as [room lang t|room lang|room user|sock|ref ext data|ref ext|ref|ref];
    cbn [handle].
  - eapply translationsCapped_same; [|exact Hw]. apply recentTranslations_set_activeSessions.
  - unfold joinRoom. repeat case_match; try exact Hw.
    eapply translationsCapped_same; [|exact Hw]. apply recentTranslations_set_activeSessions.
  - unfold leaveRoom. case_match; [|exact Hw].
    eapply translationsCapped_same; [|exact Hw]. by repeat store_step.
  - eapply translationsCapped_same; [|exact Hw]. by destruct w.
  - destruct data as [sid start|payload| | |ev]; cbn [handleMessage]; try exact Hw.
    + eapply translationsCapped_same; [|exact Hw].
      unfold handleStart. repeat case_match; by repeat store_step.
    + unfold handleMedia. destruct (processors w !! ref) as [p|] eqn:Hp; [|exact Hw].
      destruct (handleMediaSync payload p) as [p' now].
      assert (Hu : translationsCapped (upd_proc ref (fun _ => p') w))
        by (eapply translationsCapped_same; [apply recentTranslations_upd_proc|exact Hw]).
      destruct now; [by apply translationsCapped_processBuffer|exact Hu].
    + eapply translationsCapped_same; [|exact Hw].
      unfold handleStop. by repeat store_step.
  - unfold silenceCallback. repeat case_match; try exact Hw.
    by apply translationsCapped_processBuffer.
  - eapply translationsCapped_same; [|exact Hw].
    unfold onClose. cbv zeta. repeat case_match; by repeat store_step.
  - eapply translationsCapped_same; [|exact Hw]. apply recentTranslations_cleanup.
Qed.

Lemma recentTranslations_sweep timeNow w key :
  recentTranslations (sweepTranslations timeNow w) !! key
  = recentTranslations w !! key ≫= fun translations =>
      let filtered :=
        List.filter (fun t => timeNow - translationTimestamp t <? 600000) translations in
      if (length filtered =? 0)%nat then None else Some filtered.
Proof. destruct w. cbn. apply lookup_omap. Qed.

Lemma translationsCapped_sweep timeNow w :
  translationsCapped w -> translationsCapped (sweepTranslations timeNow w).
Proof.
  intros Hw key l. rewrite recentTranslations_sweep.
  destruct (recentTranslations w !! key) as [l0|] eqn:E; cbn; [|done].
  destruct (Nat.eqb_spec (length (List.filter
             (fun t => timeNow - translationTimestamp t <? 600000) l0)) 0) as [|Hne];
    [done|].
  intros [= <-]. split; [lia|].
  etransitivity; [apply List.filter_length_le|]. apply (Hw key l0 E).
Qed.

Ltac capped_step Hw :=
  repeat first
    [ exact Hw
    | apply translationsCapped_addTranslation
    | eapply translationsCapped_same;
      [first [ apply recentTranslations_sendToOtherUserWith
             | apply recentTranslations_upd_proc
             | apply recentTranslations_logCalls ]|] ].

Lemma translationsCapped_begin timeNow this mulawAudio w :
  translationsCapped w -> translationsCapped (fst (Async.begin timeNow this mulawAudio w)).
Proof.
  intros Hw. unfold Async.begin, Async.finally.
  repeat case_match; subst; cbn [fst]; capped_step Hw.
Qed.

Lemma translationsCapped_resume timeNow this stage answer w w' next :
  Async.resume timeNow this stage answer w = Some (w', next) ->
  translationsCapped w -> translationsCapped w'.
Proof.
  unfold Async.resume, Async.continueRecognized, Async.continueTranslated,
    Async.callPremium, Async.callSimple, Async.deliver, Async.abandon, Async.finally,
    sendToOtherUser.
  intros H Hw. repeat case_match; subst; try discriminate H;
    apply (inj Some) in H; apply (f_equal fst) in H; cbn [fst] in H; subst w';
    capped_step Hw.
Qed.

Lemma translationsCapped_async_processBuffer timeNow this s :
  translationsCapped (Async.world s) ->
  translationsCapped (Async.world (Async.processBuffer timeNow this s)).
Proof.
  intros Hw. unfold Async.processBuffer.
  destruct (processors (Async.world s) !! this) as [p|]; [|exact Hw].
  destruct (processBufferEnter p) as [p' entry].
  assert (H1 : translationsCapped (upd_proc this (fun _ => p') (Async.world s)))
    by (eapply translationsCapped_same; [apply recentTranslations_upd_proc|exact Hw]).
  destruct entry as [| |audio ms]; cbn [Async.world]; try exact H1.
  pose proof (translationsCapped_begin timeNow this audio _ H1) as H2.
  destruct (Async.begin timeNow this audio _) as [w1 stage]. exact H2.
Qed.

Lemma translationsCapped_step e s :
  translationsCapped (Async.world s) ->
  translationsCapped (Async.world (Async.step e s)).
Proof.
  intros Hw. destruct e as [r|ref|i timeNow answer|timeNow|timeNow]; cbn [Async.step].
  - destruct r as [room lang t|room lang|room user|sock|ref ext data|ref ext|ref|ref];
      try (by apply translationsCapped_handle).
    + destruct data as [sid start|payload| | |ev];
        try (by apply translationsCapped_handle).
      destruct (processors (Async.world s) !! ref) as [p|]; [|exact Hw].
      destruct (handleMediaSync payload p) as [p' flushNow].
      assert (Hu : translationsCapped
                     (Async.world (Async.onWorld (upd_proc ref (fun _ => p')) s)))
        by (eapply translationsCapped_same; [apply recentTranslations_upd_proc|exact Hw]).
      destruct flushNow; [by apply translationsCapped_async_processBuffer|exact Hu].
    + destruct (processors (Async.world s) !! ref) as [p|]; [|exact Hw].
      destruct (silenceGuard p);
        [by apply translationsCapped_async_processBuffer|exact Hw].
  - eapply translationsCapped_same; [apply recentTranslations_upd_proc|exact Hw].
  - destruct (Async.suspended s !! i) as [[this stage]|]; [|exact Hw].
    destruct (Async.resume timeNow this stage answer (Async.world s))
      as [[w' next]|] eqn:Hr; [|exact Hw].
    pose proof (translationsCapped_resume _ _ _ _ _ _ _ Hr Hw) as Hw'.
    by destruct next.
  - by apply translationsCapped_sweep.
  - eapply translationsCapped_same; [|exact Hw].
    cbn [Async.world Async.onWorld]. by destruct (Async.world s).
Qed.

Lemma translationsCapped_reachable s :
  Async.reachable s -> translationsCapped (Async.world s).
Proof.
  apply (reachable_ind translationsCapped); [|apply translationsCapped_step].
  intros key l Hl. cbn in Hl. by rewrite lookup_empty in Hl.
Qed.

(** X19.  However long a call lasts, whatever pipelines are suspended and
    whenever the sweeps run, every list the server keeps for the polling
    UI holds at least one and at most 50 records. *)
Theorem translation_lists_stay_capped (s : Async.System) (key : string)
    (l : list TranslationData) :
  Async.reachable s -> recentTranslations (Async.world s) !! key = Some l ->
  (0 < length l <= 50)%nat.
Proof. intros Hs Hl. exact (translationsCapped_reachable s Hs key l Hl). Qed.

Lemma translation_lists_witness :
  recentTranslations (Async.world Scenario.heard) !! "room1:caller"
    = Some [{| originalText := "good morning"; translatedText := "good morning";
               fromLanguage := JStr "en"; toLanguage := JStr "en";
               isIncoming := false; translationTimestamp := 1700000001000 |}] /\
  (0 < 1 <= 50)%nat.
Proof.
  assert (Hl : recentTranslations (Async.world Scenario.heard) !! "room1:caller"
    = Some [{| originalText := "good morning"; translatedText := "good morning";
               fromLanguage := JStr "en"; toLanguage := JStr "en";
               isIncoming := false; translationTimestamp := 1700000001000 |}])
    by (vm_compute; reflexivity).
  split; [exact Hl|].
  apply (translation_lists_stay_capped Scenario.heard "room1:caller" _
           reachable_heard Hl).
Defined.

Lemma last_filter_snoc {A} (f : A -> bool) l d :
  f d = true -> last (List.filter f (l ++ [d])) = Some d.
Proof. intros Hd. rewrite List.filter_app. cbn. rewrite Hd. apply last_snoc. Qed.

(** X20.  A record stored by [addTranslation] is the last one a poll of the same
    room and user returns, whenever its timestamp is later than the poll's
    [since]. *)
Theorem stored_translation_is_polled_last
    (room user : JsVal) (d : TranslationData) (sinceTime : Z) (w : World) :
  truthy room = true -> sinceTime < translationTimestamp d ->
  exists l, getTranslations room user sinceTime (addTranslation room user d w) = Some l /\
    last l = Some d.
Proof.
  intros Hroom Hsince. unfold getTranslations. rewrite Hroom. cbn [negb]. cbv zeta.
  rewrite addTranslation_lookup, lookup_insert_eq. cbv zeta.
  eexists. split; [reflexivity|].
  assert (Hd : (sinceTime <? translationTimestamp d) = true) by (apply Z.ltb_lt; lia).
  set (old := match recentTranslations w !! _ with Some l => l | None => [] end).
  destruct (50 <? length (old ++ [d]))%nat eqn:E; [|by apply last_filter_snoc].
  destruct old as [|x old']; [discriminate E|]. cbn [app tail].
  by apply last_filter_snoc.
Qed.

Lemma stored_translation_witness :
  exists l, getTranslations (JStr "room1") (JStr "receiver") 1700000000000
              (addTranslation (JStr "room1") (JStr "receiver")
                 (Scenario.greeting 1700000000500) emptyWorld) = Some l /\
    last l = Some (Scenario.greeting 1700000000500).
Proof.
  apply (stored_translation_is_polled_last (JStr "room1") (JStr "receiver")
           (Scenario.greeting 1700000000500) 1700000000000 emptyWorld);
    [reflexivity|cbn; lia].
Defined.

(** X21.  After the periodic sweep every list that is left is non-empty, holds
    only records younger than ten minutes, and is the old list of that key
    with the older records removed, in the same order. *)
Theorem sweep_keeps_recent_records (timeNow : Z) (w : World) (key : string)
    (l : list TranslationData) :
  recentTranslations (sweepTranslations timeNow w) !! key = Some l ->
  l <> [] /\
  List.Forall (fun t => timeNow - translationTimestamp t < 600000) l /\
  exists l0, recentTranslations w !! key = Some l0 /\
    l = List.filter (fun t => timeNow - translationTimestamp t <? 600000) l0.
Proof.
  rewrite recentTranslations_sweep.
  destruct (recentTranslations w !! key) as [l0|]; cbn; [|discriminate].
  destruct (Nat.eqb_spec (length (List.filter
             (fun t => timeNow - translationTimestamp t <? 600000) l0)) 0) as [|Hne];
    [discriminate|].
  intros [= <-]. split; [by intros E; rewrite E in Hne|].
  split; [|by exists l0].
  apply List.Forall_forall. intros t Ht. apply filter_In in Ht as [_ Ht].
  by apply Z.ltb_lt.
Qed.

Lemma sweep_witness :
  let w := addTranslation (JStr "room1") (JStr "receiver") (Scenario.greeting 1700000500000)
             (addTranslation (JStr "room1") (JStr "receiver")
                (Scenario.greeting 1700000000000) emptyWorld) in
  recentTranslations (sweepTranslations 1700000700000 w) !! "room1:receiver"
    = Some [Scenario.greeting 1700000500000] /\
  [Scenario.greeting 1700000500000] <> [].
Proof.
  cbv zeta.
  assert (Hl : recentTranslations
                 (sweepTranslations 1700000700000
                    (addTranslation (JStr "room1") (JStr "receiver")
                       (Scenario.greeting 1700000500000)
                       (addTranslation (JStr "room1") (JStr "receiver")
                          (Scenario.greeting 1700000000000) emptyWorld)))
                 !! "room1:receiver" = Some [Scenario.greeting 1700000500000])
    by (vm_compute; reflexivity).
  split; [exact Hl|].
  exact (proj1 (sweep_keeps_recent_records 1700000700000 _ "room1:receiver" _ Hl)).
Defined.

(** X22.  Running the sweep twice at the same time is the same as running it
    once, and the sweep touches neither the rooms nor the processors. *)
Theorem sweep_idempotent (timeNow : Z) (w : World) :
  sweepTranslations timeNow (sweepTranslations timeNow w) = sweepTranslations timeNow w /\
  activeSessions (sweepTranslations timeNow w) = activeSessions w /\
  processors (sweepTranslations timeNow w) = processors w.
Proof.
  split; [|by destruct w].
  destruct w as [m procs tr calls]. unfold sweepTranslations. cbn. f_equal.
  apply map_eq. intros key. rewrite !lookup_omap.
  destruct (tr !! key) as [l0|]; cbn; [|reflexivity].
  destruct (Nat.eqb_spec (length (List.filter
             (fun t => timeNow - translationTimestamp t <? 600000) l0)) 0) as [|Hne];
    cbn [mbind option_bind]; [reflexivity|].
  rewrite filter_idem. apply Nat.eqb_neq in Hne. by rewrite Hne.
Qed.

End TranslationStore.
(** ** What the peer receives *)

Section SenderExtras.

Lemma substring_empty i m : substring i m EmptyString = EmptyString.
Proof. by destruct i, m. Qed.

Lemma substring_zero s i : substring i 0 s = EmptyString.
Proof.
  revert i. induction s as [|c s IH]; intros i; [apply substring_empty|].
  destruct i; [reflexivity|apply IH].
Qed.

Lemma substring_split s i a b :
  substring i (a + b) s = (substring i a s +:+ substring (i + a) b s)%string.
Proof.
  revert i a. induction s as [|c s IH]; intros i a.
  - by rewrite !substring_empty.
  - destruct i as [|i].
    + destruct a as [|a]; [reflexivity|]. cbn. rewrite (IH 0%nat a). reflexivity.
    + cbn. apply IH.
Qed.

Lemma substring_trunc s i m :
  (String.length s - i <= m)%nat ->
  substring i m s = substring i (String.length s - i) s.
Proof.
  revert i m. induction s as [|c s IH]; intros i m Hm.
  - by rewrite !substring_empty.
  - destruct i as [|i].
    + cbn in Hm. destruct m as [|m]; [lia|]. cbn. f_equal.
      rewrite (IH 0%nat m) by lia. by rewrite Nat.sub_0_r.
    + cbn. apply IH. cbn in Hm. lia.
Qed.

Lemma substring_length s i m :
  String.length (substring i m s) = Nat.min m (String.length s - i).
Proof.
  revert i m. induction s as [|c s IH]; intros i m.
  - rewrite substring_empty. cbn. lia.
  - destruct i as [|i].
    + destruct m as [|m]; [reflexivity|]. cbn. rewrite (IH 0%nat m). lia.
    + cbn. apply IH.
Qed.

Lemma substring_whole s : substring 0 (String.length s) s = s.
Proof. induction s as [|c s IH]; cbn; [reflexivity|by rewrite IH]. Qed.

Lemma append_empty_r s : (s +:+ EmptyString)%string = s.
Proof.
  induction s as [|c s IH]; [reflexivity|].
  change (String c (s +:+ EmptyString) = String c s). by rewrite IH.
Qed.

Lemma ceilDiv_pos a b : (0 < b)%nat -> ceilDiv a b = 0%nat -> a = 0%nat.
Proof.
  intros Hb H. destruct a as [|a]; [reflexivity|].
  rewrite ceilDiv_step in H by lia. discriminate H.
Qed.

(** The slices the loop sends, put back together, are the rest of the
    text, and none of them is empty or longer than [chunkSize]. *)
Lemma slices_join n chunkSize s i :
  (0 < chunkSize)%nat -> n = ceilDiv (String.length s - i) chunkSize ->
  joinChunks (slices n chunkSize s i) = substring i (String.length s - i) s /\
  List.Forall (fun c => (0 < String.length c <= chunkSize)%nat) (slices n chunkSize s i).
Proof.
  intros Hcs. revert i. induction n as [|n IH]; intros i Hn.
  - symmetry in Hn. apply ceilDiv_pos in Hn; [|exact Hcs]. rewrite Hn.
    cbn. by rewrite substring_zero.
  - assert (Hr : (0 < String.length s - i)%nat).
    { destruct (String.length s - i)%nat; [|lia].
      rewrite ceilDiv_zero in Hn by exact Hcs. discriminate Hn. }
    rewrite ceilDiv_step in Hn by assumption.
    injection Hn as Hn.
    replace (String.length s - i - chunkSize)%nat
      with (String.length s - (i + chunkSize))%nat in Hn by lia.
    destruct (IH (i + chunkSize)%nat Hn) as [Hjoin Hall].
    cbn [slices joinChunks fold_right]. fold (joinChunks (slices n chunkSize s (i + chunkSize))).
    rewrite Hjoin. split.
    + destruct (Nat.le_gt_cases chunkSize (String.length s - i)) as [Hle|Hgt].
      * rewrite <- substring_split. f_equal. lia.
      * replace (String.length s - (i + chunkSize))%nat with 0%nat by lia.
        rewrite substring_zero, append_empty_r. apply substring_trunc. lia.
    + constructor; [|exact Hall]. rewrite substring_length. lia.
Qed.

Lemma mediaPayloads_sent sid chunks (rest : list Message) :
  mediaPayloads (List.map (MediaMsg sid) chunks ++ rest) = chunks ++ mediaPayloads rest.
Proof. induction chunks as [|c chunks IH]; cbn; [reflexivity|]. by f_equal. Qed.

Lemma lookup_after_send this other sock' w oc (done : bool) :
  processors w !! other = Some oc ->
  exists oc',
    processors (if done
                then upd_proc this (fun p => set_stats (inc_audiosSent (stats p)) p)
                       (upd_proc other (set_ws (Some sock')) w)
                else upd_proc other (set_ws (Some sock')) w) !! other = Some oc' /\
    outbox oc' = sent sock'.
Proof.
  intros Hoc. destruct done.
  - destruct (decide (this = other)) as [->|Hne].
    + rewrite !lookup_upd_proc_eq, Hoc. cbn. eexists; split; [reflexivity|].
      by rewrite outbox_inc_audiosSent, outbox_set_ws.
    + rewrite lookup_upd_proc_ne by done. rewrite lookup_upd_proc_eq, Hoc. cbn.
      eexists; split; [reflexivity|]. by rewrite outbox_set_ws.
  - rewrite lookup_upd_proc_eq, Hoc. cbn. eexists; split; [reflexivity|].
    by rewrite outbox_set_ws.
Qed.

(** X23.  When the peer's socket is open and accepts every send, the media
    payloads it receives, put back together in order, are exactly the
    base64 text of the audio; no chunk is empty or longer than
    [chunkSize]. *)
Theorem sent_chunks_reassemble
    (chunkSize : nat) (timeNow : Z) (this other : nat) (audio : list byte)
    (w : World) (oc : Processor) (sock : WebSocket) :
  (0 < chunkSize)%nat ->
  processors w !! other = Some oc ->
  ws oc = Some sock ->
  readyState sock = 1 ->
  sendBudget sock = None ->
  let w' := sendToOtherUserWith chunkSize timeNow this (Some audio) (SlotRef other) w in
  exists oc' new, processors w' !! other = Some oc' /\
    outbox oc' = outbox oc ++ new /\
    joinChunks (mediaPayloads new) = Base64.encode audio /\
    List.Forall (fun c => (0 < String.length c <= chunkSize)%nat) (mediaPayloads new).
Proof.
  intros Hcs Hoc Hws Hopen Hbudget. cbv zeta.
  unfold sendToOtherUserWith. rewrite Hoc, Hws, Hopen. cbn [Z.eqb Pos.eqb negb].
  rewrite sendAll_open by assumption.
  set (sock' := {| readyState := _; sent := _; sendBudget := _ |}).
  destruct (lookup_after_send this other sock' w oc true Hoc) as (oc' & Hoc' & Hsent).
  exists oc'. eexists. split; [exact Hoc'|]. split.
  { rewrite Hsent. unfold sock', outbox. rewrite Hws. cbn [sent]. reflexivity. }
  rewrite mediaPayloads_sent. cbn [mediaPayloads omap list_omap]. rewrite app_nil_r.
  destruct (slices_join (ceilDiv (4 * ceilDiv (length audio) 3) chunkSize) chunkSize
              (Base64.encode audio) 0 Hcs) as [Hjoin Hall].
  { by rewrite Nat.sub_0_r, base64_length. }
  split; [|exact Hall]. rewrite Hjoin, Nat.sub_0_r. apply substring_whole.
Qed.

Lemma sent_chunks_witness :
  exists oc' new,
    processors (sendToOtherUser 1700000000000 0 (Some Scenario.frame) (SlotRef 1)
                  Scenario.oneConnectionPair) !! 1%nat = Some oc' /\
    outbox oc' = outbox (newProcessor Scenario.openSocket) ++ new /\
    joinChunks (mediaPayloads new) = Base64.encode Scenario.frame /\
    List.Forall (fun c => (0 < String.length c <= 160)%nat) (mediaPayloads new).
Proof.
  apply (sent_chunks_reassemble 160 1700000000000 0 1 Scenario.frame
           Scenario.oneConnectionPair (newProcessor Scenario.openSocket)
           Scenario.openSocket);
    [lia|reflexivity|reflexivity|reflexivity|reflexivity].
Defined.

Lemma sendChunks_budget fuel chunkSize s i sid sock chunkCount b :
  (0 < chunkSize)%nat ->
  sendBudget sock = Some b ->
  (String.length s - i < fuel)%nat ->
  let k := ceilDiv (String.length s - i) chunkSize in
  sendChunks fuel chunkSize s i sid sock chunkCount =
  ({| readyState := readyState sock;
      sent := sent sock ++ List.map (MediaMsg sid) (firstn b (slices k chunkSize s i));
      sendBudget := Some (b - k)%nat |},
   if (k <=? b)%nat then Ok (chunkCount + k)%nat else Throw "send failed").
Proof.
  intros Hcs. revert i sock chunkCount b.
  induction fuel as [|fuel IH]; intros i sock chunkCount b Hb Hfuel; [lia|].
  cbn [sendChunks]. destruct (Nat.ltb_spec i (String.length s)) as [Hlt|Hge].
  - rewrite (ceilDiv_step (String.length s - i) chunkSize) by lia.
    replace (String.length s - i - chunkSize)%nat
      with (String.length s - (i + chunkSize))%nat by lia.
    unfold ws_send. rewrite Hb. destruct b as [|b].
    + cbn. rewrite app_nil_r. destruct sock as [r l bd]. cbn in *. by subst bd.
    + rewrite (IH (i + chunkSize)%nat _ (S chunkCount) b) by (cbn; first [reflexivity|lia]).
      cbn [readyState sent sendBudget slices firstn List.map Nat.sub Nat.leb].
      rewrite <- app_assoc. cbn [app].
      replace (S chunkCount + ceilDiv (String.length s - (i + chunkSize)) chunkSize)%nat
        with (chunkCount + S (ceilDiv (String.length s - (i + chunkSize)) chunkSize))%nat
        by lia.
      reflexivity.
  - replace (String.length s - i)%nat with 0%nat by lia.
    rewrite ceilDiv_zero by exact Hcs. cbn [slices firstn List.map Nat.leb].
    rewrite firstn_nil. cbn [List.map].
    rewrite app_nil_r, Nat.add_0_r, Nat.sub_0_r. destruct sock as [r l bd]. cbn in *.
    by subst bd.
Qed.

Lemma sendAll_budget chunkSize timeNow audio sid sock b :
  (0 < chunkSize)%nat ->
  sendBudget sock = Some b ->
  let k := ceilDiv (4 * ceilDiv (length audio) 3) chunkSize in
  let media := List.map (MediaMsg sid) (slices k chunkSize (Base64.encode audio) 0) in
  let mark := MarkMsg sid ("audio_complete_" +:+ pretty timeNow) in
  sendAll chunkSize timeNow audio sid sock =
  ({| readyState := readyState sock;
      sent := sent sock ++ firstn b (media ++ [mark]);
      sendBudget := Some (b - S k)%nat |}, (k <? b)%nat).
Proof.
  intros Hcs Hb. cbv zeta. unfold sendAll.
  rewrite (sendChunks_budget _ _ _ _ _ _ _ b) by (first [assumption | lia]).
  rewrite Nat.sub_0_r, base64_length.
  set (k := ceilDiv (4 * ceilDiv (length audio) 3) chunkSize).
  set (chunks := slices k chunkSize (Base64.encode audio) 0).
  assert (Hlen : length chunks = k) by apply slices_length.
  rewrite firstn_app, length_map, Hlen, firstn_map.
  destruct (Nat.leb_spec k b) as [Hle|Hgt].
  - unfold ws_send. cbn [sendBudget readyState sent].
    rewrite (firstn_all2 chunks) by lia.
    destruct (b - k)%nat as [|n] eqn:E.
    + cbn [firstn]. rewrite app_nil_r.
      replace (b - S k)%nat with 0%nat by lia.
      destruct (Nat.ltb_spec k b); [lia|reflexivity].
    + cbn [firstn]. rewrite firstn_nil, <- app_assoc.
      replace (b - S k)%nat with n by lia.
      destruct (Nat.ltb_spec k b); [reflexivity|lia].
  - replace (b - k)%nat with 0%nat by lia. cbn [firstn]. rewrite app_nil_r.
    replace (b - S k)%nat with 0%nat by lia.
    destruct (Nat.ltb_spec k b); [lia|reflexivity].
Qed.

Lemma audiosSent_after_send this other sock' w p (done : bool) :
  processors w !! this = Some p ->
  exists p',
    processors (if done
                then upd_proc this (fun p => set_stats (inc_audiosSent (stats p)) p)
                       (upd_proc other (set_ws (Some sock')) w)
                else upd_proc other (set_ws (Some sock')) w) !! this = Some p' /\
    audiosSent (stats p') = audiosSent (stats p) + (if done then 1 else 0).
Proof.
  intros Hp.
  assert (Hset : forall q, stats (set_ws (Some sock') q) = stats q) by (by intros []).
  assert (Hinc : forall q, audiosSent (stats (set_stats (inc_audiosSent (stats q)) q))
                           = audiosSent (stats q) + 1)
    by (by intros [? ? ? ? ? ? ? ? ? ? ? ? ? [] ? ? ?]).
  destruct done.
  - rewrite lookup_upd_proc_eq. destruct (decide (this = other)) as [->|Hne].
    + rewrite lookup_upd_proc_eq, Hp. cbn. eexists; split; [reflexivity|].
      by rewrite Hinc, Hset.
    + rewrite lookup_upd_proc_ne by done. rewrite Hp. cbn.
      eexists; split; [reflexivity|]. by rewrite Hinc.
  - destruct (decide (this = other)) as [->|Hne].
    + rewrite lookup_upd_proc_eq, Hp. cbn. eexists; split; [reflexivity|].
      rewrite Hset. lia.
    + rewrite lookup_upd_proc_ne by done. exists p. split; [exact Hp|lia].
Qed.

(** X24.  When the peer's transport accepts only [b] more sends, the peer gets
    the first [b] of the messages (chunks in order, then the mark), nothing
    after the send that failed is attempted, and [stats.audiosSent] is
    incremented only if the mark itself went out. *)
Theorem send_stops_at_first_failure
    (chunkSize : nat) (timeNow : Z) (this other : nat) (audio : list byte)
    (w : World) (oc p : Processor) (sock : WebSocket) (b : nat) :
  (0 < chunkSize)%nat ->
  processors w !! other = Some oc ->
  processors w !! this = Some p ->
  ws oc = Some sock ->
  readyState sock = 1 ->
  sendBudget sock = Some b ->
  let w' := sendToOtherUserWith chunkSize timeNow this (Some audio) (SlotRef other) w in
  let k := ceilDiv (4 * ceilDiv (length audio) 3) chunkSize in
  let media := List.map (MediaMsg (streamSid oc))
                 (slices k chunkSize (Base64.encode audio) 0) in
  let mark := MarkMsg (streamSid oc) ("audio_complete_" +:+ pretty timeNow) in
  exists oc' p', processors w' !! other = Some oc' /\
    outbox oc' = outbox oc ++ firstn b (media ++ [mark]) /\
    processors w' !! this = Some p' /\
    audiosSent (stats p') = audiosSent (stats p) + (if (k <? b)%nat then 1 else 0).
Proof.
  intros Hcs Hoc Hp Hws Hopen Hbudget. cbv zeta.
  unfold sendToOtherUserWith. rewrite Hoc, Hws, Hopen. cbn [Z.eqb Pos.eqb negb].
  rewrite (sendAll_budget _ _ _ _ _ b) by assumption.
  set (sock' := {| readyState := _; sent := _; sendBudget := _ |}).
  set (done := (_ <? b)%nat).
  destruct (lookup_after_send this other sock' w oc done Hoc) as (oc' & Hoc' & Hsent).
  destruct (audiosSent_after_send this other sock' w p done Hp) as (p' & Hp' & Hcount).
  exists oc', p'. split; [exact Hoc'|]. split; [|split; [exact Hp'|exact Hcount]].
  rewrite Hsent. unfold sock', outbox. rewrite Hws. reflexivity.
Qed.

Lemma send_stops_witness :
  exists oc' p',
    processors (sendToOtherUser 1700000000000 0 (Some Scenario.frame) (SlotRef 1)
                  Scenario.failingPeer) !! 1%nat = Some oc' /\
    outbox oc' = outbox (newProcessor Scenario.lastSend)
                 ++ firstn 1 (List.map (MediaMsg (streamSid (newProcessor Scenario.lastSend)))
                                (slices (ceilDiv (4 * ceilDiv (length Scenario.frame) 3) 160)
                                   160 (Base64.encode Scenario.frame) 0)
                              ++ [MarkMsg (streamSid (newProcessor Scenario.lastSend))
                                    ("audio_complete_" +:+ pretty 1700000000000)]) /\
    processors (sendToOtherUser 1700000000000 0 (Some Scenario.frame) (SlotRef 1)
                  Scenario.failingPeer) !! 0%nat = Some p' /\
    audiosSent (stats p') = audiosSent (stats (newProcessor Scenario.openSocket))
      + (if (ceilDiv (4 * ceilDiv (length Scenario.frame) 3) 160 <? 1)%nat then 1 else 0).
Proof.
  apply (send_stops_at_first_failure 160 1700000000000 0 1 Scenario.frame
           Scenario.failingPeer (newProcessor Scenario.lastSend)
           (newProcessor Scenario.openSocket) Scenario.lastSend 1);
    [lia|reflexivity|reflexivity|reflexivity|reflexivity|reflexivity].
Defined.

End SenderExtras.
(** ** Audio is handed over, never lost *)

Section LegAudio.

Lemma flush_keeps_audio l :
  legReady l ->
  isProcessing (proc l) = true \/ audioBuffer (proc l) = [] \/
    minBufferDuration (proc l) <= bufferDuration (proc l) ->
  audioOf (flush l) = audioOf l /\ legReady (flush l).
Proof.
  unfold legReady, audioOf, flush, processBufferEnter.
  destruct l as [p fl la].
  destruct p as [? ? ? lang ? ? ? buf dur maxD minD busy timer ? ? ? ?]. cbn.
  intros [Hlang Hmm] Hcase. rewrite Hlang. cbn.
  destruct buf as [|x buf]; cbn; [done|].
  destruct busy; cbn; [done|].
  destruct Hcase as [Hc|[Hc|Hc]]; try discriminate Hc.
  assert (Hd : (dur <? minD) = false) by (apply Z.ltb_ge; lia).
  destruct timer as [h|]; cbn; rewrite Hd; cbn;
    rewrite concat_app; cbn; rewrite !app_nil_r; done.
Qed.

Lemma frame_keeps_audio payload l :
  legReady l ->
  audioOf (legStep (Frame payload) l) = audioOf l ++ payload /\
  legReady (legStep (Frame payload) l).
Proof.
  intros Hready. cbn [legStep].
  assert (H : let r := handleMediaSync payload (proc l) in
              audioBuffer (fst r) = audioBuffer (proc l) ++ [payload] /\
              myLanguage (fst r) = myLanguage (proc l) /\
              minBufferDuration (fst r) = minBufferDuration (proc l) /\
              maxBufferDuration (fst r) = maxBufferDuration (proc l) /\
              (snd r = true -> maxBufferDuration (fst r) <= bufferDuration (fst r))).
  { destruct Hready as [Hlang _]. unfold handleMediaSync. rewrite Hlang.
    destruct (proc l) as [? ? ? lang ? ? ? buf dur maxD minD busy timer [] ? ? ?].
    cbn. destruct timer as [h|]; cbn;
      destruct (Z.leb_spec maxD (dur + 20)); destruct busy; cbn; split_ands;
      try done; try lia. }
  cbv zeta in H. destruct (handleMediaSync payload (proc l)) as [p now].
  cbn [fst snd] in H. destruct H as (Hbuf & Hlang & Hmin & Hmax & Hnow).
  set (l' := {| proc := p; inFlight := inFlight l; launched := launched l |}).
  assert (Haudio : audioOf l' = audioOf l ++ payload).
  { unfold audioOf, l'. cbn [proc launched]. rewrite Hbuf, concat_app. cbn.
    by rewrite app_nil_r, app_assoc. }
  assert (Hready' : legReady l').
  { destruct Hready as [H1 H2]. unfold legReady, l'. cbn [proc].
    by rewrite Hlang, Hmin, Hmax. }
  destruct now; [|done].
  destruct (flush_keeps_audio l' Hready') as [H1 H2].
  { right; right. destruct Hready' as [_ Hmm]. specialize (Hnow eq_refl).
    unfold l' in *. cbn [proc] in *. lia. }
  by rewrite H1.
Qed.

Lemma step_keeps_audio e l :
  isStreaming e = true -> legReady l ->
  audioOf (legStep e l)
    = audioOf l ++ match e with Frame payload => payload | _ => [] end /\
  legReady (legStep e l).
Proof.
  intros He Hready.
  destruct e as [payload| | |i|sid st|how]; try discriminate He;
    [by apply frame_keeps_audio| |].
  - cbn [legStep]. rewrite app_nil_r. unfold silenceGuard.
    destruct (0 <? length (audioBuffer (proc l)))%nat; cbn [andb]; [|done].
    destruct (isProcessing (proc l)); cbn [negb andb]; [done|].
    destruct (Z.leb_spec (minBufferDuration (proc l)) (bufferDuration (proc l)));
      [|done].
    apply flush_keeps_audio; [exact Hready|]. by right; right.
  - cbn [legStep]. rewrite app_nil_r. destruct (inFlight l !! i); [|done].
    unfold audioOf, legReady in *. cbn [proc launched]. by destruct (proc l).
Qed.

(** X25.  On a leg whose language is set, every frame received is either part of
    a segment handed to a pipeline or still in the buffer, in arrival
    order: media events, timer callbacks and pipeline completions never
    drop or reorder audio. *)
Theorem leg_never_drops_audio (es : list LegEvent) (l : Leg) :
  truthy (myLanguage (proc l)) = true ->
  minBufferDuration (proc l) <= maxBufferDuration (proc l) ->
  List.Forall (fun e => isStreaming e = true) es ->
  audioOf (legRun es l) = audioOf l ++ concat (framesOf es).
Proof.
  intros Hlang Hmm Hes.
  assert (Hready : legReady l) by done. clear Hlang Hmm.
  revert l Hready. induction Hes as [|e es He Hes IH]; intros l Hready.
  - cbn. by rewrite app_nil_r.
  - change (legRun (e :: es) l) with (legRun es (legStep e l)).
    destruct (step_keeps_audio e l He Hready) as [Hstep Hready'].
    rewrite (IH _ Hready'), Hstep, <- app_assoc. f_equal.
    by destruct e.
Qed.

Lemma leg_audio_witness :
  audioOf (legRun [Frame Scenario.frame; TimerFires; Frame Scenario.frame;
                   PipelineDone 0] Scenario.callerLeg)
  = audioOf Scenario.callerLeg ++ Scenario.frame ++ Scenario.frame.
Proof.
  rewrite (leg_never_drops_audio
             [Frame Scenario.frame; TimerFires; Frame Scenario.frame; PipelineDone 0]
             Scenario.callerLeg).
  - cbn [framesOf omap list_omap concat]. by rewrite app_nil_r.
  - vm_compute. reflexivity.
  - vm_compute. discriminate.
  - repeat constructor.
Defined.

End LegAudio.
(** ** Rooms that disappear under a call *)

Section RoomExpiry.








End RoomExpiry.
(** ** A leg torn down while its pipeline is suspended *)

Section Teardown.

Lemma endLeg_resets how p :
  audioBuffer (endLeg how p) = [] /\ bufferDuration (endLeg how p) = 0 /\
  isProcessing (endLeg how p) = false /\
  myLanguage (endLeg how p) = myLanguage p /\
  minBufferDuration (endLeg how p) = minBufferDuration p /\
  maxBufferDuration (endLeg how p) = maxBufferDuration p.
Proof.
  unfold endLeg, cleanupFields, Server.markClosed.
  destruct p as [[sock|] ? ? ? ? ? uid ? ? ? ? ? [h|] ? ? ? ?], how; cbn;
    destruct (truthy uid); cbn; done.
Qed.

Lemma handleMediaSync_idle_below payload p :
  truthy (myLanguage p) = true -> isProcessing p = false ->
  bufferDuration p + 20 < maxBufferDuration p ->
  let r := handleMediaSync payload p in
  snd r = false /\
  audioBuffer (fst r) = audioBuffer p ++ [payload] /\
  bufferDuration (fst r) = bufferDuration p + 20 /\
  isProcessing (fst r) = false /\ myLanguage (fst r) = myLanguage p /\
  minBufferDuration (fst r) = minBufferDuration p /\
  maxBufferDuration (fst r) = maxBufferDuration p.
Proof.
  intros Hl Hb Hd. cbv zeta. unfold handleMediaSync. rewrite Hl.
  destruct p as [? ? ? ? ? ? ? ? dur maxD ? busy [h|] [] ? ? ?]; cbn in *; subst busy;
    (destruct (Z.leb_spec maxD (dur + 20)); [lia|]); cbn; done.
Qed.

(** Below the maximum duration an idle leg only buffers. *)
Lemma frames_pile_up frames l :
  truthy (myLanguage (proc l)) = true -> isProcessing (proc l) = false ->
  bufferDuration (proc l) + 20 * Z.of_nat (length frames) < maxBufferDuration (proc l) ->
  let l' := legRun (List.map Frame frames) l in
  audioBuffer (proc l') = audioBuffer (proc l) ++ frames /\
  bufferDuration (proc l') = bufferDuration (proc l) + 20 * Z.of_nat (length frames) /\
  isProcessing (proc l') = false /\ myLanguage (proc l') = myLanguage (proc l) /\
  minBufferDuration (proc l') = minBufferDuration (proc l) /\
  maxBufferDuration (proc l') = maxBufferDuration (proc l) /\
  inFlight l' = inFlight l /\ launched l' = launched l.
Proof.
  revert l. induction frames as [|f frames IH]; intros l Hl Hb Hd; cbv zeta.
  - cbn. rewrite app_nil_r. split_ands; try done; lia.
  - cbn [List.map]. change (legRun (Frame f :: ?es) l) with (legRun es (legStep (Frame f) l)).
    cbn [length] in Hd.
    destruct (handleMediaSync_idle_below f (proc l) Hl Hb ltac:(lia))
      as (H0 & H1 & H2 & H3 & H4 & H5 & H6).
    cbn [legStep]. destruct (handleMediaSync f (proc l)) as [p now].
    cbn [fst snd] in *. subst now.
    set (l1 := {| proc := p; inFlight := inFlight l; launched := launched l |}).
    destruct (IH l1) as (I1 & I2 & I3 & I4 & I5 & I6 & I7 & I8).
    { cbn. by rewrite H4. }
    { exact H3. }
    { cbn [proc l1]. rewrite H2, H6. lia. }
    cbn [proc l1 inFlight launched] in *.
    rewrite I1, I2, I3, I4, I5, I6, I7, I8, H1, H2, H4, H5, H6, <- app_assoc.
    cbn [length]. split_ands; try done; lia.
Qed.

(** X27.  A stop, close or error event does not cancel a suspended
    pipeline, yet it clears the busy flag: once the leg has buffered at
    least [minBufferDuration] of new audio (and less than the maximum), the
    silence timer hands it to a further pipeline while every earlier one
    is still in flight. *)
Theorem teardown_lets_second_pipeline_start
    (l : Leg) (how : Ending) (frames : list (list byte)) :
  truthy (myLanguage (proc l)) = true ->
  frames <> [] ->
  minBufferDuration (proc l) <= 20 * Z.of_nat (length frames) ->
  20 * Z.of_nat (length frames) < maxBufferDuration (proc l) ->
  let l' := legRun (Ended how :: List.map Frame frames ++ [TimerFires]) l in
  inFlight l' = inFlight l ++ [concat frames] /\
  launched l' = launched l ++ [concat frames] /\
  isProcessing (proc l') = true /\
  (inFlight l <> [] -> ~ singleFlight l').
Proof.
  intros Hl Hne Hmin Hmax. cbv zeta.
  change (legRun (Ended how :: ?es) l) with (legRun es (legStep (Ended how) l)).
  unfold legRun. rewrite fold_left_app. fold (legRun (List.map Frame frames)
    (legStep (Ended how) l)).
  cbn [legStep].
  destruct (endLeg_resets how (proc l)) as (E1 & E2 & E3 & E4 & E5 & E6).
  set (l0 := {| proc := endLeg how (proc l); inFlight := inFlight l;
                launched := launched l |}).
  destruct (frames_pile_up frames l0) as (I1 & I2 & I3 & I4 & I5 & I6 & I7 & I8).
  { cbn. by rewrite E4. }
  { exact E3. }
  { cbn [proc l0]. rewrite E2, E6. lia. }
  cbn [proc l0 inFlight launched] in *.
  rewrite E1 in I1. rewrite E2 in I2. cbn [app] in I1.
  set (l1 := legRun (List.map Frame frames) l0) in *.
  cbn [fold_left legStep].
  assert (Hguard : silenceGuard (proc l1) = true).
  { unfold silenceGuard. rewrite I1, I2, I3, I5, E5.
    destruct frames; [done|]. cbn [length Nat.ltb Nat.leb negb andb].
    apply Z.leb_le. exact Hmin. }
  rewrite Hguard. unfold flush.
  assert (Hbuf : audioBuffer (proc l1) <> []) by (by rewrite I1).
  assert (Hlang : truthy (myLanguage (proc l1)) = true) by (by rewrite I4, E4).
  destruct (processBufferEnter_flush (proc l1) I3 Hbuf Hlang)
    as (_ & _ & _ & _ & _ & _ & _ & Hentry).
  assert (Hd : (bufferDuration (proc l1) <? minBufferDuration (proc l1)) = false)
    by (apply Z.ltb_ge; rewrite I2, I5, E5; lia).
  rewrite Hd in Hentry. destruct Hentry as [Hrun Hbusy].
  destruct (processBufferEnter (proc l1)) as [p' entry]. cbn [fst snd] in *.
  subst entry. cbn [proc inFlight launched]. rewrite I1, I7, I8.
  split; [reflexivity|]. split; [reflexivity|]. split; [exact Hbusy|].
  intros Hin [Hone _]. specialize (Hone Hbusy). cbn [inFlight] in Hone.
  rewrite length_app in Hone. cbn in Hone.
  destruct (inFlight l); [done|]. cbn in Hone. lia.
Qed.

Lemma teardown_witness :
  length (inFlight (legStep TimerFires Scenario.callerLeg)) = 1%nat /\
  inFlight (legRun (Ended ByStop :: List.map Frame (repeat Scenario.frame 25)
                      ++ [TimerFires]) (legStep TimerFires Scenario.callerLeg))
  = inFlight (legStep TimerFires Scenario.callerLeg)
    ++ [concat (repeat Scenario.frame 25)].
Proof.
  assert (H1 : truthy (myLanguage (proc (legStep TimerFires Scenario.callerLeg))) = true)
    by (vm_compute; reflexivity).
  assert (H2 : repeat Scenario.frame 25 <> []) by discriminate.
  assert (H3 : minBufferDuration (proc (legStep TimerFires Scenario.callerLeg))
               <= 20 * Z.of_nat (length (repeat Scenario.frame 25)))
    by (vm_compute; discriminate).
  assert (H4 : 20 * Z.of_nat (length (repeat Scenario.frame 25))
               < maxBufferDuration (proc (legStep TimerFires Scenario.callerLeg)))
    by (vm_compute; reflexivity).
  split; [vm_compute; reflexivity|].
  exact (proj1 (teardown_lets_second_pipeline_start
                  (legStep TimerFires Scenario.callerLeg) ByStop
                  (repeat Scenario.frame 25) H1 H2 H3 H4)).
Defined.

End Teardown.
(** ** Leaving a room *)

Section LeaveRoom.

Import Server.

Ltac registry_step :=
  first [ rewrite activeSessions_sendToOtherUserWith
        | rewrite activeSessions_upd_proc
        | rewrite activeSessions_logCalls
        | rewrite activeSessions_addTranslation ].

Lemma activeSessions_begin timeNow this mulawAudio w :
  activeSessions (fst (Async.begin timeNow this mulawAudio w)) = activeSessions w.
Proof.
  unfold Async.begin, Async.finally.
  repeat case_match; subst; cbn [fst]; repeat registry_step; reflexivity.
Qed.

Lemma activeSessions_resume timeNow this stage answer w w' next :
  Async.resume timeNow this stage answer w = Some (w', next) ->
  activeSessions w' = activeSessions w.
Proof.
  unfold Async.resume, Async.continueRecognized, Async.continueTranslated,
    Async.callPremium, Async.callSimple, Async.deliver, Async.abandon, Async.finally,
    sendToOtherUser.
  intros H. repeat case_match; subst; try discriminate H;
    apply (inj Some) in H; apply (f_equal fst) in H; cbn [fst] in H; subst w';
    repeat registry_step; reflexivity.
Qed.

Lemma activeSessions_async_processBuffer timeNow this s :
  activeSessions (Async.world (Async.processBuffer timeNow this s))
  = activeSessions (Async.world s).
Proof.
  unfold Async.processBuffer.
  destruct (processors (Async.world s) !! this) as [p|]; [|reflexivity].
  destruct (processBufferEnter p) as [p' entry].
  destruct entry as [| |audio ms]; cbn [Async.world];
    try apply activeSessions_upd_proc.
  pose proof (activeSessions_begin timeNow this audio
                (upd_proc this (fun _ => p') (Async.world s))) as H.
  destruct (Async.begin timeNow this audio _) as [w1 stage]. cbn [fst Async.world] in *.
  by rewrite H, activeSessions_upd_proc.
Qed.

Lemma routeSlotsEmpty_step e s :
  routeSlotsEmpty (Async.world s) -> routeSlotsEmpty (Async.world (Async.step e s)).
Proof.
  intros Hw. destruct e as [r|ref|i timeNow answer|timeNow|timeNow]; cbn [Async.step].
  - destruct r as [room lang t|room lang|room user|sock|ref ext data|ref ext|ref|ref];
      try (by apply routeSlotsEmpty_handle).
    + destruct data as [sid start|payload| | |ev];
        try (by apply routeSlotsEmpty_handle).
      destruct (processors (Async.world s) !! ref) as [p|]; [|exact Hw].
      destruct (handleMediaSync payload p) as [p' flushNow].
      eapply routeSlotsEmpty_same_sessions; [|exact Hw].
      destruct flushNow; rewrite ?activeSessions_async_processBuffer;
        apply activeSessions_upd_proc.
    + destruct (processors (Async.world s) !! ref) as [p|]; [|exact Hw].
      destruct (silenceGuard p); [|exact Hw].
      eapply routeSlotsEmpty_same_sessions;
        [apply activeSessions_async_processBuffer|exact Hw].
  - eapply routeSlotsEmpty_same_sessions; [apply activeSessions_upd_proc|exact Hw].
  - destruct (Async.suspended s !! i) as [[this stage]|]; [|exact Hw].
    destruct (Async.resume timeNow this stage answer (Async.world s))
      as [[w' next]|] eqn:Hr; [|exact Hw].
    assert (Hw' : routeSlotsEmpty w')
      by (eapply routeSlotsEmpty_same_sessions; [eapply activeSessions_resume, Hr|exact Hw]).
    by destruct next.
  - eapply routeSlotsEmpty_same_sessions; [|exact Hw].
    cbn [Async.world Async.onWorld]. by destruct (Async.world s).
  - intros key session. cbn [Async.world Async.onWorld].
    destruct (Async.world s) as [m procs tr calls] eqn:E. cbn.
    rewrite lookup_omap. destruct (m !! key) as [s0|] eqn:Hk; cbn; [|done].
    destruct (3600000 <? timeNow - createdAt s0); [done|].
    intros [= <-]. apply (Hw key s0). exact Hk.
Qed.

Lemma routeSlotsEmpty_async s :
  Async.reachable s -> routeSlotsEmpty (Async.world s).
Proof.
  apply (reachable_ind routeSlotsEmpty); [|apply routeSlotsEmpty_step].
  intros key session H. cbn in H. by rewrite lookup_empty in H.
Qed.

(** X15.  In every state the process reaches, pipelines suspended or not
    and whenever the sweeps ran, leaving a room deletes it and nothing
    else from the registry, and no socket receives a message because of
    it. *)
Theorem leaveRoom_deletes_room_only
    (s : Async.System) (room : string) (user : JsVal) :
  Async.reachable s ->
  let w := Async.world s in
  activeSessions (leaveRoom (JStr room) user w) = delete room (activeSessions w) /\
  processors (leaveRoom (JStr room) user w) = processors w.
Proof.
  intros Hs. cbv zeta. set (w := Async.world s).
  pose proof (routeSlotsEmpty_async s Hs) as Hinv. fold w in Hinv.
  unfold leaveRoom. cbn [sessions_get].
  destruct (activeSessions w !! room) as [session|] eqn:Hroom.
  - destruct (Hinv room session Hroom) as [Hc Hp].
    assert (Hnone : forall reason,
      notifyOtherSide reason
        (if strict_eq_str user "caller"
         then participantConnection session else creatorConnection session) w = w).
    { intros reason. destruct (strict_eq_str user "caller");
        [destruct (participantConnection session)|destruct (creatorConnection session)];
        done. }
    rewrite Hnone. rewrite activeSessions_set_activeSessions, processors_set_activeSessions.
    done.
  - by rewrite delete_id.
Qed.

Lemma leaveRoom_witness :
  processors (leaveRoom (JStr "room1") (JStr "caller") (Async.world Scenario.heard))
  = processors (Async.world Scenario.heard).
Proof.
  exact (proj2 (leaveRoom_deletes_room_only Scenario.heard "room1" (JStr "caller")
                  reachable_heard)).
Defined.

End LeaveRoom.
(** ** Single flight in the whole process *)

Section SystemFlight.

Import Server.

Lemma busy_keep ref f w ref' :
  (forall p, isProcessing (f p) = isProcessing p) ->
  busy (upd_proc ref f w) ref' = busy w ref'.
Proof. apply (view_upd_proc isProcessing). Qed.

Lemma busy_set ref f w ref' (b : bool) :
  (forall p, isProcessing (f p) = b) ->
  busy (upd_proc ref f w) ref'
  = if decide (ref' = ref) then (fun _ => b) <$> busy w ref' else busy w ref'.
Proof.
  intros Hf. unfold busy. rewrite processors_upd_proc, lookup_alter.
  destruct (decide (ref' = ref)) as [->|Hne].
  - rewrite decide_True by done. destruct (processors w !! ref) as [p|]; cbn; [|done].
    by rewrite Hf.
  - rewrite decide_False by done. reflexivity.
Qed.

Lemma busy_clear this w ref :
  busy (upd_proc this (set_isProcessing false) w) ref
  = if decide (ref = this) then (fun _ => false) <$> busy w ref else busy w ref.
Proof. apply busy_set. by intros []. Qed.

Lemma busy_same w w' ref : processors w' = processors w -> busy w' ref = busy w ref.
Proof. unfold busy. by intros ->. Qed.

Lemma busy_logCalls calls w ref : busy (logCalls calls w) ref = busy w ref.
Proof. apply busy_same, processors_logCalls. Qed.

Lemma busy_addTranslation r u d w ref : busy (addTranslation r u d w) ref = busy w ref.
Proof. apply busy_same, processors_addTranslation. Qed.

Lemma keep_set_voiceProfiles c p : isProcessing (set_voiceProfiles c p) = isProcessing p.
Proof. by destruct p. Qed.
Lemma keep_set_ws v p : isProcessing (set_ws v p) = isProcessing p.
Proof. by destruct p. Qed.
Lemma keep_stats f p : isProcessing (set_stats (f (stats p)) p) = isProcessing p.
Proof. by destruct p. Qed.

Lemma busy_sendToOtherUserWith n t this audio other w ref :
  busy (sendToOtherUserWith n t this audio other w) ref = busy w ref.
Proof.
  unfold sendToOtherUserWith. repeat case_match; subst; try reflexivity;
    rewrite ?busy_keep by first [apply keep_set_ws | apply (keep_stats inc_audiosSent)];
    reflexivity.
Qed.

Ltac busy_step :=
  first [ rewrite busy_sendToOtherUserWith
        | rewrite busy_logCalls
        | rewrite busy_addTranslation
        | rewrite busy_clear
        | rewrite busy_keep by
            first [ apply keep_set_voiceProfiles | apply keep_set_ws
                  | apply (keep_stats inc_transcriptions)
                  | apply (keep_stats inc_translations)
                  | apply (keep_stats inc_audiosSent)
                  | apply (keep_stats inc_errors) ] ].

Ltac flags_done :=
  intros ref; cbn [fst snd]; repeat busy_step;
  destruct (decide (ref = _)); try reflexivity;
  match goal with |- context [busy ?w ?r] => destruct (busy w r) end;
  reflexivity.

Lemma flagsAfter_begin timeNow this mulawAudio w :
  flagsAfter this w (Async.begin timeNow this mulawAudio w).
Proof.
  unfold Async.begin, Async.finally.
  repeat case_match; subst; flags_done.
Qed.

Lemma flagsAfter_resume timeNow this stage answer w r :
  Async.resume timeNow this stage answer w = Some r -> flagsAfter this w r.
Proof.
  unfold Async.resume, Async.continueRecognized, Async.continueTranslated,
    Async.callPremium, Async.callSimple, Async.deliver, Async.abandon, Async.finally,
    sendToOtherUser.
  intros H. repeat case_match; subst; try discriminate H;
    apply (inj Some) in H; subst r; flags_done.
Qed.

(** *** Counting the pipelines of a processor *)

Lemma count_app ref l this stage :
  length (omap (ownedBy ref) (l ++ [(this, stage)]))
  = (length (omap (ownedBy ref) l) + if decide (ref = this) then 1 else 0)%nat.
Proof.
  rewrite omap_app, length_app. f_equal. cbn. unfold ownedBy. cbn.
  destruct (Nat.eqb_spec this ref); case_decide; subst; try done.
Qed.

Lemma count_insert ref l i this stage stage' :
  l !! i = Some (this, stage) ->
  length (omap (ownedBy ref) (<[i := (this, stage')]> l))
  = length (omap (ownedBy ref) l).
Proof.
  revert i. induction l as [|x l IH]; intros i Hi; [done|].
  destruct i as [|i]; cbn in Hi.
  - injection Hi as ->. cbn. unfold ownedBy. cbn. by destruct (this =? ref)%nat.
  - change (<[S i := (this, stage')]> (x :: l)) with (x :: <[i := (this, stage')]> l).
    specialize (IH i Hi). cbn [omap list_omap].
    destruct (ownedBy ref x); cbn [length]; by rewrite IH.
Qed.

Lemma count_delete ref l i this stage :
  l !! i = Some (this, stage) ->
  length (omap (ownedBy ref) l)
  = (length (omap (ownedBy ref) (delete i l)) + if decide (ref = this) then 1 else 0)%nat.
Proof.
  revert i. induction l as [|x l IH]; intros i Hi; [done|].
  destruct i as [|i]; cbn in Hi.
  - injection Hi as ->. cbn. unfold ownedBy at 1. cbn.
    destruct (Nat.eqb_spec this ref); case_decide; subst; cbn; try done; lia.
  - change (delete (S i) (x :: l)) with (x :: delete i l).
    specialize (IH i Hi). cbn [omap list_omap].
    destruct (ownedBy ref x); cbn [length]; rewrite IH; lia.
Qed.

Lemma oneFlight_same f s :
  (forall ref, busy (f (Async.world s)) ref = busy (Async.world s) ref) ->
  oneFlight s -> oneFlight (Async.onWorld f s).
Proof. intros Hf Hs ref. unfold pipelinesOf. cbn. rewrite Hf. apply Hs. Qed.

Lemma oneFlight_cleared f s this :
  (forall ref, busy (f (Async.world s)) ref
               = if decide (ref = this) then (fun _ => false) <$> busy (Async.world s) ref
                 else busy (Async.world s) ref) ->
  pipelinesOf this s = [] ->
  oneFlight s -> oneFlight (Async.onWorld f s).
Proof.
  intros Hf Hnone Hs ref. unfold pipelinesOf. cbn. rewrite Hf.
  destruct (decide (ref = this)) as [->|]; [|apply Hs].
  fold (pipelinesOf this s). rewrite Hnone.
  by destruct (busy (Async.world s) this).
Qed.

Lemma busy_cleanup this w ref :
  busy (cleanup this w) ref
  = if decide (ref = this) then (fun _ => false) <$> busy w ref else busy w ref.
Proof.
  destruct (processors w !! this) as [p|] eqn:Hp.
  - rewrite (cleanup_unfold this w p Hp).
    rewrite (busy_same _ _ _ (processors_set_activeSessions _ _)).
    apply busy_set. intros q. by destruct (cleanupFields_resets q) as (_ & _ & -> & _).
  - rewrite cleanup_absent by done. case_decide; [subst|done].
    unfold busy. by rewrite Hp.
Qed.

Lemma busy_notifyOtherSide reason other w ref :
  busy (notifyOtherSide reason other w) ref = busy w ref.
Proof.
  unfold notifyOtherSide. repeat case_match; try reflexivity.
  apply busy_keep, keep_set_ws.
Qed.

Lemma keep_handleStartFields sid start p :
  isProcessing (handleStartFields sid start p) = isProcessing p.
Proof. by destruct p, start as [[? [?|]]|]. Qed.

Lemma keep_markClosed p : isProcessing (markClosed p) = isProcessing p.
Proof. by destruct p as [[sock|] ? ? ? ? ? ? ? ? ? ? ? ? ? ? ? ?]. Qed.

Lemma keep_clearTimeout p :
  isProcessing (match silenceTimeout p with
                | Some handle => clearTimeout handle p
                | None => p
                end) = isProcessing p.
Proof. by destruct p as [? ? ? ? ? ? ? ? ? ? ? ? [h|] ? ? ? ?]. Qed.

Lemma keep_handleMediaSync payload p :
  isProcessing (fst (handleMediaSync payload p)) = isProcessing p.
Proof. apply handleMediaSync_isProcessing. Qed.

(** A flush starts a pipeline only on an idle processor, and leaves it busy
    exactly when one has started. *)
Lemma oneFlight_processBuffer timeNow this s :
  oneFlight s -> oneFlight (Async.processBuffer timeNow this s).
Proof.
  intros Hs. unfold Async.processBuffer.
  destruct (processors (Async.world s) !! this) as [p|] eqn:Hp; [|exact Hs].
  destruct (isProcessing p) eqn:Hbusy.
  { rewrite processBufferEnter_noop by auto.
    rewrite upd_proc_same by exact Hp. by destruct s. }
  pose proof (processBufferEnter_not_busy p Hbusy) as Hflag.
  destruct (processBufferEnter p) as [p' entry]. cbn [fst snd] in Hflag.
  set (w1 := upd_proc this (fun _ => p') (Async.world s)).
  assert (H1 : forall ref, busy w1 ref
                 = if decide (ref = this)
                   then (fun _ => isProcessing p') <$> busy (Async.world s) ref
                   else busy (Async.world s) ref)
    by (intros ref; apply busy_set; done).
  assert (Hthis : busy (Async.world s) this = Some false)
    by (unfold busy; rewrite Hp; cbn; by rewrite Hbusy).
  assert (Hidle : forall w', (forall ref, busy w' ref = busy (Async.world s) ref) ->
            oneFlight {| Async.world := w'; Async.suspended := Async.suspended s |}).
  { intros w' Hw' ref. unfold pipelinesOf. cbn. rewrite Hw'. apply Hs. }
  destruct entry as [| |audio ms].
  - apply Hidle. intros ref. rewrite H1, Hflag. case_decide; [subst|done].
    by rewrite Hthis.
  - apply Hidle. intros ref. rewrite H1, Hflag. case_decide; [subst|done].
    by rewrite Hthis.
  - pose proof (flagsAfter_begin timeNow this audio w1) as Hb.
    destruct (Async.begin timeNow this audio w1) as [w2 stage].
    intros ref. unfold pipelinesOf. cbn [Async.suspended Async.world].
    specialize (Hb ref). cbn [fst snd] in Hb. rewrite Hb, H1, Hflag.
    specialize (Hs ref). unfold pipelinesOf in Hs.
    destruct stage as [st|].
    + rewrite count_app, Hs. case_decide; [subst|lia]. by rewrite Hthis.
    + rewrite app_nil_r, Hs. case_decide; [subst|done]. by rewrite Hthis.
Qed.

Lemma oneFlight_settle i timeNow answer s :
  oneFlight s -> oneFlight (Async.step (Async.Settles i timeNow answer) s).
Proof.
  intros Hs. cbn [Async.step].
  destruct (Async.suspended s !! i) as [[this stage]|] eqn:Hi; [|exact Hs].
  destruct (Async.resume timeNow this stage answer (Async.world s)) as [r|] eqn:Hr;
    [|exact Hs].
  pose proof (flagsAfter_resume _ _ _ _ _ _ Hr) as Hf.
  destruct r as [w' next]. intros ref. specialize (Hf ref). cbn [fst snd] in Hf.
  specialize (Hs ref). unfold pipelinesOf in *.
  assert (Hown : decide (ref = this) = decide (ref = this)) by reflexivity.
  destruct next as [st|]; cbn [Async.world Async.suspended]; rewrite Hf.
  - rewrite (count_insert _ _ _ _ _ _ Hi). rewrite Hs. by case_decide.
  - rewrite (count_delete ref _ _ _ _ Hi) in Hs.
    case_decide; [subst ref|lia].
    destruct (busy (Async.world s) this) as [[]|]; cbn in *; lia.
Qed.

(** Every event other than a teardown of a processor whose pipeline is
    suspended keeps the pipelines and the busy flags in step. *)
Lemma oneFlight_step e s :
  match tornDown e with
  | Some ref => pipelinesOf ref s = []
  | None => True
  end ->
  oneFlight s -> oneFlight (Async.step e s).
Proof.
  intros He Hs.
  destruct e as [r|ref|i timeNow answer|timeNow|timeNow];
    [| | by apply oneFlight_settle | |].
  - destruct r as [room lang t|room lang|room user|sock|ref ext data|ref ext|ref|ref].
    + apply oneFlight_same; [|exact Hs]. intros ref.
      apply busy_same, processors_set_activeSessions.
    + apply oneFlight_same; [|exact Hs]. intros ref. cbn [handle]. unfold joinRoom.
      repeat case_match; try reflexivity;
        apply busy_same, processors_set_activeSessions.
    + apply oneFlight_same; [|exact Hs]. intros ref. cbn [handle]. unfold leaveRoom.
      destruct (sessions_get room (activeSessions (Async.world s))); [|reflexivity].
      rewrite (busy_same _ _ _ (processors_set_activeSessions _ _)).
      apply busy_notifyOtherSide.
    + intros ref. unfold pipelinesOf. cbn. unfold busy.
      destruct (Async.world s) as [m procs tr calls] eqn:E. cbn.
      specialize (Hs ref). unfold pipelinesOf, busy in Hs. rewrite E in Hs. cbn in Hs.
      rewrite lookup_insert. case_decide as Hfresh; [|exact Hs].
      subst ref. cbn. rewrite Hs.
      assert (Hnone : procs !! fresh (dom procs) = None)
        by (apply not_elem_of_dom, is_fresh).
      by rewrite Hnone.
    + destruct data as [sid start|payload| | |ev].
      * apply oneFlight_same; [|exact Hs]. intros ref'. cbn [handle handleMessage].
        unfold handleStart.
        assert (Hu : busy (upd_proc ref (handleStartFields sid start) (Async.world s)) ref'
                     = busy (Async.world s) ref')
          by apply busy_keep, keep_handleStartFields.
        destruct (processors (upd_proc ref (handleStartFields sid start) (Async.world s))
                    !! ref) as [q|]; [|exact Hu].
        destruct (negb (truthy (myLanguage q))); [exact Hu|].
        by rewrite (busy_same _ _ _ (registerConnection_processors _ _)).
      * cbn [Async.step].
        destruct (processors (Async.world s) !! ref) as [p|] eqn:Hp; [|exact Hs].
        pose proof (keep_handleMediaSync payload p) as Hk.
        destruct (handleMediaSync payload p) as [p' flushNow]. cbn [fst] in Hk.
        assert (Hs' : oneFlight (Async.onWorld (upd_proc ref (fun _ => p')) s)).
        { apply oneFlight_same; [|exact Hs]. intros ref'.
          rewrite (busy_set _ _ _ _ (isProcessing p')) by done.
          case_decide; [subst|done]. unfold busy. rewrite Hp. cbn. by rewrite Hk. }
        destruct flushNow; [by apply oneFlight_processBuffer|exact Hs'].
      * apply (oneFlight_cleared _ _ ref); [|exact He|exact Hs].
        intros ref'. cbn [handle handleMessage]. unfold handleStop.
        rewrite busy_cleanup. by rewrite busy_keep by apply keep_clearTimeout.
      * exact Hs.
      * exact Hs.
    + cbn [Async.step].
      destruct (processors (Async.world s) !! ref) as [p|]; [|exact Hs].
      destruct (silenceGuard p); [by apply oneFlight_processBuffer|exact Hs].
    + apply (oneFlight_cleared _ _ ref); [|exact He|exact Hs].
      intros ref'. cbn [handle]. unfold onClose. cbv zeta.
      assert (Hm : forall v r, busy (upd_proc ref markClosed v) r = busy v r)
        by (intros v r; apply busy_keep, keep_markClosed).
      set (w0 := upd_proc ref markClosed (Async.world s)).
      destruct (processors w0 !! ref) as [q|] eqn:Hq.
      * assert (Hc : forall v, busy v ref' = busy (Async.world s) ref' ->
                  busy (cleanup ref v) ref'
                  = if decide (ref' = ref)
                    then (fun _ => false) <$> busy (Async.world s) ref'
                    else busy (Async.world s) ref')
          by (intros v Hv; by rewrite busy_cleanup, Hv).
        destruct (negb (truthy (roomId q)) || negb (truthy (userType q)));
          [apply Hc, Hm|].
        destruct (sessions_get (roomId q) (activeSessions w0)); [|apply Hc, Hm].
        apply Hc. rewrite (busy_same _ _ _ (processors_set_activeSessions _ _)).
        rewrite busy_notifyOtherSide. apply Hm.
      * assert (Hn : busy (Async.world s) ref = None)
          by (rewrite <- (Hm _ ref); unfold busy; fold w0; by rewrite Hq).
        unfold w0. rewrite Hm. case_decide; [subst|done]. by rewrite Hn.
    + apply (oneFlight_cleared _ _ ref); [|exact He|exact Hs].
      intros ref'. cbn [handle]. unfold onError. apply busy_cleanup.
  - apply oneFlight_same; [|exact Hs]. intros ref'. apply busy_keep.
    intros p. destruct (negb (truthy (myLanguage p))); [done|].
    apply (keep_stats inc_packetsReceived).
  - apply oneFlight_same; [|exact Hs]. intros ref'. apply busy_same.
    by destruct (Async.world s).
  - apply oneFlight_same; [|exact Hs]. intros ref'. apply busy_same.
    by destruct (Async.world s).
Qed.

Lemma oneFlight_start : oneFlight Async.start.
Proof. intros ref. unfold pipelinesOf, busy. cbn. by rewrite lookup_empty. Qed.

(** X28.  In the whole process, with every event there is (requests,
    socket events, malformed media, services settling in any order, both
    sweeps): as long as no stop, close or error event tears a processor
    down while a pipeline of its own is suspended, each processor has
    exactly one suspended pipeline while [isProcessing] is true and none
    while it is false. *)
Theorem one_pipeline_per_processor (es : list Async.Event) (s : Async.System) :
  oneFlight s -> quiet es s = true -> oneFlight (Async.run es s).
Proof.
  revert s. induction es as [|e es IH]; intros s Hs Hq; [exact Hs|].
  cbn [quiet] in Hq. apply andb_true_iff in Hq as [He Hq].
  apply (IH (Async.step e s)); [|exact Hq].
  apply oneFlight_step; [|exact Hs].
  destruct (tornDown e) as [ref|]; [|exact I].
  apply Nat.eqb_eq in He. by destruct (pipelinesOf ref s).
Qed.

Lemma one_pipeline_witness :
  quiet Scenario.heardEvents Async.start = true /\
  length (pipelinesOf 0%nat (Async.run Scenario.heardEvents Async.start)) = 1%nat.
Proof.
  assert (Hq : quiet Scenario.heardEvents Async.start = true)
    by (vm_compute; reflexivity).
  assert (Hb : busy (Async.world (Async.run Scenario.heardEvents Async.start)) 0%nat
               = Some true)
    by (vm_compute; reflexivity).
  split; [exact Hq|].
  pose proof (one_pipeline_per_processor Scenario.heardEvents Async.start
                oneFlight_start Hq 0%nat) as H.
  rewrite H, Hb. reflexivity.
Defined.

End SystemFlight.
